(** * Credit log and fixed-width report scripts (scriptCreditLog.js)

    A shallow embedding of the parsing, joining and conversion logic of
    [scriptCreditLog.js], with the properties its specification states.

    Conventions of the embedding.
    - A JavaScript string is the list of its UTF-16 code units ([jsstring]).
    - A JavaScript Number is an IEEE 754 binary64 value ([number]), with the
      arithmetic of [SpecFloat] at precision 53 and maximal exponent 1024.
    - Host facilities whose tables are not part of the script (Unicode upper
      casing, [Date.parse], [Intl.DisplayNames]) are fields of a [Host]
      record that every function using them takes as an argument; so is the
      order [Array.prototype.sort] leaves an array in where the language does
      not fix it.
    - [window.prompt] is a script of answers consumed in order; the global
      collections and the rate cache are explicit state. *)

From Stdlib Require Import ZArith NArith List Bool Lia Ascii String DecimalString.
From Stdlib Require Import Floats.SpecFloat.
From Stdlib Require Import Sorting.Permutation Sorting.Sorted.
From stdpp Require Import base option list gmap sorting.

Local Open Scope Z_scope.

(* ===================================================================== *)
(** * Strings *)
(* ===================================================================== *)

(** A string value: its UTF-16 code units. *)
Definition jsstring : Type := list N.

(** A literal of the source (all of them are ASCII). *)
Definition js (s : String.string) : jsstring :=
  List.map N_of_ascii (list_ascii_of_string s).

Definition jsstring_eqb (a b : jsstring) : bool := bool_decide (a = b).

(** [WhiteSpace] and [LineTerminator] code units: what [String.prototype.trim]
    strips and what [\s] matches. *)
Definition isWhiteSpace (c : N) : bool :=
  ((9 <=? c) && (c <=? 13) || (c =? 32) || (c =? 160) || (c =? 5760)
   || (8192 <=? c) && (c <=? 8202) || (c =? 8232) || (c =? 8233)
   || (c =? 8239) || (c =? 8287) || (c =? 12288) || (c =? 65279))%N.

Fixpoint trimStart (s : jsstring) : jsstring :=
  match s with
  | c :: s' => if isWhiteSpace c then trimStart s' else s
  | [] => []
  end.

Definition trimEnd (s : jsstring) : jsstring := rev (trimStart (rev s)).

(** [s.trim()] *)
Definition trim (s : jsstring) : jsstring := trimEnd (trimStart s).

(** [s.substring(start, end)]: both indices are clamped to [0, s.length] and
    swapped when [start > end]. *)
Definition substring (s : jsstring) (start end_ : Z) : jsstring :=
  let len := Z.of_nat (length s) in
  let a := Z.min (Z.max start 0) len in
  let b := Z.min (Z.max end_ 0) len in
  let from := Z.min a b in
  let to := Z.max a b in
  take (Z.to_nat (to - from)) (drop (Z.to_nat from) s).

(** [s.substring(start)] *)
Definition substringFrom (s : jsstring) (start : Z) : jsstring :=
  substring s start (Z.of_nat (length s)).

Fixpoint isPrefixOf (p s : jsstring) : bool :=
  match p, s with
  | [], _ => true
  | a :: p', b :: s' => (a =? b)%N && isPrefixOf p' s'
  | _ :: _, [] => false
  end.

(** The least position of [s] from which the rest of [s] satisfies [P],
    counted from [i]: the scan behind [indexOf] and behind a regular
    expression match without anchors. *)
Fixpoint find_at (P : jsstring -> bool) (s : jsstring) (i : nat) : option nat :=
  if P s then Some i
  else match s with
       | [] => None
       | _ :: s' => find_at P s' (S i)
       end.

(** [s.indexOf(needle)] *)
Definition indexOf (s needle : jsstring) : Z :=
  match find_at (isPrefixOf needle) s 0 with
  | Some i => Z.of_nat i
  | None => -1
  end.

(** [s.includes(needle)] *)
Definition includes (s needle : jsstring) : bool :=
  negb (indexOf s needle =? -1).

(** [content.split(/\r?\n/)]: a line ends at a line feed, and a carriage
    return directly before that line feed belongs to the separator. *)
Fixpoint split_lines_aux (s cur : jsstring) : list jsstring :=
  match s with
  | [] => [rev cur]
  | 13%N :: 10%N :: s' => rev cur :: split_lines_aux s' []
  | 10%N :: s' => rev cur :: split_lines_aux s' []
  | c :: s' => split_lines_aux s' (c :: cur)
  end.

Definition split_lines (content : jsstring) : list jsstring :=
  split_lines_aux content [].

(** [lines[i]] for a Number index: [None] is [undefined]. *)
Definition line_at (lines : list jsstring) (i : Z) : option jsstring :=
  if i <? 0 then None else lines !! Z.to_nat i.

(** [s.replace(/\s/g, '')] *)
Definition squash (s : jsstring) : jsstring :=
  List.filter (fun c => negb (isWhiteSpace c)) s.

(** A code unit of the class [[A-Z0-9]]. *)
Definition isCodeChar (c : N) : bool :=
  ((65 <=? c) && (c <=? 90) || (48 <=? c) && (c <=? 57))%N.

(** [s] starts with four code units of the class. *)
Definition isCodeAt (s : jsstring) : bool :=
  match s with
  | a :: b :: c :: d :: _ => isCodeChar a && isCodeChar b && isCodeChar c && isCodeChar d
  | _ => false
  end.

(** [s.match(/[A-Z0-9]{4}/)]: the index of the leftmost match, if any. *)
Definition matchCode (s : jsstring) : option Z :=
  option_map Z.of_nat (find_at isCodeAt s 0).

(* ===================================================================== *)
(** * Numbers *)
(* ===================================================================== *)

(** A Number value: IEEE 754 binary64. *)
Definition number : Type := spec_float.

Definition prec : Z := 53.
Definition emax : Z := 1024.

Definition NaN : number := S754_nan.
Definition Infinity (neg : bool) : number := S754_infinity neg.
Definition num_sub (x y : number) : number := SFsub prec emax x y.
Definition num_mul (x y : number) : number := SFmul prec emax x y.
Definition num_div (x y : number) : number := SFdiv prec emax x y.

(** The Number value of an integer (rounded to nearest, ties to even). *)
Definition num_of_Z (z : Z) : number := binary_normalize prec emax z 0 false.

(** [isNaN(x)] on a Number. *)
Definition isNaN (x : number) : bool :=
  match x with S754_nan => true | _ => false end.

Definition isFiniteNum (x : number) : bool :=
  match x with S754_zero _ | S754_finite _ _ _ => true | _ => false end.

(** [x === y], [x <= y], [x < y] on Numbers ([false] when either is NaN). *)
Definition num_eqb (x y : number) : bool := SFeqb x y.
Definition num_leb (x y : number) : bool := SFleb x y.
Definition num_ltb (x y : number) : bool := SFltb x y.

(** The same Number value (as [Object.is] tells). *)
Definition num_same (x y : number) : bool :=
  match x, y with
  | S754_zero a, S754_zero b => Bool.eqb a b
  | S754_infinity a, S754_infinity b => Bool.eqb a b
  | S754_nan, S754_nan => true
  | S754_finite a m e, S754_finite b m' e' =>
      Bool.eqb a b && (m =? m')%positive && (e =? e')
  | _, _ => false
  end.

(** ToBoolean on a Number: zero and NaN are falsy. *)
Definition num_truthy (x : number) : bool :=
  match x with S754_zero _ | S754_nan => false | _ => true end.

(** The Number value of the decimal [(-1)^neg * m * 10^e10], correctly
    rounded: an integer is rounded directly, a proper fraction is the
    correctly rounded quotient of two integers. *)
Definition decimal_to_number (neg : bool) (m : N) (e10 : Z) : number :=
  match m with
  | N0 => S754_zero neg
  | Npos p =>
      if 0 <=? e10
      then binary_normalize prec emax
             ((if neg then Z.neg p else Z.pos p) * 10 ^ e10) 0 false
      else SFdiv prec emax (S754_finite neg p 0)
             (S754_finite false (Z.to_pos (10 ^ (- e10))) 0)
  end.

(** ** Reading a Number from text *)

Definition isDigit (c : N) : bool := ((48 <=? c) && (c <=? 57))%N.

(** The leading decimal digits of [s]: their value, their count, the rest. *)
Fixpoint scan_digits (s : jsstring) (acc : N) (cnt : Z) : N * Z * jsstring :=
  match s with
  | c :: s' =>
      if isDigit c then scan_digits s' (acc * 10 + (c - 48))%N (cnt + 1)
      else (acc, cnt, s)
  | [] => (acc, cnt, [])
  end.

Definition scan_sign (s : jsstring) : bool * jsstring :=
  match s with
  | 43%N :: s' => (false, s')
  | 45%N :: s' => (true, s')
  | _ => (false, s)
  end.

(** The exponent part [e±ddd] at the head of [s], when it is complete. *)
Definition scan_exponent (s : jsstring) : Z * jsstring :=
  match s with
  | c :: r =>
      if ((c =? 101) || (c =? 69))%N then
        let '(eneg, r1) := scan_sign r in
        let '(ev, ecnt, r2) := scan_digits r1 0%N 0 in
        if ecnt =? 0 then (0, s)
        else ((if eneg then - Z.of_N ev else Z.of_N ev), r2)
      else (0, s)
  | [] => (0, s)
  end.

(** The longest prefix of [s] that is a [StrDecimalLiteral]: its Number value
    and what follows it. *)
Definition strDecimalLiteral (s : jsstring) : option (number * jsstring) :=
  let '(neg, s1) := scan_sign s in
  if isPrefixOf (js "Infinity") s1 then Some (Infinity neg, drop 8 s1)
  else
    let '(iv, icnt, s2) := scan_digits s1 0%N 0 in
    let '(mv, fcnt, s3) :=
      match s2 with
      | 46%N :: r =>
          let '(fv, fc, r') := scan_digits r iv 0 in
          if (icnt =? 0) && (fc =? 0) then (iv, 0, s2) else (fv, fc, r')
      | _ => (iv, 0, s2)
      end in
    if (icnt =? 0) && (fcnt =? 0) then None
    else
      let '(ev, s4) := scan_exponent s3 in
      Some (decimal_to_number neg mv (ev - fcnt), s4).

(** Digits of a radix-[b] integer literal; [None] on a foreign character or
    an empty digit list. *)
Definition digit_value (c : N) : N :=
  (if isDigit c then c - 48
   else if (97 <=? c) && (c <=? 102) then c - 87
   else if (65 <=? c) && (c <=? 70) then c - 55
   else 99)%N.

Fixpoint radix_digits (b : N) (s : jsstring) (acc : N) : option N :=
  match s with
  | [] => Some acc
  | c :: s' =>
      if (digit_value c <? b)%N then radix_digits b s' (acc * b + digit_value c)%N
      else None
  end.

Definition nonDecimalLiteral (s : jsstring) : option number :=
  match s with
  | 48%N :: c :: ((_ :: _) as ds) =>
      let radix :=
        (if (c =? 120) || (c =? 88) then Some 16
         else if (c =? 111) || (c =? 79) then Some 8
         else if (c =? 98) || (c =? 66) then Some 2 else None)%N in
      match radix with
      | Some b => option_map (fun v => num_of_Z (Z.of_N v)) (radix_digits b ds 0%N)
      | None => None
      end
  | _ => None
  end.

(** [Number(s)] on a string (StringToNumber). *)
Definition Number_of_string (s : jsstring) : number :=
  let t := trim s in
  match t with
  | [] => S754_zero false
  | _ =>
      match nonDecimalLiteral t with
      | Some v => v
      | None =>
          match strDecimalLiteral t with
          | Some (v, []) => v
          | _ => NaN
          end
      end
  end.

(** [parseFloat(s)] on a string: leading white space is skipped and what
    follows the longest numeric prefix is ignored. *)
Definition parseFloat_string (s : jsstring) : number :=
  match strDecimalLiteral (trimStart s) with
  | Some (v, _) => v
  | None => NaN
  end.

(** ** Writing a Number as text *)

(** The decimal digits of a natural number. *)
Definition digits_of_N (n : N) : jsstring :=
  js (DecimalString.NilEmpty.string_of_uint (N.to_uint n)).

(** The exact value of a positive finite Number [m * 2^e] as a fraction. *)
Definition exact_fraction (m : positive) (e : Z) : Z * Z :=
  if 0 <=? e then (Z.pos m * 2 ^ e, 1) else (Z.pos m, 2 ^ (- e)).

(** The least [n] with [num / den < 10^n], searched upwards from [n]. *)
Fixpoint decade_up (fuel : nat) (num den n : Z) : Z :=
  match fuel with
  | O => n
  | S f => if num <? den * 10 ^ n then n else decade_up f num den (n + 1)
  end.

(** The least [n] with [num / den < 10^n] for [num < den], searched downwards
    from [n = 0]: [j] counts the decades passed. *)
Fixpoint decade_down (fuel : nat) (num den j : Z) : Z :=
  match fuel with
  | O => - j
  | S f => if den <=? num * 10 ^ (j + 1) then - j else decade_down f num den (j + 1)
  end.

Definition decade (num den : Z) : Z :=
  if den <=? num then decade_up 400 num den 1 else decade_down 400 num den 0.

(** The digits [s] (with [k] digits) and exponent [n] of Number::toString:
    [k] is the least count of digits for which some [s * 10^(n-k)] reads back
    as the Number itself; of two such [s] the one nearer the exact value.
    Seventeen digits always suffice for a binary64 value. *)
Fixpoint shortest_digits (fuel : nat) (v : number) (num den n k : Z) : N * Z :=
  let scale := n - k in
  let '(a, b) := if 0 <=? scale then (num, den * 10 ^ scale)
                 else (num * 10 ^ (- scale), den) in
  let lo := a / b in
  let hi := lo + 1 in
  let ok_lo := num_same (decimal_to_number false (Z.to_N lo) scale) v in
  let ok_hi := num_same (decimal_to_number false (Z.to_N hi) scale) v in
  let nearer_hi := b <? 2 * (a mod b) in
  let tie := b =? 2 * (a mod b) in
  let pick_hi := ok_hi && (negb ok_lo || nearer_hi || (tie && Z.odd lo)) in
  let answer (s : Z) :=
    if s =? 10 ^ k then (Z.to_N (10 ^ (k - 1)), n + 1) else (Z.to_N s, n) in
  if pick_hi then answer hi
  else if ok_lo then answer lo
  else match fuel with
       | O => answer lo
       | S f => shortest_digits f v num den n (k + 1)
       end.

Definition zeros (n : Z) : jsstring := repeat 48%N (Z.to_nat n).

(** Number::toString of a positive finite Number. *)
Definition toString_positive (m : positive) (e : Z) : jsstring :=
  let '(num, den) := exact_fraction m e in
  let '(s, n) := shortest_digits 16 (S754_finite false m e) num den (decade num den) 1 in
  let d := digits_of_N s in
  let k := Z.of_nat (length d) in
  if (k <=? n) && (n <=? 21) then d ++ zeros (n - k)
  else if (0 <? n) && (n <=? 21) then
    take (Z.to_nat n) d ++ js "." ++ drop (Z.to_nat n) d
  else if (-6 <? n) && (n <=? 0) then js "0." ++ zeros (- n) ++ d
  else
    let ex := n - 1 in
    let tail := js "e" ++ (if ex <? 0 then js "-" else js "+")
                  ++ digits_of_N (Z.to_N (Z.abs ex)) in
    if k =? 1 then d ++ tail
    else take 1 d ++ js "." ++ drop 1 d ++ tail.

(** [String(x)] and the interpolation of a Number in a template literal. *)
Definition Number_toString (x : number) : jsstring :=
  match x with
  | S754_nan => js "NaN"
  | S754_zero _ => js "0"
  | S754_infinity s => if s then js "-Infinity" else js "Infinity"
  | S754_finite s m e =>
      (if s then js "-" else []) ++ toString_positive m e
  end.

(** [x.toFixed(2)]: from [1e21] on it is [String(x)]; below, the nearest
    multiple of [0.01] of the exact value, the larger one on a tie. *)
Definition toFixed2 (x : number) : jsstring :=
  match x with
  | S754_nan => js "NaN"
  | S754_infinity _ => Number_toString x
  | S754_zero _ => js "0.00"
  | S754_finite s m e =>
      let '(num, den) := exact_fraction m e in
      if den * 10 ^ 21 <=? num then Number_toString x
      else
        let n := (2 * 100 * num + den) / (2 * den) in
        let d := digits_of_N (Z.to_N n) in
        let d := zeros (3 - Z.of_nat (length d)) ++ d in
        let ip := Z.to_nat (Z.of_nat (length d) - 2) in
        (if s then js "-" else []) ++ take ip d ++ js "." ++ drop ip d
  end.

(** [Math.round(x)]: the nearest integer, the larger one on a tie; a result
    of zero keeps the sign of [x]. *)
Definition Math_round (x : number) : number :=
  match x with
  | S754_finite s m e =>
      if 0 <=? e then x
      else
        let den := 2 ^ (- e) in
        let num := if s then Z.neg m else Z.pos m in
        let r := (2 * num + den) / (2 * den) in
        if r =? 0 then S754_zero s else num_of_Z r
  | _ => x
  end.

(* ===================================================================== *)
(** * Arrays *)
(* ===================================================================== *)

(** [Array.prototype.sort(comparefn)] with a consistent comparator.
    [lt a b] tells that SortCompare gives a result below zero for [a] and
    [b]; SortCompare turns a NaN of [comparefn] into [+0].  The comparators
    of the script are differences, so the sign of [comparefn(a, b)] is fixed
    by [lt a b] and [lt b a].  The sort is stable, so with a consistent
    comparator its result is fixed by the language, and a straight insertion
    sort computes it: each element moves left past the elements it compares
    below. *)
Section ArraySort.
Context {A : Type} (lt : A -> A -> bool).

(** [rl] is the sorted prefix, last element first. *)
Fixpoint sort_insert (x : A) (rl : list A) : list A :=
  match rl with
  | [] => [x]
  | p :: rl' => if lt x p then p :: sort_insert x rl' else x :: rl
  end.

Definition Array_sort (l : list A) : list A :=
  rev (fold_left (fun acc x => sort_insert x acc) l []).

(** All that a sort gets to see of an array: entry [i], [j] tells whether
    SortCompare puts element [i] below element [j]. *)
Definition comparisons (l : list A) : list (list bool) :=
  List.map (fun a => List.map (lt a) l) l.

(** The results of SortCompare over the elements of [l] are those of a
    consistent comparator: no element is below itself, "below" is
    transitive, and so is "neither below the other". *)
Definition consistent (l : list A) : bool :=
  forallb (fun a => negb (lt a a)) l
  && forallb (fun a =>
       forallb (fun b =>
         forallb (fun c =>
           implb (lt a b && lt b c) (lt a c)
           && implb (negb (lt a b) && negb (lt b a) && negb (lt b c) && negb (lt c b))
                (negb (lt a c) && negb (lt c a))) l) l) l.

End ArraySort.

(** Orders by a key, for the statements about the sorted rows. *)
Section SortByKey.
Context {A : Type} (key : A -> Z).

(** A comparator [key(a) - key(b)] is below zero. *)
Definition key_lt (a b : A) : bool := key a - key b <? 0.

Definition ascending : list A -> Prop := StronglySorted (fun a b => key a <= key b).
Definition descending : list A -> Prop := StronglySorted (fun a b => key b <= key a).

(** The elements of one key, in the order of the list. *)
Definition with_key (k : Z) (l : list A) : list A :=
  List.filter (fun a => key a =? k) l.

End SortByKey.

(* ===================================================================== *)
(** * Values, completions and the host *)
(* ===================================================================== *)

(** The values that flow through the script's untyped variables. *)
Inductive value : Type :=
  | VUndefined
  | VNull
  | VNum (x : number)
  | VStr (s : jsstring).

(** A nullable string field ([getElementText]): [None] is [null]. *)
Definition to_value (o : option jsstring) : value :=
  match o with Some s => VStr s | None => VNull end.

(** A nullable Number field ([getElementNumber]). *)
Definition num_to_value (o : option number) : value :=
  match o with Some x => VNum x | None => VNull end.

(** ToBoolean *)
Definition truthy (v : value) : bool :=
  match v with
  | VUndefined | VNull => false
  | VNum x => num_truthy x
  | VStr s => negb (jsstring_eqb s [])
  end.

(** [a || b] *)
Definition js_or (a b : value) : value := if truthy a then a else b.

(** ToString, as a template literal applies it. *)
Definition ToString (v : value) : jsstring :=
  match v with
  | VUndefined => js "undefined"
  | VNull => js "null"
  | VNum x => Number_toString x
  | VStr s => s
  end.

(** [parseFloat(v)]: the argument is first converted with ToString.  For a
    Number that conversion reads back as the Number itself (the round-trip
    guarantee of Number::toString), except that [-0] prints as ["0"]. *)
Definition parseFloat (v : value) : number :=
  match v with
  | VNum (S754_zero _) => S754_zero false
  | VNum x => x
  | VStr s => parseFloat_string s
  | VUndefined | VNull => NaN
  end.

(** How an evaluation ends: with a value or with a thrown exception. *)
Inductive completion (A : Type) : Type :=
  | Return (a : A)
  | Throw (e : jsstring).
Arguments Return {A} a.
Arguments Throw {A} e.

(** What the script takes from the browser without defining it.
    - [toUpperCase]: [String.prototype.toUpperCase] (Unicode case tables);
    - [Date_parse]: the time value of [new Date(text)], [None] for an
      Invalid Date (beyond the ISO forms the accepted texts are the
      engine's own);
    - [region_of]: [Intl.DisplayNames.prototype.of] for regions, [None] when
      it throws a RangeError;
    - [sort_order]: the order in which the engine's [Array.prototype.sort]
      leaves the indices of an array, from the results of SortCompare over
      its elements.  It is only asked where the language leaves the order
      to the engine. *)
Record Host : Type := {
  toUpperCase : jsstring -> jsstring;
  Date_parse : jsstring -> option Z;
  region_of : jsstring -> option value;
  sort_order : list (list bool) -> list nat
}.

(** [array.sort(comparefn)].  Where the results of SortCompare are those of
    a consistent comparator the language fixes the result, the stable sort.
    Otherwise the order is implementation-defined: the result is the
    reordering the engine chooses.  An order that is no permutation of the
    indices is none an engine can produce; the array is then left as it
    is. *)
Definition Array_prototype_sort (host : Host) {A : Type} (lt : A -> A -> bool)
    (l : list A) : list A :=
  if consistent lt l then Array_sort lt l
  else
    let order := sort_order host (comparisons lt l) in
    if bool_decide (order ≡ₚ seq 0 (length l))
    then omap (fun i => l !! i) order
    else l.

(* ===================================================================== *)
(** * Fixed-width reports *)
(* ===================================================================== *)

(** The report kinds, as [validateDataUpload] numbers them. *)
Inductive fileType : Type :=
  | Volume      (* 0 *)
  | Commission. (* 1 *)

(** [CODE_TO_COUNTRY_MAP]: the own properties of the table of client codes
    (the names [Object.prototype] adds all hold a lower-case letter and are
    never an upper-cased code). *)
Definition CODE_TO_COUNTRY_list : list (jsstring * jsstring) :=
  [(js "555W", js "Argentina"); (js "01H2", js "Argentina"); (js "6149", js "Armenia");
    (js "01Y1", js "Armenia"); (js "476D", js "Austria"); (js "5556", js "Austria");
    (js "0159", js "Brazil"); (js "540J", js "Brazil"); (js "626S", js "Brazil");
    (js "01D2", js "Brazil"); (js "01Q1", js "Brazil"); (js "0146", js "Chile");
    (js "5574", js "Chile"); (js "5577", js "Chile"); (js "622W", js "Chile");
    (js "9732", js "Chile"); (js "01J2", js "Chile"); (js "0226", js "China");
    (js "0960", js "China"); (js "406P", js "China"); (js "424W", js "China");
    (js "453P", js "China"); (js "5004", js "China"); (js "625G", js "China");
    (js "406M", js "Costa Rica"); (js "0116", js "Dom Rep"); (js "0084", js "Egypt");
    (js "0768", js "Egypt"); (js "520Q", js "Egypt"); (js "01X1", js "Egypt");
    (js "01D3", js "Egypt"); (js "0152", js "Greece"); (js "0319", js "Greece");
    (js "551B", js "Greece"); (js "01A3", js "Greece"); (js "01C3", js "Greece");
    (js "01L2", js "Greece"); (js "01W1", js "Greece"); (js "530A", js "Hong Kong");
    (js "7287", js "Hong Kong"); (js "0124", js "India"); (js "417S", js "India");
    (js "622Y", js "India"); (js "01A1", js "India"); (js "01C1", js "India");
    (js "01D1", js "India"); (js "01U1", js "India"); (js "0118", js "Indonesia");
    (js "625P", js "Italy"); (js "626B", js "Italy"); (js "5003", js "Japan");
    (js "7292", js "Japan"); (js "01X2", js "Japan"); (js "01E3", js "Japan");
    (js "01N1", js "Japan"); (js "618B", js "Malta"); (js "445Q", js "Mexico");
    (js "01Q3", js "Mexico"); (js "486K", js "Mexico"); (js "0214", js "Moldova");
    (js "1070", js "Moldova"); (js "01B2", js "Moldova"); (js "0150", js "Moroco");
    (js "01A2", js "Morocco"); (js "0126", js "Netherlands"); (js "541Q", js "Norway");
    (js "622N", js "Norway"); (js "0208", js "Peru"); (js "0259", js "Peru");
    (js "416S", js "Peru"); (js "470G", js "Peru"); (js "551L", js "Peru");
    (js "564T", js "Peru"); (js "01F2", js "Peru"); (js "01K2", js "Peru");
    (js "0227", js "Romania"); (js "443W", js "Romania"); (js "9590", js "Romania");
    (js "01C2", js "Romania"); (js "01M1", js "Romania"); (js "413W", js "Russia");
    (js "0376", js "Serbia"); (js "0138", js "Singapore"); (js "6654", js "Singapore");
    (js "01V1", js "Singapore"); (js "553T", js "Spain"); (js "625W", js "Spain");
    (js "01S1", js "Spain"); (js "01R3", js "Spain"); (js "0115", js "Taiwan");
    (js "0225", js "Taiwan"); (js "405M", js "Taiwan"); (js "432D", js "Taiwan");
    (js "5020", js "Taiwan"); (js "550L", js "Taiwan"); (js "622H", js "Taiwan");
    (js "624X", js "Taiwan"); (js "625E", js "Taiwan"); (js "626K", js "Taiwan");
    (js "01J3", js "Taiwan"); (js "01T2", js "Taiwan"); (js "01T3", js "Taiwan");
    (js "01K3", js "Taiwan"); (js "0153", js "Thailand"); (js "429D", js "Thailand");
    (js "0103", js "Turkey"); (js "0390", js "Turkey"); (js "0675", js "Turkey");
    (js "413L", js "Turkey"); (js "421C", js "Turkey"); (js "428T", js "Turkey");
    (js "473B", js "Turkey"); (js "550J", js "Turkey"); (js "6050", js "Turkey");
    (js "623F", js "Turkey"); (js "626P", js "Turkey"); (js "01Z3", js "Turkey");
    (js "01F3", js "Turkey"); (js "01E2", js "Turkey"); (js "01B3", js "Turkey");
    (js "01R1", js "Turkey"); (js "01R2", js "Turkey"); (js "01L1", js "Turkey");
    (js "01U3", js "Turkey"); (js "14U1", js "U"); (js "622S", js "UK");
    (js "550B", js "Uruguay"); (js "0123", js "Vietnam"); (js "505Q", js "Vietnam") ].

Definition CODE_TO_COUNTRY_MAP : gmap jsstring jsstring :=
  list_to_map CODE_TO_COUNTRY_list.

Section FixedWidth.
Context (host : Host).

(** [validateDataUpload(content)]; [None] is [null]. *)
Definition validateDataUpload (content : jsstring) : option fileType :=
  let lines := split_lines content in
  if 3 <=? Z.of_nat (length lines) then
    match lines !! 2%nat with
    | Some line =>
        let thirdLine := toUpperCase host line in
        if includes thirdLine (js "VOLUME") then Some Volume
        else if includes thirdLine (js "COMMISSION") then Some Commission
        else None
    | None => None
    end
  else None.

Definition squashedHeaderVolume : jsstring :=
  js "CLNTCURRMOLYSAMEMOCURRYTDYTDLASTYRTOTALLASTYR".
Definition squashedHeaderCommission : jsstring :=
  js "CLNTCURRMOLYSAMEMOCURRYTDYTDLASTYRTOTALLASTYRAVG".

Fixpoint findHeaderRow_loop (lines : list jsstring) (target : jsstring) (i : Z) : Z :=
  match lines with
  | [] => -1
  | line :: rest =>
      if jsstring_eqb (squash line) target then i + 1
      else findHeaderRow_loop rest target (i + 1)
  end.

(** [findHeaderRow(content, fileType)]: the 1-based row, or [-1]. *)
Definition findHeaderRow (content : jsstring) (ft : fileType) : Z :=
  let lines := split_lines content in
  let targetPattern :=
    match ft with Volume => squashedHeaderVolume | Commission => squashedHeaderCommission end in
  findHeaderRow_loop lines targetPattern 0.

(** A bracket [{ start, end }]. *)
Record Bracket : Type := { start : Z; end_ : Z }.

(** An object used as a dictionary with string keys: its own properties in
    insertion order. *)
Definition dict (V : Type) : Type := list (jsstring * V).

Fixpoint dict_set {V} (d : dict V) (k : jsstring) (v : V) : dict V :=
  match d with
  | [] => [(k, v)]
  | (k', v') :: d' =>
      if jsstring_eqb k' k then (k', v) :: d' else (k', v') :: dict_set d' k v
  end.

Fixpoint dict_get {V} (d : dict V) (k : jsstring) : option V :=
  match d with
  | [] => None
  | (k', v') :: d' => if jsstring_eqb k' k then Some v' else dict_get d' k
  end.

Record Separators : Type := {
  groupBracket : Bracket;
  codeBracket : Bracket;
  nameBracket : Bracket;
  dataColumnIndices : dict Z
}.

(** [terms.forEach(term => { idx = text.indexOf(term); if (idx !== -1) d[term] = idx })] *)
Definition record_terms (text : jsstring) (terms : list jsstring) (d : dict Z) : dict Z :=
  fold_left (fun d term =>
               let idx := indexOf text term in
               if idx =? -1 then d else dict_set d term idx) terms d.

Definition dataColumnTerms (ft : fileType) : list jsstring :=
  match ft with
  | Commission => [js "CURR MO"; js "LY SAME MO"; js "CURR YTD"; js "YTD LAST YR";
                   js "TOTAL LAST YR"; js "AVG"]
  | Volume => [js "CURR MO"; js "LY SAME MO"; js "CURR YTD"; js "YTD LAST YR";
               js "TOTAL LAST YR"]
  end.

Definition secondaryTerms : list jsstring :=
  [js "MTD % DIFF"; js "YTD % DIFF"; js "YTD DIFF"].

(** The secondary titles are looked up on the header line and on the line
    after it; a missing or empty line is passed over. *)
Definition record_secondary (lines : list jsstring) (rows : list Z) (d : dict Z) : dict Z :=
  fold_left (fun d rowIndex =>
               match line_at lines rowIndex with
               | Some headerText =>
                   if jsstring_eqb headerText [] then d
                   else record_terms headerText secondaryTerms d
               | None => d
               end) rows d.

Definition TypeError : jsstring := js "TypeError".
Definition RangeError : jsstring := js "RangeError".

(** [findColumnSeparators(content, headerRow, fileType)]; [Return None] is
    [null].  Reading a property of [undefined] (a line index below zero)
    throws a TypeError. *)
Definition findColumnSeparators (content : jsstring) (headerRow : Z)
    (ft : option fileType) : completion (option Separators) :=
  match ft with
  | None => Return None
  | Some ft =>
      let lines := split_lines content in
      let dataLineIndex := headerRow + 4 - 1 in
      if negb (headerRow =? -1) && (dataLineIndex <? Z.of_nat (length lines)) then
        match line_at lines dataLineIndex with
        | None => Throw TypeError
        | Some dataLine =>
            match matchCode dataLine with
            | None => Return None
            | Some codeIndex =>
                let groupBracket := {| start := 0; end_ := codeIndex |} in
                let codeBracket := {| start := codeIndex; end_ := codeIndex + 4 |} in
                let nameStartIndex := end_ codeBracket in
                let searchArea := substringFrom dataLine nameStartIndex in
                let fourSpacesIndex := indexOf searchArea (js "    ") in
                let nameEndIndex :=
                  if negb (fourSpacesIndex =? -1) then nameStartIndex + fourSpacesIndex
                  else Z.of_nat (length dataLine) in
                let nameBracket := {| start := nameStartIndex; end_ := nameEndIndex |} in
                match line_at lines (headerRow - 1) with
                | None => Throw TypeError
                | Some headerLine =>
                    let d := record_terms headerLine (dataColumnTerms ft) [] in
                    let d := record_secondary lines [headerRow - 1; headerRow] d in
                    Return (Some {| groupBracket := groupBracket;
                                    codeBracket := codeBracket;
                                    nameBracket := nameBracket;
                                    dataColumnIndices := d |})
                end
            end
        end
      else Return None
  end.

(** ** The row parser *)

(** One [<tr>] of the table body: the cells the script writes into it. *)
Record Row : Type := {
  rowGroup : jsstring;
  rowCode : jsstring;
  rowName : jsstring;
  rowCells : list jsstring
}.

(** What [generateTableHTML] renders: the error paragraph, or a table with
    its data-column headers and body rows.  The markup around the cells is
    presentation and is not kept. *)
Inductive TableHTML : Type :=
  | NoTable (html : jsstring)
  | Table (title : jsstring) (columns : list jsstring) (rows : list Row).

Definition bracket_slice (line : jsstring) (b : Bracket) : jsstring :=
  substring line (start b) (end_ b).

(** [Object.entries(d).sort(([, a], [, b]) => a - b).map(([name]) => name)].
    The offsets are integers, so the comparator is consistent and the
    language fixes the result. *)
Definition sortedDataColumns (d : dict Z) : list jsstring :=
  List.map fst (Array_sort (fun a b => snd a - snd b <? 0) d).

(** [line.substring(startIndex, startIndex + 15).trim()] with
    [startIndex = d[name]]; for an absent name both bounds are not numbers
    and the slice is empty. *)
Definition data_cell (line : jsstring) (d : dict Z) (name : jsstring) : jsstring :=
  match dict_get d name with
  | Some startIndex => trim (substring line startIndex (startIndex + 15))
  | None => []
  end.

(** The body of [lines.forEach(line => ...)] in [generateTableHTML]: the rows
    written so far, and the row this line adds, if it adds one. *)
Definition table_line (seps : Separators) (columns : list jsstring)
    (rows : list Row) (line : jsstring) : list Row :=
  let groupValue := trim (bracket_slice line (groupBracket seps)) in
  let codeValue := trim (bracket_slice line (codeBracket seps)) in
  if negb (Z.of_nat (length groupValue) =? 1) || jsstring_eqb codeValue [] then
    rows
  else
    rows ++ [ {| rowGroup := groupValue;
                 rowCode := codeValue;
                 rowName := trim (bracket_slice line (nameBracket seps));
                 rowCells := List.map (data_cell line (dataColumnIndices seps)) columns |} ].

Definition quote : jsstring := [34%N].

Definition noTableMessage (title : jsstring) : jsstring :=
  js "<h2>" ++ title ++ js "</h2><p class=" ++ quote ++ js "text-danger" ++ quote
    ++ js ">Could not generate table because column definitions were not found.</p>".

(** [generateTableHTML(title, content, separators)] *)
Definition generateTableHTML (title content : jsstring)
    (separators : option Separators) : TableHTML :=
  match separators with
  | None => NoTable (noTableMessage title)
  | Some seps =>
      let lines := split_lines content in
      let columns := sortedDataColumns (dataColumnIndices seps) in
      Table title columns (fold_left (table_line seps columns) lines [])
  end.

(** ** Percentage differences *)

(** [s.replace(/,/g, '')] *)
Definition remove_commas (s : jsstring) : jsstring :=
  List.filter (fun c => negb (c =? 44)%N) s.

(** [parseNumericValue(value)]; [None] is [null]. *)
Definition parseNumericValue (v : value) : option number :=
  match v with
  | VStr s =>
      let trimmed := trim s in
      if jsstring_eqb trimmed [] then None
      else
        let normalized := remove_commas trimmed in
        let numericValue := Number_of_string normalized in
        if isNaN numericValue then None else Some numericValue
  | _ => None
  end.

Definition num_zero : number := S754_zero false.
Definition num_100 : number := num_of_Z 100.

(** [((current - previous) / previous) * 100] *)
Definition percentValue (currentNumber previousNumber : number) : number :=
  num_mul (num_div (num_sub currentNumber previousNumber) previousNumber) num_100.

(** [computePercentageDiff(currentValue, previousValue)] *)
Definition computePercentageDiff (currentValue previousValue : value) : jsstring :=
  match parseNumericValue currentValue, parseNumericValue previousValue with
  | Some currentNumber, Some previousNumber =>
      if num_eqb currentNumber num_zero || num_eqb previousNumber num_zero
      then js "N/A"
      else
        let roundedPercent := Math_round (percentValue currentNumber previousNumber) in
        Number_toString roundedPercent ++ js "%"
  | _, _ => js "N/A"
  end.

(** ** The volume link table *)

(** [isZeroValue(value)] on a string. *)
Definition isZeroValue (s : jsstring) : bool :=
  let trimmed := trim s in
  if jsstring_eqb trimmed [] then true
  else
    let numericCandidate :=
      List.filter (fun c => isDigit c || (c =? 46)%N || (c =? 45)%N) trimmed in
    if jsstring_eqb numericCandidate [] || jsstring_eqb numericCandidate (js "-")
       || jsstring_eqb numericCandidate (js ".") then true
    else
      let numericValue := parseFloat_string numericCandidate in
      if isNaN numericValue then jsstring_eqb trimmed (js "0")
      else num_eqb numericValue num_zero.

(** [extractDataColumn(line, indices, primaryKey, fallbackKeys)].  The keys
    are strings, so [!primaryKey] and [key &&] test for the empty string. *)
Definition extractDataColumn (line : jsstring) (indices : dict Z)
    (primaryKey : jsstring) (fallbackKeys : list jsstring) : jsstring :=
  if jsstring_eqb primaryKey [] then []
  else
    let keysToTry := primaryKey :: fallbackKeys in
    let columnStart :=
      fold_left (fun found key =>
                   match found with
                   | Some _ => found
                   | None => if negb (jsstring_eqb key []) then dict_get indices key else None
                   end) keysToTry None in
    match columnStart with
    | None => []
    | Some columnStart => trim (substring line columnStart (columnStart + 15))
    end.

(** [columnConfig.slice(1)]: label, key and fallback keys of a data column. *)
Definition columnConfig : list (jsstring * jsstring * list jsstring) :=
  [ (js "CURR MO VOLUME", js "CURR MO", []);
    (js "LY SAME MO VOLUME", js "LY SAME MO", []);
    (js "MTD % DIFF", js "MTD % DIFF", [js "MTD DIFF"]);
    (js "CURR YTD VOLUME", js "CURR YTD", []);
    (js "YTD LAST YR VOLUME", js "YTD LAST YR", []);
    (js "YTD % DIFF", js "YTD % DIFF", [js "YTD DIFF"]);
    (js "TOTAL LAST YR VOLUME", js "TOTAL LAST YR", []) ].

(** [rowData[label]]: [undefined] when the label was not written yet. *)
Definition rowData_get (rowData : dict jsstring) (label : jsstring) : value :=
  match dict_get rowData label with Some s => VStr s | None => VUndefined end.

(** One step of [columnConfig.slice(1).map(...)]: the value of a column,
    given the values of the columns before it. *)
Definition link_cell (line : jsstring) (indices : dict Z) (rowData : dict jsstring)
    (column : jsstring * jsstring * list jsstring) : jsstring :=
  let '(label, key, fallbacks) := column in
  let dataValue := extractDataColumn line indices key fallbacks in
  let normalizedValue := if jsstring_eqb dataValue [] then js "0" else dataValue in
  if jsstring_eqb label (js "MTD % DIFF") then
    computePercentageDiff (rowData_get rowData (js "CURR MO VOLUME"))
                          (rowData_get rowData (js "LY SAME MO VOLUME"))
  else if jsstring_eqb label (js "YTD % DIFF") then
    computePercentageDiff (rowData_get rowData (js "CURR YTD VOLUME"))
                          (rowData_get rowData (js "YTD LAST YR VOLUME"))
  else normalizedValue.

Fixpoint link_cells (line : jsstring) (indices : dict Z) (rowData : dict jsstring)
    (columns : list (jsstring * jsstring * list jsstring)) : list jsstring :=
  match columns with
  | [] => []
  | column :: rest =>
      let v := link_cell line indices rowData column in
      v :: link_cells line indices (dict_set rowData (fst (fst column)) v) rest
  end.

Record LinkRow : Type := { displayName : jsstring; rowValues : list jsstring }.

(** [groupedRows]: the rows of group C and of group U. *)
Record GroupedRows : Type := { rowsC : list LinkRow; rowsU : list LinkRow }.

(** The body of [lines.forEach(line => ...)] in [generateVolumeLinkTable]. *)
Definition link_line (seps : Separators) (g : GroupedRows) (line : jsstring) : GroupedRows :=
  let groupValue := trim (bracket_slice line (groupBracket seps)) in
  let codeValue := toUpperCase host (trim (bracket_slice line (codeBracket seps))) in
  let isC := jsstring_eqb groupValue (js "C") in
  let isU := jsstring_eqb groupValue (js "U") in
  if negb (Z.of_nat (length groupValue) =? 1) || jsstring_eqb codeValue []
     || negb (isC || isU) then g
  else
    let nameValue := trim (bracket_slice line (nameBracket seps)) in
    let country :=
      match CODE_TO_COUNTRY_MAP !! codeValue with
      | Some c => if jsstring_eqb c [] then js "Unknown Country" else c
      | None => js "Unknown Country"
      end in
    let displayName := nameValue ++ js ", " ++ country in
    let rowValues := link_cells line (dataColumnIndices seps) [] columnConfig in
    let hasNonZeroValue := existsb (fun v => negb (isZeroValue v)) rowValues in
    if negb hasNonZeroValue then g
    else
      let r := {| displayName := displayName; rowValues := rowValues |} in
      if isC then {| rowsC := rowsC g ++ [r]; rowsU := rowsU g |}
      else {| rowsC := rowsC g; rowsU := rowsU g ++ [r] |}.

(** [generateVolumeLinkTable(content, separators)]: the rows of its two
    tables ([None] is the error paragraph); widths, totals and markup are
    presentation and are not kept. *)
Definition generateVolumeLinkTable (content : jsstring)
    (separators : option Separators) : option GroupedRows :=
  match separators with
  | None => None
  | Some seps =>
      Some (fold_left (link_line seps) (split_lines content)
                      {| rowsC := []; rowsU := [] |})
  end.

(** ** The upload handler *)

(** What the click handler of the report page ends with: an alert, or the
    three rendered tables. *)
Inductive UploadResult : Type :=
  | Alert (message : jsstring)
  | Displayed (volumeTable commissionTable : TableHTML)
              (volumeLinkTable : option GroupedRows).

Definition invalidReportAlert (fileName section kind : jsstring) : jsstring :=
  js "Error: The file '" ++ fileName ++ js "' in the '" ++ section
    ++ js "' section is not a valid " ++ kind ++ js " report.".

Definition readErrorAlert : jsstring :=
  js "There was an error reading one of the files. Please check the console for details.".

(** The click handler, from the two file contents on. *)
Definition processReports (volumeName volumeFileContent
                           commissionName commissionFileContent : jsstring) : UploadResult :=
  let volumeFileType := validateDataUpload volumeFileContent in
  let commissionFileType := validateDataUpload commissionFileContent in
  match volumeFileType with
  | Some Volume =>
      match commissionFileType with
      | Some Commission =>
          let volumeHeaderRow := findHeaderRow volumeFileContent Volume in
          let commissionHeaderRow := findHeaderRow commissionFileContent Commission in
          match findColumnSeparators commissionFileContent commissionHeaderRow commissionFileType with
          | Throw _ => Alert readErrorAlert
          | Return commissionSeparators =>
              match findColumnSeparators volumeFileContent volumeHeaderRow volumeFileType with
              | Throw _ => Alert readErrorAlert
              | Return volumeSeparators =>
                  Displayed
                    (generateTableHTML (js "Volume Report") volumeFileContent volumeSeparators)
                    (generateTableHTML (js "Commission Report") commissionFileContent commissionSeparators)
                    (generateVolumeLinkTable volumeFileContent volumeSeparators)
              end
          end
      | _ => Alert (invalidReportAlert commissionName (js "Commission File") (js "Commission"))
      end
  | _ => Alert (invalidReportAlert volumeName (js "Volume File") (js "Volume"))
  end.

End FixedWidth.

(* ===================================================================== *)
(** * Messages *)
(* ===================================================================== *)

(** The records the decoders build.  A text field is [null] ([None]) when its
    element is absent; a Number field is [null] when its element is absent or
    empty.  Of each payload the fields the combiner reads are kept. *)

Record MsgInfo : Type := {
  SenderCode : option jsstring;
  ReceiverCode : option jsstring;
  CreatedBy : option jsstring;
  SequenceNr : option number;
  DateTime : option jsstring;
  Status : option number
}.

Record Factor : Type := {
  FactorCode : option jsstring;
  FactorName : option jsstring
}.

Record Seller : Type := {
  SellerNr : option jsstring;
  SellerName : option jsstring
}.

Record SellerDetails : Type := {
  BusinessProduct : option jsstring;
  NetPmtTerms01 : option number
}.

(** MSG01, the seller agreement.  Its fields carry the suffix [01] where a
    transactional message has a field of the same name. *)
Record MSG01 : Type := {
  msgInfo01 : MsgInfo;
  ef01 : Factor;
  seller01 : Seller;
  sellerDetails : SellerDetails;
  msgText01 : jsstring
}.

(** The buyer of a transactional message.  MSG07 has neither [Country] nor
    [DirectContact]: there both are [undefined], which the combiner treats
    like [null]. *)
Record Buyer : Type := {
  BuyerName : option jsstring;
  Country : option jsstring;
  DirectContact : option number
}.

(** The detail section of each transactional kind. *)
Inductive Details : Type :=
  | prelCreditAssessDetails   (* MSG02 *)
      (AmtCreditAssessReq : option number) (Currency : option jsstring)
      (NetPmtTerms : option number)
  | creditCoverDetails        (* MSG05 *)
      (NewCreditCoverAmt : option number) (Currency : option jsstring)
      (NetPmtTerms : option number)
  | newCreditCoverDetails     (* MSG07, with the currency of currentCreditCoverDetails *)
      (NewCreditCoverAmt : option number) (currentCurrency : option jsstring)
      (LongCreditPeriodDays : option number).

(** A transactional message: MSG02, MSG05 or MSG07. *)
Record Msg : Type := {
  msgInfo : MsgInfo;
  ef : Factor;
  seller : Seller;
  buyer : Buyer;
  requestDate : option jsstring;
  details : Details;
  msgText : jsstring
}.

Inductive msgType : Type := MSG02 | MSG05 | MSG07.

(** [msg.type] *)
Definition type (msg : Msg) : msgType :=
  match details msg with
  | prelCreditAssessDetails _ _ _ => MSG02
  | creditCoverDetails _ _ _ => MSG05
  | newCreditCoverDetails _ _ _ => MSG07
  end.

Definition typeName (t : msgType) : jsstring :=
  match t with MSG02 => js "MSG02" | MSG05 => js "MSG05" | MSG07 => js "MSG07" end.

(** ** The repository *)

Record Repository : Type := {
  allMsg01s : gmap jsstring MSG01;
  allMsg02s : list Msg;
  allMsg05s : list Msg;
  allMsg07s : list Msg
}.

(** [resetGlobalMessageCollections()] *)
Definition emptyRepository : Repository :=
  {| allMsg01s := ∅; allMsg02s := []; allMsg05s := []; allMsg07s := [] |}.

(** The join key [`${SenderCode}_${SellerNr}`]. *)
Definition joinKey (senderCode sellerNr : option jsstring) : jsstring :=
  ToString (to_value senderCode) ++ js "_" ++ ToString (to_value sellerNr).

Definition key01 (m : MSG01) : jsstring :=
  joinKey (SenderCode (msgInfo01 m)) (SellerNr (seller01 m)).

Definition keyOf (msg : Msg) : jsstring :=
  joinKey (SenderCode (msgInfo msg)) (SellerNr (seller msg)).

(** A decoded message node. *)
Inductive Instance : Type :=
  | Seller_agreement (m : MSG01)
  | Transactional (msg : Msg).

(** The body of [msgNodes.forEach(node => ...)]: a node whose decoder threw
    is logged and leaves the collections as they are. *)
Definition register (repo : Repository) (node : completion Instance) : Repository :=
  match node with
  | Throw _ => repo
  | Return (Seller_agreement m) =>
      {| allMsg01s := <[key01 m := m]> (allMsg01s repo);
         allMsg02s := allMsg02s repo;
         allMsg05s := allMsg05s repo;
         allMsg07s := allMsg07s repo |}
  | Return (Transactional msg) =>
      match type msg with
      | MSG02 => {| allMsg01s := allMsg01s repo; allMsg02s := allMsg02s repo ++ [msg];
                    allMsg05s := allMsg05s repo; allMsg07s := allMsg07s repo |}
      | MSG05 => {| allMsg01s := allMsg01s repo; allMsg02s := allMsg02s repo;
                    allMsg05s := allMsg05s repo ++ [msg]; allMsg07s := allMsg07s repo |}
      | MSG07 => {| allMsg01s := allMsg01s repo; allMsg02s := allMsg02s repo;
                    allMsg05s := allMsg05s repo; allMsg07s := allMsg07s repo ++ [msg] |}
      end
  end.

(** The nodes of all files of a run, in the order they are decoded. *)
Definition registerAll (nodes : list (completion Instance)) : Repository :=
  fold_left register nodes emptyRepository.

(** [allMsg01s.get(key)] *)
Definition lookupSeller (repo : Repository) (senderCode sellerNr : option jsstring)
  : option MSG01 :=
  allMsg01s repo !! joinKey senderCode sellerNr.

(** ** Exchange rates *)

(** The state of a run: the rate cache (the own properties of
    [exchangeRatesCache]) and the answers the user will give to the coming
    prompts, [None] for a cancelled dialog. *)
Record State : Type := {
  exchangeRatesCache : gmap jsstring number;
  answers : list (option jsstring)
}.

(** How a stateful evaluation ends: with a value and the state it leaves,
    with a thrown exception, or in a prompt that has no answer yet. *)
Inductive outcome (A : Type) : Type :=
  | Done (a : A) (st : State)
  | Raised (e : jsstring)
  | Waiting.
Arguments Done {A} a st.
Arguments Raised {A} e.
Arguments Waiting {A}.

Definition bind {A B} (m : State -> outcome A) (f : A -> State -> outcome B)
  : State -> outcome B :=
  fun st => match m st with
            | Done a st' => f a st'
            | Raised e => Raised e
            | Waiting => Waiting
            end.

Definition ret {A} (a : A) : State -> outcome A := fun st => Done a st.

Definition lift {A} (c : completion A) : State -> outcome A :=
  fun st => match c with Return a => Done a st | Throw e => Raised e end.

Notation "x <- m ;; f" := (bind m (fun x => f))
  (at level 100, m at next level, right associativity).

(** [prompt(...)]: the next answer of the user. *)
Definition prompt : State -> outcome (option jsstring) :=
  fun st => match answers st with
            | [] => Waiting
            | a :: rest =>
                Done a {| exchangeRatesCache := exchangeRatesCache st; answers := rest |}
            end.

(** The [while (isNaN(rate) || rate <= 0)] loop of [promptForExchangeRate],
    over the answers still to come: the rate it returns ([None] is [null])
    and the answers left, or [None] when the answers end in an open dialog. *)
Fixpoint prompt_retry (rest : list (option jsstring)) (rate : number)
  : option (option number * list (option jsstring)) :=
  if isNaN rate || num_leb rate num_zero then
    match rest with
    | [] => None
    | None :: rest' => Some (None, rest')
    | Some input :: rest' => prompt_retry rest' (parseFloat_string input)
    end
  else Some (Some rate, rest).

(** [promptForExchangeRate(currencyCode)]; the currency code only appears in
    the text of the dialog. *)
Definition promptForExchangeRate (currencyCode : jsstring)
  : State -> outcome (option number) :=
  fun st =>
    match answers st with
    | [] => Waiting
    | None :: rest =>
        Done None {| exchangeRatesCache := exchangeRatesCache st; answers := rest |}
    | Some input :: rest =>
        match prompt_retry rest (parseFloat_string input) with
        | None => Waiting
        | Some (rate, rest') =>
            Done rate {| exchangeRatesCache := exchangeRatesCache st; answers := rest' |}
        end
    end.

Section Combiner.
Context (host : Host).

(** What [convertToUSD] returns when no rate was given. *)
Definition rateNeeded (numericAmount : number) (upperCaseCurrency : jsstring) : jsstring :=
  toFixed2 numericAmount ++ js " " ++ upperCaseCurrency ++ js " (Rate needed)".

Definition noRate (numericAmount : number) (upperCaseCurrency : jsstring) : jsstring :=
  toFixed2 numericAmount ++ js " " ++ upperCaseCurrency ++ js " (No Rate)".

(** [amount == null || amount === ''] *)
Definition noAmount (amount : value) : bool :=
  match amount with
  | VNull | VUndefined | VStr [] => true
  | _ => false
  end.

(** ToBoolean of the variable [rate]: [None] is [undefined] or [null]. *)
Definition rate_truthy (rate : option number) : bool :=
  match rate with Some r => num_truthy r | None => false end.

(** The end of [convertToUSD], from the second [if (!rate)] on. *)
Definition convert_with (numericAmount : number) (upperCaseCurrency : jsstring)
    (rate : option number) : value :=
  match rate with
  | Some r =>
      if num_truthy r then VNum (num_div numericAmount r)
      else VStr (noRate numericAmount upperCaseCurrency)
  | None => VStr (noRate numericAmount upperCaseCurrency)
  end.

(** [convertToUSD(amount, currency)].  The cache is read and written under
    the upper-cased currency code; the names [Object.prototype] adds to the
    cache object all hold a lower-case letter and are never such a code. *)
Definition convertToUSD (amount : value) (currency : option jsstring)
  : State -> outcome value :=
  if noAmount amount then ret (VStr (js " "))
  else
    match currency with
    | None | Some [] => ret (VStr (js "N/A"))
    | Some currency =>
        let numericAmount := parseFloat amount in
        if isNaN numericAmount then ret (VStr (js "Invalid Amount"))
        else
          let upperCaseCurrency := toUpperCase host currency in
          if jsstring_eqb upperCaseCurrency (js "USD") then ret (VNum numericAmount)
          else fun st =>
            let rate := exchangeRatesCache st !! upperCaseCurrency in
            if negb (rate_truthy rate) then
              match promptForExchangeRate upperCaseCurrency st with
              | Done (Some r) st' =>
                  Done (convert_with numericAmount upperCaseCurrency (Some r))
                       {| exchangeRatesCache :=
                            <[upperCaseCurrency := r]> (exchangeRatesCache st');
                          answers := answers st' |}
              | Done None st' =>
                  Done (VStr (rateNeeded numericAmount upperCaseCurrency)) st'
              | Raised e => Raised e
              | Waiting => Waiting
              end
            else Done (convert_with numericAmount upperCaseCurrency rate) st
    end.

(** [list.includes(item)] on an array of strings. *)
Definition array_includes (l : list jsstring) (x : jsstring) : bool :=
  existsb (jsstring_eqb x) l.

(** [factorName.includes(text)]: a TypeError when the name is [null]. *)
Definition name_includes (factorName : option jsstring) (text : jsstring)
  : completion bool :=
  match factorName with
  | Some n => Return (includes n text)
  | None => Throw TypeError
  end.

Definition num_500000 : number := num_of_Z 500000.

(** [getCreditManager(countryCode, creditLine, factorName)] *)
Definition getCreditManager (countryCode : jsstring) (creditLine : value)
    (factorName : option jsstring) : completion jsstring :=
  let numericCreditLine := parseFloat creditLine in
  if isNaN numericCreditLine then Return (js "N/A")
  else if num_leb numericCreditLine num_500000 then Return (js "lux")
  else
    let treyCountryCodes :=
      [js "AM"; js "EG"; js "GR"; js "IN"; js "MT"; js "RO"; js "TW"; js "TR"; js "VN"] in
    let treySpecialCodes := [js "SG"; js "JP"; js "US"] in
    if array_includes treyCountryCodes countryCode then Return (js "trey")
    else if array_includes treySpecialCodes countryCode then
      if jsstring_eqb countryCode (js "SG") then
        match name_includes factorName (js "Mogli") with
        | Throw e => Throw e
        | Return b => Return (if b then js "trey" else js "bost")
        end
      else if jsstring_eqb countryCode (js "JP") then
        match name_includes factorName (js "Mitsubishi") with
        | Throw e => Throw e
        | Return true => Return (js "trey")
        | Return false =>
            match name_includes factorName (js "Sumitomo Mitsui") with
            | Throw e => Throw e
            | Return b => Return (if b then js "trey" else js "bost")
            end
        end
      else
        match name_includes factorName (js "Standard Chartered Bank New York") with
        | Throw e => Throw e
        | Return b => Return (if b then js "trey" else js "bost")
        end
    else Return (js "bost").

(** [getAccountExecutive(countryCode, factorName)] *)
Definition getAccountExecutive (countryCode : jsstring) (factorName : option jsstring)
  : jsstring :=
  let factorNameUpper := toUpperCase host (ToString (to_value factorName)) in
  let countryCodeUpper := toUpperCase host countryCode in
  let has := includes factorNameUpper in
  let maryCodes := [js "AR"; js "BD"; js "CA"; js "CL"; js "CN"; js "DO"; js "SV"; js "GT";
                    js "HN"; js "HK"; js "HU"; js "IT"; js "MU"; js "PK"; js "PT"; js "UY"] in
  let tammieCodes := [js "AM"; js "BG"; js "HR"; js "CY"; js "CZ"; js "EG"; js "GR"; js "MT";
                      js "MA"; js "RS"; js "SK"; js "SI"; js "TN"; js "TR"] in
  let jamesCodes := [js "ID"; js "JP"; js "KP"; js "KR"; js "MY"; js "PL"; js "ES"; js "LK";
                     js "TH"; js "AE"; js "VN"] in
  let tylerCodes := [js "BR"; js "CO"; js "CR"; js "FR"; js "DE"; js "MD"; js "PE"; js "RO";
                     js "TW"] in
  if jsstring_eqb countryCodeUpper (js "MX") && has (js "BANCOMEX") then js "Mary Farley"
  else if jsstring_eqb countryCodeUpper (js "MX") && has (js "BANCO MONEX") then js "Tyler Sigler"
  else if jsstring_eqb countryCodeUpper (js "IN")
          && (has (js "INDIA FACTORING") || has (js "SBI GLOBAL")) then js "Tammie Cosey"
  else if jsstring_eqb countryCodeUpper (js "IN")
          && (has (js "ICICI BANK") || has (js "INDIA EXIM")) then js "James Vuu"
  else if jsstring_eqb countryCodeUpper (js "IN")
          && (has (js "ECGC") || has (js "YES BANK")) then js "Tyler Sigler"
  else if jsstring_eqb countryCodeUpper (js "US")
          && has (js "STANDARD CHARTERED BANK NEW YORK") then js "Mary Farley"
  else if jsstring_eqb countryCodeUpper (js "SG") then
    if has (js "MOGLI LABS") then js "Tammie Cosey" else js "James Vuu"
  else if has (js "SKYTEX") || has (js "GLOBAL DENIM") then js "Mary Farley"
  else if array_includes maryCodes countryCodeUpper then js "Mary Farley"
  else if array_includes tammieCodes countryCodeUpper then js "Tammie Cosey"
  else if array_includes jamesCodes countryCodeUpper then js "James Vuu"
  else if array_includes tylerCodes countryCodeUpper then js "Tyler Sigler"
  else js " ".

(** ** Display rows *)

Record DisplayRow : Type := {
  sequenceNr : value;
  requestDate_ : value;   (* requestDate *)
  dateReceived : jsstring;
  reminder : value;
  newAcctNameAddressChange : value;
  cancellation : value;
  buyerName : value;
  buyerCountry : value;
  sellerName : value;
  sellerCountry : value;
  partnerName : value;
  partnerCountry : value;
  messageType : value;
  amountReq : value;
  currency : value;
  term : value;
  contactAllowed : value;
  msgFunctionCode : value;
  amtApproved : value;
  msg3ExpirationDate : value;
  insurance : value;
  responseDate : value;
  ofacDate : value;
  rate : value;
  incomingComments : value;
  creditComments : value;
  aeComments : value;
  daysToRespond : value;
  creditManager : value;
  aeCso : value;
  industryProduct : value;
  clientCode : value;
  amountReqUSD : value
}.

Definition empty : value := VStr [].
Definition No : value := VStr (js "No").
Definition Yes : value := VStr (js "Yes").

(** The amount, currency and term of a message, by its kind. *)
Definition amountOf (msg : Msg) : option number :=
  match details msg with
  | prelCreditAssessDetails a _ _ | creditCoverDetails a _ _
  | newCreditCoverDetails a _ _ => a
  end.

Definition currencyOf (msg : Msg) : option jsstring :=
  match details msg with
  | prelCreditAssessDetails _ c _ | creditCoverDetails _ c _
  | newCreditCoverDetails _ c _ => c
  end.

Definition termOf (msg : Msg) : option number :=
  match details msg with
  | prelCreditAssessDetails _ _ t | creditCoverDetails _ _ t
  | newCreditCoverDetails _ _ t => t
  end.

(** [(msg.buyer && msg.buyer.DirectContact == 1) ? 'Yes' : 'No']; the row
    of an MSG07 keeps its initial ['No']. *)
Definition contactAllowedOf (msg : Msg) : value :=
  match type msg with
  | MSG07 => No
  | _ => match DirectContact (buyer msg) with
         | Some d => if num_eqb d (num_of_Z 1) then Yes else No
         | None => No
         end
  end.

(** [msg.ef.FactorCode.substring(0, 2)] *)
Definition exportFactorCodeCharacters (msg : Msg) : completion jsstring :=
  match FactorCode (ef msg) with
  | Some c => Return (substring c 0 2)
  | None => Throw TypeError
  end.

(** [code ? regionNames.of(code) : ''] *)
Definition countryName (code : jsstring) : completion value :=
  if jsstring_eqb code [] then Return empty
  else match region_of host code with
       | Some v => Return v
       | None => Throw RangeError
       end.

(** [msgType.slice(-1)] *)
Definition typeSuffix (t : msgType) : jsstring :=
  match t with MSG02 => js "2" | MSG05 => js "5" | MSG07 => js "7" end.

(** The row object of one transactional message, as it stands when it is
    pushed: the literal the script starts from, with the fields set
    afterwards.  The decoders always build the sub-objects [msgInfo], [ef],
    [seller], [buyer] and the detail sections, so the guards on their
    presence take their first branch. *)
Definition makeRow (repo : Repository) (msg : Msg) (code : jsstring)
    (partnerCountry amountReqUSD : value) (creditManager : jsstring) : DisplayRow :=
  let msgType := type msg in
  let key := keyOf msg in
  let matchedMsg01 := allMsg01s repo !! key in
  {| sequenceNr := js_or (num_to_value (SequenceNr (msgInfo msg))) empty;
     requestDate_ := js_or (to_value (requestDate msg)) empty;
     dateReceived :=
       (match DateTime (msgInfo msg) with
        | Some [] | None => []
        | Some d => take 10 d
        end);
     reminder := No;
     newAcctNameAddressChange := No;
     cancellation := No;
     buyerName := to_value (BuyerName (buyer msg));
     buyerCountry := js_or (to_value (Country (buyer msg))) empty;
     sellerName := to_value (SellerName (seller msg));
     sellerCountry := partnerCountry;
     partnerName := to_value (FactorName (ef msg));
     partnerCountry := partnerCountry;
     messageType := VStr (typeSuffix msgType);
     amountReq := num_to_value (amountOf msg);
     currency := to_value (currencyOf msg);
     term := num_to_value (termOf msg);
     contactAllowed := contactAllowedOf msg;
     msgFunctionCode := empty;
     amtApproved := empty;
     msg3ExpirationDate := empty;
     insurance := empty;
     responseDate := empty;
     ofacDate := empty;
     rate := empty;
     incomingComments := VStr (msgText msg);
     creditComments := empty;
     aeComments := empty;
     daysToRespond := empty;
     creditManager := VStr creditManager;
     aeCso := VStr (getAccountExecutive code (FactorName (ef msg)));
     industryProduct :=
       (match matchedMsg01 with
        | Some m => to_value (BusinessProduct (sellerDetails m))
        | None => empty
        end);
     clientCode := to_value (FactorCode (ef msg));
     amountReqUSD := amountReqUSD |}.

(** The body of the [forEach] of [generateCombinedDisplayData]: the steps
    that can throw or wait for the user, in the order of the script, and the
    row they lead to. *)
Definition buildRow (repo : Repository) (msg : Msg) : State -> outcome DisplayRow :=
  code <- lift (exportFactorCodeCharacters msg) ;;
  partnerCountry <- lift (countryName code) ;;
  amountReqUSD <- convertToUSD (num_to_value (amountOf msg)) (currencyOf msg) ;;
  creditManager <- lift (getCreditManager code amountReqUSD (FactorName (ef msg))) ;;
  ret (makeRow repo msg code partnerCountry amountReqUSD creditManager).

(** The [forEach] over the transactional messages: [combinedData] grows by
    one row per message; an exception leaves the function. *)
Fixpoint combine_rows (repo : Repository) (msgs : list Msg) (combinedData : list DisplayRow)
  : State -> outcome (list DisplayRow) :=
  match msgs with
  | [] => ret combinedData
  | msg :: rest =>
      row <- buildRow repo msg ;;
      combine_rows repo rest (combinedData ++ [row])
  end.

(** [new Date(a.dateReceived) - new Date(b.dateReceived) < 0].  Time values
    are whole numbers of milliseconds that a Number holds exactly, and the
    sign of their rounded difference is the sign of the exact one; with an
    Invalid Date the difference is NaN, which is not below zero. *)
Definition receivedBefore (a b : DisplayRow) : bool :=
  match Date_parse host (dateReceived a), Date_parse host (dateReceived b) with
  | Some ta, Some tb => ta - tb <? 0
  | _, _ => false
  end.

(** [generateCombinedDisplayData()] *)
Definition generateCombinedDisplayData (repo : Repository)
  : State -> outcome (list DisplayRow) :=
  combinedData <- combine_rows repo (allMsg02s repo ++ allMsg05s repo ++ allMsg07s repo) [] ;;
  ret (Array_prototype_sort host receivedBefore combinedData).

(** A run of the credit log: the collections and the rate cache are
    cleared, every decoded node is registered, and the rows are combined. *)
Definition processFiles (nodes : list (completion Instance))
    (userAnswers : list (option jsstring)) : outcome (list DisplayRow) :=
  generateCombinedDisplayData (registerAll nodes)
    {| exchangeRatesCache := ∅; answers := userAnswers |}.

End Combiner.

(* ===================================================================== *)
(** * Decoded numbers and copied tables *)
(* ===================================================================== *)

(** [getElementNumber(element, tagName)], from the text that
    [getElementText(element, tagName)] returns for the element. *)
Definition getElementNumber (text : option jsstring) : option number :=
  match text with
  | None | Some [] => None
  | Some t => Some (Number_of_string t)
  end.

(** [text.replace(/c/g, ' ')] for a single character [c]. *)
Definition blank_out (c : N) (text : jsstring) : jsstring :=
  List.map (fun u => if (u =? c)%N then 32%N else u) text.

(** [cells.join(sep)] *)
Fixpoint join (sep : jsstring) (cells : list jsstring) : jsstring :=
  match cells with
  | [] => []
  | [cell] => cell
  | cell :: rest => cell ++ sep ++ join sep rest
  end.

Definition tab : jsstring := [9%N].

(** The text [copyTableAsTSV(includeHeader)] writes to the clipboard, from
    the [innerText] of the cells of the rows of the table; [None] when there
    is no table and nothing is written. *)
Definition copyTableAsTSV (includeHeader : bool) (table : option (list (list jsstring)))
  : option jsstring :=
  match table with
  | None => None
  | Some rows =>
      let startRow := if includeHeader then 0%nat else 1%nat in
      Some (fold_left
              (fun tsv row =>
                 let rowData := List.map (fun text => blank_out 10 (blank_out 9 text)) row in
                 tsv ++ join tab rowData ++ [10%N])
              (drop startRow rows) [])
  end.

(** The text [copyTableToClipboard(table, ...)] writes to the clipboard;
    [None] when there is no table and an alert is shown instead. *)
Definition copyTableToClipboard (table : option (list (list jsstring))) : option jsstring :=
  match table with
  | None => None
  | Some rows =>
      Some (fold_left
              (fun tsv row =>
                 let rowData := List.map (blank_out 9) row in
                 tsv ++ join tab rowData ++ [10%N])
              rows [])
  end.

(* ===================================================================== *)
(** * A host for the examples *)
(* ===================================================================== *)

(** Upper casing of the Basic Latin letters; other code units stay.  On a
    string of Basic Latin code units this is [toUpperCase]. *)
Definition toUpperCase_latin (s : jsstring) : jsstring :=
  List.map (fun c => if ((97 <=? c) && (c <=? 122))%N then (c - 32)%N else c) s.

Definition digits_value (s : jsstring) : option Z :=
  if forallb isDigit s && negb (jsstring_eqb s [])
  then Some (Z.of_N (fst (fst (scan_digits s 0%N 0)))) else None.

(** Days from 1970-01-01 to a date of the proleptic Gregorian calendar. *)
Definition days_from_civil (y m d : Z) : Z :=
  let y' := if m <=? 2 then y - 1 else y in
  let era := y' / 400 in
  let yoe := y' - era * 400 in
  let mp := (m + 9) mod 12 in
  let doy := (153 * mp + 2) / 5 + d - 1 in
  let doe := yoe * 365 + yoe / 4 - yoe / 100 + doy in
  era * 146097 + doe - 719468.

Definition days_in_month (y m : Z) : Z :=
  if m =? 2 then
    if ((y mod 4 =? 0) && negb (y mod 100 =? 0)) || (y mod 400 =? 0) then 29 else 28
  else if (m =? 4) || (m =? 6) || (m =? 9) || (m =? 11) then 30 else 31.

(** [Date.parse] on the date-only form [YYYY-MM-DD] (midnight UTC), the
    form of the first ten characters of a message's DateTime; every other
    text, the empty one among them, is an Invalid Date here. *)
Definition Date_parse_iso (s : jsstring) : option Z :=
  if negb (Z.of_nat (length s) =? 10) then None
  else
    match digits_value (take 4 s), digits_value (take 2 (drop 5 s)),
          digits_value (take 2 (drop 8 s)) with
    | Some y, Some m, Some d =>
        if jsstring_eqb (take 1 (drop 4 s)) (js "-")
           && jsstring_eqb (take 1 (drop 7 s)) (js "-")
           && (1 <=? m) && (m <=? 12) && (1 <=? d) && (d <=? days_in_month y m)
        then Some (days_from_civil y m d * 86400000) else None
    | _, _, _ => None
    end.

(** Region names for the examples: a few names of the locale data; any
    other well-formed region code (two letters or three digits) is returned
    as it is, and any other text is a RangeError. *)
Definition region_of_sample (code : jsstring) : option value :=
  let isAlpha c := ((65 <=? c) && (c <=? 90) || (97 <=? c) && (c <=? 122))%N in
  let upper := toUpperCase_latin code in
  if ((Z.of_nat (length code) =? 2) && forallb isAlpha code)
     || ((Z.of_nat (length code) =? 3) && forallb isDigit code)
  then
    if jsstring_eqb upper (js "US") then Some (VStr (js "United States"))
    else if jsstring_eqb upper (js "VN") then Some (VStr (js "Vietnam"))
    else if jsstring_eqb upper (js "IN") then Some (VStr (js "India"))
    else if jsstring_eqb upper (js "DE") then Some (VStr (js "Germany"))
    else Some (VStr upper)
  else None.

(** An engine that sorts by straight insertion whatever the comparator. *)
Definition insertion_order (results : list (list bool)) : list nat :=
  Array_sort (fun i j => default false (results !! i ≫= (fun row => row !! j)))
    (seq 0 (length results)).

Definition sample_host : Host :=
  {| toUpperCase := toUpperCase_latin;
     Date_parse := Date_parse_iso;
     region_of := region_of_sample;
     sort_order := insertion_order |}.

(** The same host with an engine that leaves an array it cannot sort in the
    reverse of its order. *)
Definition reversing_host : Host :=
  {| toUpperCase := toUpperCase_latin;
     Date_parse := Date_parse_iso;
     region_of := region_of_sample;
     sort_order := fun results => rev (seq 0 (length results)) |}.

(* ===================================================================== *)
(** * Statements and sample data *)
(* ===================================================================== *)

(** The predicates the properties are stated with, the wording of the
    specification where a property compares the script with it, and the
    documents the properties are tried on. *)

(** The filter of the row parser, on one line. *)
Definition isDataRow (seps : Separators) (line : jsstring) : bool :=
  (Z.of_nat (length (trim (bracket_slice line (groupBracket seps)))) =? 1)
  && negb (jsstring_eqb (trim (bracket_slice line (codeBracket seps))) []).

(** The row written for a line that passes the filter. *)
Definition rowOf (seps : Separators) (columns : list jsstring) (line : jsstring) : Row :=
  {| rowGroup := trim (bracket_slice line (groupBracket seps));
     rowCode := trim (bracket_slice line (codeBracket seps));
     rowName := trim (bracket_slice line (nameBracket seps));
     rowCells := List.map (data_cell line (dataColumnIndices seps)) columns |}.

(** A column map and two lines: one of group "CC", one of group "C" with
    the code "1234". *)
Definition sample_separators : Separators :=
  {| groupBracket := {| start := 0; end_ := 3 |};
     codeBracket := {| start := 3; end_ := 7 |};
     nameBracket := {| start := 7; end_ := 17 |};
     dataColumnIndices := [(js "CURR MO", 20)] |}.

(** The classifier as the specification words it: the literal tokens are
    looked for in the third line as it stands. *)
Definition classify_literal (content : jsstring) : option fileType :=
  match split_lines content !! 2%nat with
  | Some line =>
      if includes line (js "VOLUME") then Some Volume
      else if includes line (js "COMMISSION") then Some Commission
      else None
  | None => None
  end.

Definition line_feed : jsstring := [10%N].

(** A text whose third line holds the token in lower case. *)
Definition lower_case_report : jsstring :=
  js "PAGE 1" ++ line_feed ++ js "RUN 01/02" ++ line_feed ++ js "Client volume report".

Definition headerPattern (ft : fileType) : jsstring :=
  match ft with Volume => squashedHeaderVolume | Commission => squashedHeaderCommission end.

(** The name bracket of a data line whose code starts at [k]: it runs from
    after the code to the first run of four spaces, or to the end. *)
Definition nameEnd (dataLine : jsstring) (k : nat) : Z :=
  match find_at (isPrefixOf (js "    ")) (drop (k + 4) dataLine) 0 with
  | Some j => Z.of_nat (k + 4 + j)
  | None => Z.of_nat (length dataLine)
  end.

(** A character of the class the pattern of the locator spells, [[A-Z0-9]]:
    an upper-case letter or a digit. *)
Definition upper_case_or_digit (c : N) : Prop :=
  (65 <= c <= 90)%N \/ (48 <= c <= 57)%N.

(** Four characters of that class stand at offset [k] of [line]. *)
Definition code_at (line : jsstring) (k : nat) : Prop :=
  forall i : nat, (i < 4)%nat ->
    exists c, line !! (k + i)%nat = Some c /\ upper_case_or_digit c.

(** Four spaces stand at offset [j] of [s]. *)
Definition four_spaces_at (s : jsstring) (j : nat) : Prop :=
  forall i : nat, (i < 4)%nat -> s !! (j + i)%nat = Some 32%N.

(** An alphanumeric character as the specification words it: a letter of
    either case or a digit; and four of them at offset [k]. *)
Definition alphanumeric (c : N) : Prop :=
  (65 <= c <= 90)%N \/ (97 <= c <= 122)%N \/ (48 <= c <= 57)%N.

Definition alphanumeric_code_at (line : jsstring) (k : nat) : Prop :=
  forall i : nat, (i < 4)%nat ->
    exists c, line !! (k + i)%nat = Some c /\ alphanumeric c.

(** A report in the layout the locator expects: the header on row 4, the
    first data line four lines below it. *)
Definition sample_report : jsstring :=
  js "PAGE 1" ++ line_feed
  ++ js "RUN 01/02" ++ line_feed
  ++ js "COMMISSION REPORT" ++ line_feed
  ++ js "     CLNT      CURR MO   LY SAME MO  CURR YTD  YTD LAST YR  TOTAL LAST YR  AVG" ++ line_feed
  ++ js "" ++ line_feed
  ++ js "" ++ line_feed
  ++ js "" ++ line_feed
  ++ js " C 1234 ACME CORP       10   20" ++ line_feed
  ++ js " CC 9999 x".

(** The same report with its client code and name in lower case. *)
Definition lower_case_codes_report : jsstring :=
  js "PAGE 1" ++ line_feed
  ++ js "RUN 01/02" ++ line_feed
  ++ js "COMMISSION REPORT" ++ line_feed
  ++ js "     CLNT      CURR MO   LY SAME MO  CURR YTD  YTD LAST YR  TOTAL LAST YR  AVG" ++ line_feed
  ++ js "" ++ line_feed
  ++ js "" ++ line_feed
  ++ js "" ++ line_feed
  ++ js " c ab12 acme corp       10   20".

(** A volume report of three clients: the figures of the first are plain,
    those of the second are all zero, and the third has the text "Infinity"
    in a column. *)
Definition sample_volume_report : jsstring :=
  js "PAGE 1" ++ line_feed
  ++ js "RUN 01/02" ++ line_feed
  ++ js "VOLUME REPORT" ++ line_feed
  ++ js "     CLNT               CURR MO        LY SAME MO     CURR YTD       YTD LAST YR    TOTAL LAST YR" ++ line_feed
  ++ js "" ++ line_feed
  ++ js "" ++ line_feed
  ++ js "" ++ line_feed
  ++ js " C 0123 ACME CORP       110            100            1,234          1,000          5000" ++ line_feed
  ++ js " U 505Q BETA LLC        0              0" ++ line_feed
  ++ js " U ZZZZ GAMMA           50             Infinity       7              0              9".

(** A Number that is a zero or finite, and a Number that is finite and not
    a zero. *)
Definition isFiniteNonzero (x : number) : bool :=
  match x with S754_finite _ _ _ => true | _ => false end.

Definition num_of_text (s : String.string) : number := Number_of_string (js s).

Definition eur_cached : State :=
  {| exchangeRatesCache := {[ js "EUR" := num_of_text "0.92" ]}; answers := [] |}.

(** A cover request in euro, and a user who first types a text that is no
    rate and then cancels. *)
Definition sample_msg05 : Msg :=
  {| msgInfo := {| SenderCode := Some (js "F1"); ReceiverCode := Some (js "US0001");
                   CreatedBy := Some (js "edi"); SequenceNr := Some (num_of_text "42");
                   DateTime := Some (js "2024-01-02T10:15:00"); Status := None |};
     ef := {| FactorCode := Some (js "DE00123"); FactorName := Some (js "Export Factor AG") |};
     seller := {| SellerNr := Some (js "S9"); SellerName := Some (js "Seller GmbH") |};
     buyer := {| BuyerName := Some (js "Buyer Inc"); Country := Some (js "US");
                 DirectContact := Some (num_of_text "1") |};
     requestDate := Some (js "2024-01-01");
     details := creditCoverDetails (Some (num_of_text "1500")) (Some (js "EUR"))
                                   (Some (num_of_text "60"));
     msgText := [] |}.

(** A cover request of 600000 euro through a factor in Singapore, with or
    without a FactorName element. *)
Definition singapore_msg (factorName : option jsstring) : Msg :=
  {| msgInfo := {| SenderCode := Some (js "F1"); ReceiverCode := Some (js "US0001");
                   CreatedBy := Some (js "edi"); SequenceNr := Some (num_of_text "43");
                   DateTime := Some (js "2024-01-02T10:15:00"); Status := None |};
     ef := {| FactorCode := Some (js "SG001"); FactorName := factorName |};
     seller := {| SellerNr := Some (js "S9"); SellerName := Some (js "Seller GmbH") |};
     buyer := {| BuyerName := Some (js "Buyer Inc"); Country := Some (js "US");
                 DirectContact := Some (num_of_text "1") |};
     requestDate := Some (js "2024-01-01");
     details := creditCoverDetails (Some (num_of_text "600000")) (Some (js "EUR"))
                                   (Some (num_of_text "60"));
     msgText := [] |}.

Definition declining_user : State :=
  {| exchangeRatesCache := ∅; answers := [Some (js "abc"); None; Some (js "0.92")] |}.

Definition after_declining : State :=
  {| exchangeRatesCache := ∅; answers := [Some (js "0.92")] |}.

(** A rate the prompt accepts: not NaN and not [<= 0]. *)
Definition positive_rate (r : number) : Prop :=
  isNaN r = false /\ num_leb r num_zero = false.

Definition cache_positive (cache : gmap jsstring number) : Prop :=
  forall k r, cache !! k = Some r -> positive_rate r.

(** The time value of a row's received date; [0] stands in where the date
    does not parse, and is only looked at where it does. *)
Definition receivedTime (host : Host) (r : DisplayRow) : Z :=
  default 0 (Date_parse host (dateReceived r)).

Definition parsable (host : Host) (r : DisplayRow) : Prop :=
  is_Some (Date_parse host (dateReceived r)).

(** The order the specification words: every row whose date does not parse
    stands before every row whose date parses. *)
Definition unparsable_first (host : Host) (out : list DisplayRow) : Prop :=
  forall (i j : nat) (a b : DisplayRow),
    out !! i = Some a -> out !! j = Some b ->
    Date_parse host (dateReceived a) = None -> parsable host b -> (i < j)%nat.

Definition usd_msg (sequence dateTime : option jsstring) : Msg :=
  {| msgInfo := {| SenderCode := Some (js "F1"); ReceiverCode := Some (js "US0001");
                   CreatedBy := Some (js "edi");
                   SequenceNr := option_map Number_of_string sequence;
                   DateTime := dateTime; Status := None |};
     ef := {| FactorCode := Some (js "DE00123"); FactorName := Some (js "Export Factor AG") |};
     seller := {| SellerNr := Some (js "S9"); SellerName := Some (js "Seller GmbH") |};
     buyer := {| BuyerName := Some (js "Buyer Inc"); Country := Some (js "US");
                 DirectContact := Some (num_of_text "1") |};
     requestDate := Some (js "2024-01-01");
     details := creditCoverDetails (Some (num_of_text "1500")) (Some (js "USD"))
                                   (Some (num_of_text "60"));
     msgText := [] |}.

(** Three requests, received on 3, 1 and 1 January, and one without a
    DateTime element. *)
Definition row_of_date (sequence dateTime : option jsstring) : DisplayRow :=
  makeRow sample_host emptyRepository (usd_msg sequence dateTime) (js "DE")
    (VStr (js "Germany")) (VNum (num_of_text "1500")) (js "lux").

Definition row_jan3 : DisplayRow := row_of_date (Some (js "1")) (Some (js "2024-01-03T09:00:00")).
Definition row_jan1 : DisplayRow := row_of_date (Some (js "2")) (Some (js "2024-01-01T09:00:00")).
Definition row_jan1_later : DisplayRow := row_of_date (Some (js "3")) (Some (js "2024-01-01T17:00:00")).
Definition row_undated : DisplayRow := row_of_date (Some (js "4")) None.

(** The seller agreements among the nodes of a run, in the order they are
    decoded, and the transactional messages of one kind. *)
Definition agreements (nodes : list (completion Instance)) : list MSG01 :=
  flat_map (fun node => match node with
                        | Return (Seller_agreement m) => [m]
                        | _ => []
                        end) nodes.

Definition transactions (t : msgType) (nodes : list (completion Instance)) : list Msg :=
  flat_map (fun node => match node with
                        | Return (Transactional msg) =>
                            match t, type msg with
                            | MSG02, MSG02 | MSG05, MSG05 | MSG07, MSG07 => [msg]
                            | _, _ => []
                            end
                        | _ => []
                        end) nodes.

Definition agreements_of_key (k : jsstring) (nodes : list (completion Instance)) : list MSG01 :=
  List.filter (fun m => jsstring_eqb (key01 m) k) (agreements nodes).

(** A seller agreement of a given sender code, seller number and product. *)
Definition agreement_of (senderCode sellerNr product : String.string) : MSG01 :=
  {| msgInfo01 := {| SenderCode := Some (js senderCode); ReceiverCode := Some (js "US0001");
                     CreatedBy := Some (js "edi"); SequenceNr := Some (num_of_text "7");
                     DateTime := Some (js "2023-12-30T08:00:00"); Status := None |};
     ef01 := {| FactorCode := Some (js "DE00123"); FactorName := Some (js "Export Factor AG") |};
     seller01 := {| SellerNr := Some (js sellerNr); SellerName := Some (js "Seller GmbH") |};
     sellerDetails := {| BusinessProduct := Some (js product);
                         NetPmtTerms01 := Some (num_of_text "60") |};
     msgText01 := [] |}.

(** The underscore that joins the two codes of a key. *)
Definition underscore : N := 95%N.

Definition sample_msg01 (product : String.string) : MSG01 :=
  {| msgInfo01 := {| SenderCode := Some (js "F1"); ReceiverCode := Some (js "US0001");
                     CreatedBy := Some (js "edi"); SequenceNr := Some (num_of_text "7");
                     DateTime := Some (js "2023-12-30T08:00:00"); Status := None |};
     ef01 := {| FactorCode := Some (js "DE00123"); FactorName := Some (js "Export Factor AG") |};
     seller01 := {| SellerNr := Some (js "S9"); SellerName := Some (js "Seller GmbH") |};
     sellerDetails := {| BusinessProduct := Some (js product);
                         NetPmtTerms01 := Some (num_of_text "60") |};
     msgText01 := [] |}.

(** ** Statements of the further properties *)

(** The pieces of a text between the occurrences of one character. *)
Fixpoint split_unit (sep : N) (s : jsstring) : list jsstring :=
  match s with
  | [] => [[]]
  | c :: s' =>
      if (c =? sep)%N then [] :: split_unit sep s'
      else match split_unit sep s' with
           | piece :: pieces => (c :: piece) :: pieces
           | [] => [[c]]
           end
  end.

(** A text with no white space at either end. *)
Definition no_edge_space (s : jsstring) : Prop :=
  match s with c :: _ => isWhiteSpace c = false | [] => True end
  /\ match rev s with c :: _ => isWhiteSpace c = false | [] => True end.

(** An answer the prompt asks again for. *)
Definition invalid_answer (a : option jsstring) : bool :=
  match a with
  | Some input =>
      isNaN (parseFloat_string input) || num_leb (parseFloat_string input) num_zero
  | None => false
  end.

(** The title [name] stands at offset [idx] of [line]. *)
Definition title_at (line name : jsstring) (idx : Z) : Prop :=
  0 <= idx /\ isPrefixOf name (drop (Z.to_nat idx) line) = true.

(** The number of decoded transactional nodes. *)
Definition transactional_count (nodes : list (completion Instance)) : nat :=
  length (List.filter (fun node => match node with
                                   | Return (Transactional _) => true
                                   | _ => false
                                   end) nodes).

(** The column map of the sample volume report. *)
Definition sample_volume_separators : Separators :=
  {| groupBracket := {| start := 0; end_ := 3 |};
     codeBracket := {| start := 3; end_ := 7 |};
     nameBracket := {| start := 7; end_ := 24 |};
     dataColumnIndices :=
       [(js "CURR MO", 24); (js "LY SAME MO", 39); (js "CURR YTD", 54);
        (js "YTD LAST YR", 69); (js "TOTAL LAST YR", 84)] |}.

(** [s] ends with [suffix]. *)
Definition ends_with (suffix s : jsstring) : Prop := exists p, s = p ++ suffix.

(** A user who types two texts that are no positive rate, and then 0.92. *)
Definition insisting_user : State :=
  {| exchangeRatesCache := ∅;
     answers := [Some (js "abc"); Some (js "-1"); Some (js "0.92"); Some (js "7")] |}.

(** [row] is the row the combiner builds for [msg] against the repository
    [repo], for some outcome of the conversion. *)
Definition row_of_message (host : Host) (repo : Repository) (msg : Msg)
    (row : DisplayRow) : Prop :=
  exists code pc usd cm,
    exportFactorCodeCharacters msg = Return code
    /\ countryName host code = Return pc
    /\ getCreditManager code usd (FactorName (ef msg)) = Return cm
    /\ row = makeRow host repo msg code pc usd cm.

(** A cover request decoded before the seller agreement of its seller. *)
Definition request_then_agreement : list (completion Instance) :=
  [Return (Transactional (usd_msg (Some (js "1")) (Some (js "2024-01-02T09:00:00"))));
   Throw (js "Error: Failed to parse XML string.");
   Return (Seller_agreement (sample_msg01 "Textiles"))].

(** The cells of a table of two rows, the second with a tab and a line feed
    inside a cell. *)
Definition sample_table : list (list jsstring) :=
  [ [js "Seq"; js "Buyer"];
    [js "42"; js "Buyer" ++ [9%N] ++ js "Inc" ++ [10%N] ++ js "NY"] ].

(** A row of the link table that was built from a line of [lines] of the
    given group. *)
Definition built_from (host : Host) (seps : Separators) (group : jsstring)
    (lines : list jsstring) (r : LinkRow) : Prop :=
  exists line,
    In line lines
    /\ trim (bracket_slice line (groupBracket seps)) = group
    /\ toUpperCase host (trim (bracket_slice line (codeBracket seps))) <> []
    /\ rowValues r = link_cells line (dataColumnIndices seps) [] columnConfig
    /\ existsb (fun v => negb (isZeroValue v)) (rowValues r) = true.

(** A Number that [toFixed(2)] writes in fixed notation: a zero, or a finite
    Number below [1e21] in magnitude. *)
Definition below_1e21 (x : number) : bool :=
  match x with
  | S754_zero _ => true
  | S754_finite _ m e =>
      let '(num, den) := exact_fraction m e in negb (den * 10 ^ 21 <=? num)
  | _ => false
  end.

(* ===================================================================== *)
(** * Properties: strings *)
(* ===================================================================== *)

Lemma jsstring_eqb_eq (a b : jsstring) : jsstring_eqb a b = true <-> a = b.
Proof. unfold jsstring_eqb. apply bool_decide_eq_true. Qed.

Lemma jsstring_eqb_neq (a b : jsstring) : jsstring_eqb a b = false <-> a <> b.
Proof. unfold jsstring_eqb. apply bool_decide_eq_false. Qed.

Lemma isPrefixOf_app (p s : jsstring) :
  isPrefixOf p s = true <-> exists t, s = p ++ t.
Proof.
  revert s. induction p as [|a p IH]; intros s; simpl.
  - split; eauto.
  - destruct s as [|b s].
    + split; [discriminate | intros [t Ht]; discriminate].
    + rewrite andb_true_iff, N.eqb_eq, IH. split.
      * intros [-> [t ->]]. eauto.
      * intros [t Ht]. injection Ht as -> ->. eauto.
Qed.

(** What the scan finds: the least position at which [P] holds. *)
Lemma find_at_Some (P : jsstring -> bool) (s : jsstring) (i r : nat) :
  find_at P s i = Some r ->
  exists k : nat, r = (i + k)%nat /\ (k <= length s)%nat /\ P (drop k s) = true
    /\ forall j : nat, (j < k)%nat -> P (drop j s) = false.
Proof.
  revert i. induction s as [|c s IH]; intros i; simpl.
  - destruct (P []) eqn:HP; [|discriminate].
    intros [= <-]. exists 0%nat. repeat split; auto with lia.
  - destruct (P (c :: s)) eqn:HP.
    + intros [= <-]. exists 0%nat. simpl. repeat split; auto with lia.
    + intros H. destruct (IH _ H) as (k & -> & Hk & HPk & Hmin).
      exists (S k). simpl. repeat split; auto with lia.
      intros [|j] Hj; simpl; auto with lia.
Qed.

Lemma find_at_None (P : jsstring -> bool) (s : jsstring) (i : nat) :
  find_at P s i = None -> forall k : nat, P (drop k s) = false.
Proof.
  revert i. induction s as [|c s IH]; intros i; simpl.
  - destruct (P []) eqn:HP; [discriminate|]. intros _ k. now rewrite drop_nil.
  - destruct (P (c :: s)) eqn:HP; [discriminate|].
    intros H [|k]; simpl; eauto.
Qed.

(** [indexOf] is [-1] exactly when the needle occurs nowhere. *)
Lemma indexOf_absent (s needle : jsstring) :
  indexOf s needle = -1 <-> forall k : nat, isPrefixOf needle (drop k s) = false.
Proof.
  unfold indexOf. destruct (find_at _ s 0) as [r|] eqn:H.
  - split; [lia|]. intros Hn.
    destruct (find_at_Some _ _ _ _ H) as (k & _ & _ & Hk & _).
    rewrite Hn in Hk. discriminate.
  - split; [|reflexivity]. intros _. eapply find_at_None; eauto.
Qed.

Lemma indexOf_found (s needle : jsstring) (r : Z) :
  indexOf s needle = r -> r <> -1 ->
  exists k : nat, r = Z.of_nat k /\ (k <= length s)%nat
    /\ isPrefixOf needle (drop k s) = true
    /\ forall j : nat, (j < k)%nat -> isPrefixOf needle (drop j s) = false.
Proof.
  unfold indexOf. destruct (find_at _ s 0) as [i|] eqn:H; [|intros <-; lia].
  intros <- _. destruct (find_at_Some _ _ _ _ H) as (k & -> & Hk).
  exists k. simpl. auto.
Qed.

(** [includes] tells whether the needle is a substring. *)
Lemma includes_spec (s needle : jsstring) :
  includes s needle = true <-> exists a b, s = a ++ needle ++ b.
Proof.
  unfold includes. rewrite negb_true_iff, Z.eqb_neq. split.
  - intros Hne. destruct (indexOf_found s needle _ eq_refl Hne) as (k & _ & _ & Hk & _).
    apply isPrefixOf_app in Hk as [t Ht].
    exists (take k s), t. rewrite <- Ht. symmetry. apply take_drop.
  - intros (a & b & ->) Habs. rewrite indexOf_absent in Habs.
    specialize (Habs (length a)). rewrite drop_app_length in Habs.
    assert (isPrefixOf needle (needle ++ b) = true) by (apply isPrefixOf_app; eauto).
    congruence.
Qed.

(** [substring] between ordered, non-negative bounds. *)
Lemma substring_take_drop (s : jsstring) (a b : Z) :
  0 <= a <= b ->
  substring s a b = take (Z.to_nat (b - a)) (drop (Z.to_nat a) s).
Proof.
  intros Hab. unfold substring.
  set (len := Z.of_nat (length s)).
  assert (Hlen : 0 <= len) by (unfold len; lia).
  replace (Z.max a 0) with a by lia. replace (Z.max b 0) with b by lia.
  destruct (Z.le_gt_cases a len) as [Ha|Ha].
  - replace (Z.min (Z.min a len) (Z.min b len)) with a by lia.
    replace (Z.max (Z.min a len) (Z.min b len)) with (Z.min b len) by lia.
    destruct (Z.le_gt_cases b len) as [Hb|Hb].
    + now replace (Z.min b len) with b by lia.
    + replace (Z.min b len) with len by lia.
      rewrite !take_ge; auto; rewrite length_drop; unfold len in *; lia.
  - replace (Z.min (Z.min a len) (Z.min b len)) with len by lia.
    replace (Z.max (Z.min a len) (Z.min b len)) with len by lia.
    rewrite (drop_ge s (Z.to_nat a)) by (unfold len in *; lia).
    rewrite (drop_ge s (Z.to_nat len)) by (unfold len in *; lia).
    now rewrite !take_nil.
Qed.

Lemma substringFrom_drop (s : jsstring) (a : Z) :
  0 <= a -> substringFrom s a = drop (Z.to_nat a) s.
Proof.
  intros Ha. unfold substringFrom, substring.
  set (len := Z.of_nat (length s)).
  replace (Z.max a 0) with a by lia. replace (Z.max len 0) with len by lia.
  replace (Z.min len len) with len by lia.
  destruct (Z.le_gt_cases a len) as [H|H].
  - replace (Z.min (Z.min a len) len) with a by lia.
    replace (Z.max (Z.min a len) len) with len by lia.
    apply take_ge. rewrite length_drop. unfold len. lia.
  - replace (Z.min (Z.min a len) len) with len by lia.
    replace (Z.max (Z.min a len) len) with len by lia.
    rewrite (drop_ge s (Z.to_nat a)) by (unfold len in *; lia).
    rewrite (drop_ge s (Z.to_nat len)) by (unfold len in *; lia).
    apply take_nil.
Qed.

(* ===================================================================== *)
(** * Properties: the row parser *)
(* ===================================================================== *)

Lemma table_line_cases (seps : Separators) (columns : list jsstring)
    (rows : list Row) (line : jsstring) :
  table_line seps columns rows line
  = if isDataRow seps line then rows ++ [rowOf seps columns line] else rows.
Proof.
  unfold table_line, isDataRow, rowOf.
  destruct (Z.of_nat _ =? 1); simpl; [|reflexivity].
  destruct (jsstring_eqb _ []); reflexivity.
Qed.

Lemma table_lines_filter (seps : Separators) (columns : list jsstring)
    (lines : list jsstring) (rows : list Row) :
  fold_left (table_line seps columns) lines rows
  = rows ++ List.map (rowOf seps columns) (List.filter (isDataRow seps) lines).
Proof.
  revert rows. induction lines as [|line lines IH]; intros rows; simpl.
  - now rewrite app_nil_r.
  - rewrite IH, table_line_cases.
    destruct (isDataRow seps line); simpl; [|reflexivity].
    now rewrite <- app_assoc.
Qed.

Lemma isDataRow_iff (seps : Separators) (line : jsstring) :
  isDataRow seps line = true
  <-> length (trim (bracket_slice line (groupBracket seps))) = 1%nat
      /\ trim (bracket_slice line (codeBracket seps)) <> [].
Proof.
  unfold isDataRow.
  rewrite andb_true_iff, negb_true_iff, Z.eqb_eq, jsstring_eqb_neq. intuition lia.
Qed.

(** C2. For every text and every column map, the rows of the rendered table
    are the rows of exactly those lines whose group slice trims to one
    character and whose code slice trims to a non-empty string, in the
    order of the lines; a line whose group slice trims to "CC" adds no row
    whatever else it holds, and a line whose group slice trims to "C" and
    whose code slice trims to "1234" adds its row. *)
Theorem row_filter_exact (title content : jsstring) (seps : Separators) :
  let columns := sortedDataColumns (dataColumnIndices seps) in
  generateTableHTML title content (Some seps)
  = Table title columns
      (List.map (rowOf seps columns)
         (List.filter (isDataRow seps) (split_lines content)))
  /\ (forall (rows : list Row) (line : jsstring),
        (exists r, table_line seps columns rows line = rows ++ [r])
        <-> length (trim (bracket_slice line (groupBracket seps))) = 1%nat
            /\ trim (bracket_slice line (codeBracket seps)) <> [])
  /\ (forall (rows : list Row) (line : jsstring),
        trim (bracket_slice line (groupBracket seps)) = js "CC" ->
        table_line seps columns rows line = rows)
  /\ (forall (rows : list Row) (line : jsstring),
        trim (bracket_slice line (groupBracket seps)) = js "C" ->
        trim (bracket_slice line (codeBracket seps)) = js "1234" ->
        exists r, table_line seps columns rows line = rows ++ [r]
                  /\ rowGroup r = js "C" /\ rowCode r = js "1234").
Proof.
  intros columns. split; [|split; [|split]].
  - unfold generateTableHTML. fold columns. now rewrite table_lines_filter.
  - intros rows line. rewrite table_line_cases, <- isDataRow_iff.
    destruct (isDataRow seps line); split; try discriminate; eauto.
    intros [r Hr]. apply (f_equal (@length Row)) in Hr.
    rewrite length_app in Hr. simpl in Hr. lia.
  - intros rows line Hg. rewrite table_line_cases.
    unfold isDataRow. now rewrite Hg.
  - intros rows line Hg Hc. rewrite table_line_cases.
    unfold isDataRow. rewrite Hg, Hc. simpl.
    eexists. split; [reflexivity|]. unfold rowOf; simpl. now rewrite Hg, Hc.
Qed.

Lemma row_filter_exact_witness :
  table_line sample_separators (sortedDataColumns (dataColumnIndices sample_separators))
    [] (js " CC1234 ACME CORP        10") = []
  /\ exists r,
       table_line sample_separators (sortedDataColumns (dataColumnIndices sample_separators))
         [] (js " C 1234 ACME CORP        10") = [] ++ [r]
       /\ rowGroup r = js "C" /\ rowCode r = js "1234".
Proof.
  destruct (row_filter_exact [] [] sample_separators) as (_ & _ & Hcc & Hc).
  split.
  - apply Hcc. vm_compute. reflexivity.
  - apply Hc; vm_compute; reflexivity.
Defined.

(* ===================================================================== *)
(** * Properties: the classifier *)
(* ===================================================================== *)

Lemma validateDataUpload_third_line (host : Host) (content : jsstring) :
  validateDataUpload host content
  = match split_lines content !! 2%nat with
    | Some line =>
        if includes (toUpperCase host line) (js "VOLUME") then Some Volume
        else if includes (toUpperCase host line) (js "COMMISSION") then Some Commission
        else None
    | None => None
    end.
Proof.
  unfold validateDataUpload.
  destruct (split_lines content !! 2%nat) as [line|] eqn:Hl.
  - apply lookup_lt_Some in Hl.
    destruct (3 <=? Z.of_nat (length (split_lines content))) eqn:H; [reflexivity|].
    apply Z.leb_gt in H. lia.
  - now destruct (3 <=? _).
Qed.

(** C4, as the script has it.  For every text, the classifier upper-cases
    the third line (0-indexed line 2) and looks for the tokens in the result:
    Volume when it holds "VOLUME", else Commission when it holds
    "COMMISSION", else Unknown; a text of fewer than three lines is Unknown;
    and an Unknown text is turned down by the upload handler with an alert,
    in either slot, without any parsing. *)
Theorem classifier_third_line_upper (host : Host) (content : jsstring) :
  let lines := split_lines content in
  (validateDataUpload host content = Some Volume
   <-> exists line, lines !! 2%nat = Some line
         /\ includes (toUpperCase host line) (js "VOLUME") = true)
  /\ (validateDataUpload host content = Some Commission
      <-> exists line, lines !! 2%nat = Some line
            /\ includes (toUpperCase host line) (js "VOLUME") = false
            /\ includes (toUpperCase host line) (js "COMMISSION") = true)
  /\ (validateDataUpload host content = None
      <-> (length lines < 3)%nat
          \/ exists line, lines !! 2%nat = Some line
               /\ includes (toUpperCase host line) (js "VOLUME") = false
               /\ includes (toUpperCase host line) (js "COMMISSION") = false)
  /\ (validateDataUpload host content = None ->
      forall volumeName commissionName other : jsstring,
        processReports host volumeName content commissionName other
        = Alert (invalidReportAlert volumeName (js "Volume File") (js "Volume"))
        /\ exists message,
             processReports host volumeName other commissionName content = Alert message).
Proof.
  intros lines.
  assert (Hrej : validateDataUpload host content = None ->
      forall volumeName commissionName other : jsstring,
        processReports host volumeName content commissionName other
        = Alert (invalidReportAlert volumeName (js "Volume File") (js "Volume"))
        /\ exists message,
             processReports host volumeName other commissionName content = Alert message).
  { intros Hn volumeName commissionName other. unfold processReports. rewrite Hn.
    split; [reflexivity|].
    destruct (validateDataUpload host other) as [[|]|]; eauto. }
  split; [|split; [|split]]; [| | |exact Hrej];
    rewrite validateDataUpload_third_line; fold lines;
    (destruct (lines !! 2%nat) as [line|] eqn:Hl;
     [ pose proof (lookup_lt_Some _ _ _ Hl) as Hlen;
       destruct (includes (toUpperCase host line) (js "VOLUME")) eqn:Hv;
       [|destruct (includes (toUpperCase host line) (js "COMMISSION")) eqn:Hc]
     | apply lookup_ge_None in Hl ]).
  - split; eauto.
  - split; [discriminate|]. intros (l & [= <-] & H). congruence.
  - split; [discriminate|]. intros (l & [= <-] & H). congruence.
  - split; [discriminate|]. intros (l & H & _). discriminate.
  - split; [discriminate|]. intros (l & [= <-] & H & _). congruence.
  - split; eauto.
  - split; [discriminate|]. intros (l & [= <-] & _ & H). congruence.
  - split; [discriminate|]. intros (l & H & _). discriminate.
  - split; [discriminate|]. intros [H|(l & [= <-] & H & _)]; [lia|congruence].
  - split; [discriminate|]. intros [H|(l & [= <-] & _ & H)]; [lia|congruence].
  - split; eauto.
  - split; [left; lia|reflexivity].
Qed.

Lemma classifier_third_line_upper_witness :
  processReports sample_host (js "v.txt") (js "x") (js "c.txt") (js "y")
  = Alert (invalidReportAlert (js "v.txt") (js "Volume File") (js "Volume")).
Proof.
  destruct (classifier_third_line_upper sample_host (js "x")) as (_ & _ & _ & H).
  apply H. vm_compute. reflexivity.
Defined.

(** C4 as stated fails: the third line of this text holds neither literal
    token, so the stated rule gives Unknown, and the script says Volume. *)
Lemma classifier_literal_counterexample :
  classify_literal lower_case_report = None
  /\ validateDataUpload sample_host lower_case_report = Some Volume.
Proof. split; vm_compute; reflexivity. Qed.

(* ===================================================================== *)
(** * Properties: the column locator *)
(* ===================================================================== *)

Lemma findHeaderRow_loop_found (lines : list jsstring) (target : jsstring) (i r : Z) :
  0 <= i -> findHeaderRow_loop lines target i = r -> r <> -1 ->
  exists k : nat, r = i + Z.of_nat k + 1
    /\ exists line, lines !! k = Some line /\ squash line = target
         /\ forall (j : nat) line', (j < k)%nat -> lines !! j = Some line' ->
              squash line' <> target.
Proof.
  revert i. induction lines as [|l lines IH]; intros i Hi; simpl.
  - intros <- H. lia.
  - destruct (jsstring_eqb (squash l) target) eqn:Heq.
    + intros <- _. exists 0%nat. split; [lia|]. exists l. simpl.
      apply jsstring_eqb_eq in Heq. repeat split; auto. intros j l' Hj. lia.
    + intros Hr Hne. destruct (IH (i + 1) ltac:(lia) Hr Hne) as (k & -> & line & Hk & Hs & Hmin).
      exists (S k). split; [lia|]. exists line. simpl. repeat split; auto.
      intros [|j] l' Hj; simpl.
      * intros [= <-]. now apply jsstring_eqb_neq.
      * apply Hmin. lia.
Qed.

Lemma line_at_nat (lines : list jsstring) (k : nat) :
  line_at lines (Z.of_nat k) = lines !! k.
Proof.
  unfold line_at. destruct (Z.of_nat k <? 0) eqn:H.
  - apply Z.ltb_lt in H. lia.
  - now rewrite Nat2Z.id.
Qed.

Lemma findColumnSeparators_at (content : jsstring) (ft : fileType) (h : nat)
    (headerLine dataLine : jsstring) :
  split_lines content !! h = Some headerLine ->
  split_lines content !! (h + 4)%nat = Some dataLine ->
  findColumnSeparators content (Z.of_nat h + 1) (Some ft)
  = match find_at isCodeAt dataLine 0 with
    | None => Return None
    | Some k =>
        Return (Some
          {| groupBracket := {| start := 0; end_ := Z.of_nat k |};
             codeBracket := {| start := Z.of_nat k; end_ := Z.of_nat k + 4 |};
             nameBracket := {| start := Z.of_nat k + 4; end_ := nameEnd dataLine k |};
             dataColumnIndices :=
               record_secondary (split_lines content) [Z.of_nat h; Z.of_nat h + 1]
                 (record_terms headerLine (dataColumnTerms ft) []) |})
    end.
Proof.
  intros Hh Hd. unfold findColumnSeparators.
  pose proof (lookup_lt_Some _ _ _ Hd) as Hlen.
  destruct (Z.of_nat h + 1 =? -1) eqn:E1; [apply Z.eqb_eq in E1; lia|].
  destruct (Z.of_nat h + 1 + 4 - 1 <? Z.of_nat (length (split_lines content))) eqn:E2;
    [|apply Z.ltb_ge in E2; lia].
  simpl negb. simpl andb.
  replace (Z.of_nat h + 1 + 4 - 1) with (Z.of_nat (h + 4)) by lia.
  rewrite line_at_nat, Hd. unfold matchCode.
  destruct (find_at isCodeAt dataLine 0) as [k|] eqn:Hk; simpl; [|reflexivity].
  replace (Z.of_nat h + 1 - 1) with (Z.of_nat h) by lia.
  rewrite line_at_nat, Hh.
  do 3 f_equal. unfold nameEnd.
  rewrite substringFrom_drop by lia.
  replace (Z.to_nat (Z.of_nat k + 4)) with (k + 4)%nat by lia.
  unfold indexOf.
  destruct (find_at (isPrefixOf (js "    ")) (drop (k + 4) dataLine) 0) as [j|].
  - destruct (Z.of_nat j =? -1) eqn:E; [apply Z.eqb_eq in E; lia|].
    simpl. f_equal. lia.
  - reflexivity.
Qed.

Lemma isCodeAt_spec (s : jsstring) :
  isCodeAt s = true ->
  length (take 4 s) = 4%nat /\ forallb isCodeChar (take 4 s) = true.
Proof.
  destruct s as [|a [|b [|c [|d s]]]]; simpl; try discriminate.
  intros H. split; [reflexivity|]. now rewrite andb_true_r, <- !andb_assoc in *.
Qed.

Lemma isCodeChar_class (c : N) : isCodeChar c = true <-> upper_case_or_digit c.
Proof.
  unfold isCodeChar, upper_case_or_digit.
  rewrite orb_true_iff, !andb_true_iff, !N.leb_le. tauto.
Qed.

(** The match of the pattern at an offset, read character by character. *)
Lemma isCodeAt_code_at (line : jsstring) (k : nat) :
  isCodeAt (drop k line) = true <-> code_at line k.
Proof.
  unfold code_at. split.
  - intros H i Hi.
    destruct (drop k line) as [|a [|b [|c [|d rest]]]] eqn:E; try discriminate.
    cbn [isCodeAt] in H. rewrite !andb_true_iff in H.
    destruct H as [[[Ha Hb] Hc] Hd].
    assert (Hl : line !! (k + i)%nat = (a :: b :: c :: d :: rest) !! i)
      by (rewrite <- E; symmetry; apply lookup_drop).
    destruct i as [|[|[|[|i]]]]; [| | | |lia]; eexists; (split; [exact Hl|]);
      now apply isCodeChar_class.
  - intros H.
    destruct (H 0%nat ltac:(lia)) as (a & Ha & Ca).
    destruct (H 1%nat ltac:(lia)) as (b & Hb & Cb).
    destruct (H 2%nat ltac:(lia)) as (c & Hc & Cc).
    destruct (H 3%nat ltac:(lia)) as (d & Hd & Cd).
    rewrite <- (lookup_drop line k) in Ha, Hb, Hc, Hd.
    destruct (drop k line) as [|a' [|b' [|c' [|d' rest]]]]; try discriminate.
    injection Ha as ->. injection Hb as ->. injection Hc as ->. injection Hd as ->.
    cbn [isCodeAt]. apply isCodeChar_class in Ca, Cb, Cc, Cd.
    now rewrite Ca, Cb, Cc, Cd.
Qed.

Lemma four_spaces_spec (s : jsstring) (j : nat) :
  isPrefixOf (js "    ") (drop j s) = true <-> four_spaces_at s j.
Proof.
  unfold four_spaces_at. split.
  - intros H i Hi. apply isPrefixOf_app in H. destruct H as [t Ht].
    assert (Hl : s !! (j + i)%nat = (js "    " ++ t) !! i)
      by (rewrite <- Ht; symmetry; apply lookup_drop).
    rewrite Hl. destruct i as [|[|[|[|i]]]]; [reflexivity..|lia].
  - intros H.
    pose proof (H 0%nat ltac:(lia)) as H0. pose proof (H 1%nat ltac:(lia)) as H1.
    pose proof (H 2%nat ltac:(lia)) as H2. pose proof (H 3%nat ltac:(lia)) as H3.
    rewrite <- (lookup_drop s j) in H0, H1, H2, H3.
    destruct (drop j s) as [|a [|b [|c [|d rest]]]]; try discriminate.
    injection H0 as ->. injection H1 as ->. injection H2 as ->. injection H3 as ->.
    reflexivity.
Qed.

(** C3, as the script has it.  For every report text whose header row is
    found, the column locator looks at the line four lines below the header
    line.  When four characters that are each an upper-case letter or a digit
    stand somewhere on that line, the group bracket is everything before the
    leftmost such place, the code bracket is those four characters, and the
    name bracket runs from after the code to the first run of four spaces of
    the rest of the line, or to the end of the line when there is none.
    When the line has no such four characters the locator returns null, and
    the table generators, given null, return their error paragraphs without
    reading a line. *)
Theorem column_locator (content : jsstring) (ft : fileType) :
  let lines := split_lines content in
  let headerRow := findHeaderRow content ft in
  headerRow <> -1 ->
  exists h : nat,
    headerRow = Z.of_nat h + 1
    /\ (exists headerLine, lines !! h = Some headerLine
          /\ squash headerLine = headerPattern ft)
    /\ match lines !! (h + 4)%nat with
       | None => findColumnSeparators content headerRow (Some ft) = Return None
       | Some dataLine =>
           ((forall k : nat, ~ code_at dataLine k) ->
            findColumnSeparators content headerRow (Some ft) = Return None
            /\ (forall title,
                  generateTableHTML title content None = NoTable (noTableMessage title))
            /\ (forall host, generateVolumeLinkTable host content None = None))
           /\ (forall k : nat,
                 code_at dataLine k ->
                 (forall j : nat, (j < k)%nat -> ~ code_at dataLine j) ->
                 exists seps : Separators,
                   findColumnSeparators content headerRow (Some ft) = Return (Some seps)
                   /\ groupBracket seps = {| start := 0; end_ := Z.of_nat k |}
                   /\ codeBracket seps
                      = {| start := Z.of_nat k; end_ := Z.of_nat k + 4 |}
                   /\ start (nameBracket seps) = Z.of_nat k + 4
                   /\ bracket_slice dataLine (groupBracket seps) = take k dataLine
                   /\ bracket_slice dataLine (codeBracket seps) = take 4 (drop k dataLine)
                   /\ length (take 4 (drop k dataLine)) = 4%nat
                   /\ let rest := drop (k + 4) dataLine in
                      (forall j : nat,
                         four_spaces_at rest j ->
                         (forall i : nat, (i < j)%nat -> ~ four_spaces_at rest i) ->
                         end_ (nameBracket seps) = Z.of_nat k + 4 + Z.of_nat j
                         /\ bracket_slice dataLine (nameBracket seps) = take j rest)
                      /\ ((forall j : nat, ~ four_spaces_at rest j) ->
                          end_ (nameBracket seps) = Z.of_nat (length dataLine)
                          /\ bracket_slice dataLine (nameBracket seps) = rest))
       end.
Proof.
  intros lines headerRow Hfound.
  assert (Hloop : findHeaderRow_loop lines (headerPattern ft) 0 = headerRow).
  { unfold headerRow, findHeaderRow, headerPattern. now destruct ft. }
  destruct (findHeaderRow_loop_found lines (headerPattern ft) 0 headerRow
              ltac:(lia) Hloop Hfound)
    as (h & Hh & headerLine & Hline & Hsquash & _).
  exists h. split; [lia|]. split; [eauto|].
  replace headerRow with (Z.of_nat h + 1) by lia.
  destruct (lines !! (h + 4)%nat) as [dataLine|] eqn:Hd.
  - rewrite (findColumnSeparators_at content ft h headerLine dataLine Hline Hd).
    split.
    + intros Hnone.
      destruct (find_at isCodeAt dataLine 0) as [k|] eqn:Hk.
      * destruct (find_at_Some _ _ _ _ Hk) as (k' & _ & _ & Hat & _).
        apply isCodeAt_code_at in Hat. now apply Hnone in Hat.
      * split; [reflexivity|]. split; reflexivity.
    + intros k Hcode Hleft.
      destruct (find_at isCodeAt dataLine 0) as [k0|] eqn:Hk.
      2:{ pose proof (find_at_None _ _ _ Hk k) as Hn.
          apply isCodeAt_code_at in Hcode. congruence. }
      destruct (find_at_Some _ _ _ _ Hk) as (k' & Hkk & Hklen & Hat & Hmin).
      rewrite Nat.add_0_l in Hkk. subst k'.
      assert (k0 = k).
      { destruct (Nat.lt_trichotomy k0 k) as [Hlt|[Heq|Hgt]]; auto.
        - apply isCodeAt_code_at in Hat. now apply Hleft in Hat.
        - apply isCodeAt_code_at in Hcode. rewrite (Hmin _ Hgt) in Hcode. discriminate. }
      subst k0.
      destruct (isCodeAt_spec _ Hat) as [Hl4 _].
      eexists. split; [reflexivity|].
      cbn [groupBracket codeBracket nameBracket start end_].
      repeat (split; [reflexivity|]).
      split.
      { unfold bracket_slice; cbn [groupBracket start end_].
        rewrite substring_take_drop by lia.
        rewrite drop_0. f_equal. lia. }
      split.
      { unfold bracket_slice; cbn [codeBracket start end_].
        rewrite substring_take_drop by lia.
        f_equal; [lia|]. f_equal. lia. }
      split; [exact Hl4|].
      assert (Hk4 : (k + 4 <= length dataLine)%nat).
      { rewrite length_take, length_drop in Hl4. lia. }
      split.
      * intros j Hj' Hjmin'.
        assert (Hj : isPrefixOf (js "    ") (drop j (drop (k + 4) dataLine)) = true)
          by now apply four_spaces_spec.
        assert (Hjmin : forall i : nat, (i < j)%nat ->
                  isPrefixOf (js "    ") (drop i (drop (k + 4) dataLine)) = false).
        { intros i Hi.
          destruct (isPrefixOf (js "    ") (drop i (drop (k + 4) dataLine))) eqn:E;
            [|reflexivity].
          apply four_spaces_spec in E. now apply Hjmin' in E. }
        unfold bracket_slice, nameEnd; cbn [nameBracket start end_].
        destruct (find_at (isPrefixOf (js "    ")) (drop (k + 4) dataLine) 0)
          as [j'|] eqn:Hf.
        -- destruct (find_at_Some _ _ _ _ Hf) as (j2 & Hj2 & _ & Hat2 & Hmin2).
           rewrite Nat.add_0_l in Hj2. subst j2.
           assert (j' = j).
           { destruct (Nat.lt_trichotomy j' j) as [Hlt|[Heq|Hgt]]; auto.
             - rewrite (Hjmin _ Hlt) in Hat2. discriminate.
             - rewrite (Hmin2 _ Hgt) in Hj. discriminate. }
           subst j'. split; [lia|].
           rewrite substring_take_drop by lia.
           f_equal; [lia|]. f_equal. lia.
        -- pose proof (find_at_None _ _ _ Hf j) as Hn. congruence.
      * intros Hnone'.
        assert (Hnone : forall j : nat,
                  isPrefixOf (js "    ") (drop j (drop (k + 4) dataLine)) = false).
        { intros j.
          destruct (isPrefixOf (js "    ") (drop j (drop (k + 4) dataLine))) eqn:E;
            [|reflexivity].
          apply four_spaces_spec in E. now apply Hnone' in E. }
        unfold bracket_slice, nameEnd; cbn [nameBracket start end_].
        destruct (find_at (isPrefixOf (js "    ")) (drop (k + 4) dataLine) 0)
          as [j'|] eqn:Hf.
        -- destruct (find_at_Some _ _ _ _ Hf) as (j2 & _ & _ & Hat2 & _).
           rewrite Hnone in Hat2. discriminate.
        -- split; [reflexivity|].
           rewrite substring_take_drop by lia.
           replace (Z.to_nat (Z.of_nat k + 4)) with (k + 4)%nat by lia.
           apply take_ge. rewrite length_drop. lia.
  - unfold findColumnSeparators.
    apply lookup_ge_None in Hd.
    destruct (Z.of_nat h + 1 + 4 - 1 <? Z.of_nat (length (split_lines content))) eqn:E2.
    + apply Z.ltb_lt in E2. fold lines in E2. lia.
    + now rewrite andb_false_r.
Qed.

Example sample_report_separators :
  findColumnSeparators sample_report (findHeaderRow sample_report Commission)
    (Some Commission)
  = Return (Some {| groupBracket := {| start := 0; end_ := 3 |};
                    codeBracket := {| start := 3; end_ := 7 |};
                    nameBracket := {| start := 7; end_ := 17 |};
                    dataColumnIndices :=
                      [(js "CURR MO", 15); (js "LY SAME MO", 25); (js "CURR YTD", 37);
                       (js "YTD LAST YR", 47); (js "TOTAL LAST YR", 60); (js "AVG", 75)] |}).
Proof. vm_compute. reflexivity. Qed.

(** On the sample report the code "1234" stands at offset 3 of the data
    line, and the locator returns the brackets around it. *)
Lemma column_locator_witness :
  findHeaderRow sample_report Commission <> -1
  /\ code_at (js " C 1234 ACME CORP       10   20") 3
  /\ exists seps : Separators,
       findColumnSeparators sample_report (findHeaderRow sample_report Commission)
         (Some Commission) = Return (Some seps)
       /\ groupBracket seps = {| start := 0; end_ := 3 |}
       /\ codeBracket seps = {| start := 3; end_ := 7 |}
       /\ bracket_slice (js " C 1234 ACME CORP       10   20") (codeBracket seps)
          = js "1234"
       /\ nameBracket seps = {| start := 7; end_ := 17 |}.
Proof.
  assert (H : findHeaderRow sample_report Commission <> -1)
    by (vm_compute; discriminate).
  assert (Hcode : code_at (js " C 1234 ACME CORP       10   20") 3).
  { intros i Hi.
    destruct i as [|[|[|[|i]]]];
      [exists 49%N|exists 50%N|exists 51%N|exists 52%N|lia];
      (split; [reflexivity|right; lia]). }
  assert (Hleft : forall j : nat,
             (j < 3)%nat -> ~ code_at (js " C 1234 ACME CORP       10   20") j).
  { intros j Hj Hc. destruct j as [|[|[|j]]]; [| | |lia].
    - destruct (Hc 0%nat ltac:(lia)) as (c & [= <-] & [Hu|Hu]); lia.
    - destruct (Hc 1%nat ltac:(lia)) as (c & [= <-] & [Hu|Hu]); lia.
    - destruct (Hc 0%nat ltac:(lia)) as (c & [= <-] & [Hu|Hu]); lia. }
  split; [exact H|]. split; [exact Hcode|].
  destruct (column_locator sample_report Commission H) as (h & Hh & _ & Hm).
  assert (E : findHeaderRow sample_report Commission = 4) by (vm_compute; reflexivity).
  rewrite E in Hh. assert (h = 3%nat) by lia. subst h.
  assert (El : split_lines sample_report !! (3 + 4)%nat
               = Some (js " C 1234 ACME CORP       10   20"))
    by (vm_compute; reflexivity).
  rewrite El in Hm. destruct Hm as [_ Hm].
  destruct (Hm 3%nat Hcode Hleft)
    as (seps & Hs & Hg & Hc & Hn & _ & Hcs & _ & Hrest).
  cbv zeta in Hrest. destruct Hrest as [Hname _].
  exists seps. split; [exact Hs|]. split; [exact Hg|]. split; [exact Hc|].
  split; [rewrite Hcs; reflexivity|].
  destruct (Hname 10%nat) as [He _].
  { intros i Hi. do 4 (destruct i as [|i]; [reflexivity|]). lia. }
  { intros i Hi Hf.
    do 10 (destruct i as [|i];
           [first [ pose proof (Hf 0%nat ltac:(lia)) as Hsp; vm_compute in Hsp; discriminate
                  | pose proof (Hf 1%nat ltac:(lia)) as Hsp; vm_compute in Hsp; discriminate ]|]).
    lia. }
  destruct (nameBracket seps) as [ns ne]. cbn [start end_] in *. subst. reflexivity.
Defined.

(** C3 as stated fails: the data line of this report holds the
    four-character alphanumeric code "ab12", yet the locator finds no code
    on it and returns null, because its pattern takes upper-case letters and
    digits only. *)
Lemma lower_case_code_counterexample :
  findHeaderRow lower_case_codes_report Commission = 4
  /\ split_lines lower_case_codes_report !! 7%nat
     = Some (js " c ab12 acme corp       10   20")
  /\ alphanumeric_code_at (js " c ab12 acme corp       10   20") 3
  /\ findColumnSeparators lower_case_codes_report
       (findHeaderRow lower_case_codes_report Commission) (Some Commission)
     = Return None.
Proof.
  split; [vm_compute; reflexivity|]. split; [vm_compute; reflexivity|].
  split; [|vm_compute; reflexivity].
  intros i Hi.
  destruct i as [|[|[|[|i]]]];
    [exists 97%N|exists 98%N|exists 49%N|exists 50%N|lia];
    (split; [reflexivity|unfold alphanumeric; lia]).
Qed.

(* ===================================================================== *)
(** * Properties: Number arithmetic never invents a NaN *)
(* ===================================================================== *)

Section Rounding.
Variables p e : Z.

Lemma shr_1_nonneg (mrs : shr_record) : 0 <= shr_m mrs -> 0 <= shr_m (shr_1 mrs).
Proof.
  destruct mrs as [m r s]. simpl.
  destruct m as [|[q|q|]|[q|q|]]; simpl; lia.
Qed.

Lemma iter_shr_1_nonneg (n : positive) (mrs : shr_record) :
  0 <= shr_m mrs -> 0 <= shr_m (SpecFloat.iter_pos shr_1 n mrs).
Proof.
  revert mrs. induction n as [n IH|n IH|]; intros mrs H; simpl.
  - apply IH, IH, shr_1_nonneg, H.
  - apply IH, IH, H.
  - apply shr_1_nonneg, H.
Qed.

Lemma shr_fexp_nonneg (m ex : Z) (l : location) :
  0 <= m -> 0 <= shr_m (fst (shr_fexp p e m ex l)).
Proof.
  intros Hm. unfold shr_fexp, shr.
  assert (H0 : 0 <= shr_m (shr_record_of_loc m l)) by (destruct l as [|[| |]]; simpl; lia).
  destruct (fexp p e (Zdigits2 m + ex) - ex); simpl; auto.
  now apply iter_shr_1_nonneg.
Qed.

Lemma round_nearest_even_nonneg (m : Z) (l : location) :
  0 <= m -> 0 <= round_nearest_even m l.
Proof.
  intros Hm. destruct l as [|[| |]]; simpl; try lia.
  destruct (Z.even m); lia.
Qed.

(** Rounding a non-negative mantissa gives a zero, a finite Number or an
    infinity. *)
Lemma binary_round_aux_not_nan (sx : bool) (mx ex : Z) (lx : location) :
  0 <= mx -> isNaN (binary_round_aux p e sx mx ex lx) = false.
Proof.
  intros Hm. unfold binary_round_aux.
  pose proof (shr_fexp_nonneg mx ex lx Hm) as H1.
  destruct (shr_fexp p e mx ex lx) as [mrs' e'] eqn:E1. simpl in H1.
  pose proof (shr_fexp_nonneg _ e' loc_Exact
                (round_nearest_even_nonneg _ (loc_of_shr_record mrs') H1)) as H2.
  destruct (shr_fexp p e _ e' loc_Exact) as [mrs'' e''] eqn:E2. simpl in H2.
  destruct (shr_m mrs'') as [|q|q]; try reflexivity; [|lia].
  now destruct (e'' <=? e - p).
Qed.

Lemma binary_normalize_not_nan (m ex : Z) (sz : bool) :
  isNaN (binary_normalize p e m ex sz) = false.
Proof.
  destruct m as [|q|q]; simpl; [reflexivity| |];
    unfold binary_round;
    destruct (shl_align _ _ _) as [mz ez];
    apply binary_round_aux_not_nan; lia.
Qed.

End Rounding.

Lemma num_sub_not_nan (x y : number) :
  isFiniteNum x = true -> isFiniteNum y = true -> isNaN (num_sub x y) = false.
Proof.
  destruct x as [sx|sx| |sx mx ex], y as [sy|sy| |sy my ey]; try discriminate;
    intros _ _; unfold num_sub, SFsub.
  - now destruct sx, sy.
  - reflexivity.
  - reflexivity.
  - apply binary_normalize_not_nan.
Qed.

Lemma num_div_not_nan (x y : number) :
  isNaN x = false -> isFiniteNonzero y = true -> isNaN (num_div x y) = false.
Proof.
  destruct x as [sx|sx| |sx mx ex], y as [sy|sy| |sy my ey]; try discriminate;
    intros _ _; unfold num_div, SFdiv; try reflexivity.
  unfold SFdiv_core_binary.
  set (m' := match _ with Z.pos _ => _ | _ => _ end).
  assert (Hm' : 0 <= m').
  { unfold m'. destruct (_ - _ - _); try lia. apply Z.shiftl_nonneg. lia. }
  pose proof (Z_div_mod m' (Z.pos my) ltac:(lia)) as Hdm.
  destruct (Z.div_eucl m' (Z.pos my)) as [q r].
  apply binary_round_aux_not_nan. nia.
Qed.

Lemma num_mul_not_nan (x y : number) :
  isNaN x = false -> isFiniteNonzero y = true -> isNaN (num_mul x y) = false.
Proof.
  destruct x as [sx|sx| |sx mx ex], y as [sy|sy| |sy my ey]; try discriminate;
    intros _ _; unfold num_mul, SFmul; try reflexivity.
  apply binary_round_aux_not_nan. lia.
Qed.

Lemma Math_round_not_nan (x : number) : isNaN x = false -> isNaN (Math_round x) = false.
Proof.
  destruct x as [sx|sx| |sx mx ex]; try discriminate; intros _; simpl; auto.
  destruct (0 <=? ex); [reflexivity|].
  destruct (_ =? 0); [reflexivity|]. apply binary_normalize_not_nan.
Qed.

(** The percentage of two finite, non-zero Numbers is not NaN. *)
Lemma percentValue_not_nan (x y : number) :
  isFiniteNum x = true -> isFiniteNonzero y = true ->
  isNaN (Math_round (percentValue x y)) = false.
Proof.
  intros Hx Hy. apply Math_round_not_nan. unfold percentValue.
  apply num_mul_not_nan; [|reflexivity].
  apply num_div_not_nan; [|exact Hy].
  apply num_sub_not_nan; [exact Hx|]. now destruct y.
Qed.

(* ===================================================================== *)
(** * Properties: percentage differences *)
(* ===================================================================== *)

Lemma parseNumericValue_Some (v : value) (x : number) :
  parseNumericValue v = Some x ->
  isNaN x = false
  /\ exists s, v = VStr s /\ trim s <> []
       /\ x = Number_of_string (remove_commas (trim s)).
Proof.
  destruct v as [| |y|s]; simpl; try discriminate.
  destruct (jsstring_eqb (trim s) []) eqn:Ht; [discriminate|].
  destruct (isNaN (Number_of_string (remove_commas (trim s)))) eqn:Hn; [discriminate|].
  intros [= <-]. split; [exact Hn|].
  exists s. apply jsstring_eqb_neq in Ht. auto.
Qed.

Lemma parseNumericValue_None (v : value) :
  parseNumericValue v = None
  <-> match v with
      | VStr s => trim s = []
                  \/ isNaN (Number_of_string (remove_commas (trim s))) = true
      | _ => True
      end.
Proof.
  destruct v as [| |y|s]; simpl; try tauto.
  destruct (jsstring_eqb (trim s) []) eqn:Ht.
  - apply jsstring_eqb_eq in Ht. tauto.
  - apply jsstring_eqb_neq in Ht.
    destruct (isNaN (Number_of_string (remove_commas (trim s)))); split;
      try discriminate; try tauto.
    intros [H|H]; [contradiction|discriminate].
Qed.

Lemma num_eqb_zero_false (x : number) :
  isNaN x = false -> num_eqb x num_zero = false ->
  isFiniteNum x = true -> isFiniteNonzero x = true.
Proof. destruct x as [s|s| |s m e]; simpl; try discriminate; auto. Qed.

(** C1, as the script has it.  For every pair of column values, the result is
    "N/A" whenever a value is not a string, is blank, does not read as a
    Number, or reads as zero; otherwise it is the text of
    [Math.round((current - previous) / previous * 100)] followed by "%".
    A zero never reaches the division.  When both values read as finite
    Numbers the rounded percentage is not NaN.  The values "110" and "100"
    give "10%". *)
Theorem percentage_diff (currentValue previousValue : value) :
  (parseNumericValue currentValue = None \/ parseNumericValue previousValue = None ->
   computePercentageDiff currentValue previousValue = js "N/A")
  /\ (forall v, parseNumericValue v = None
        <-> match v with
            | VStr s => trim s = []
                        \/ isNaN (Number_of_string (remove_commas (trim s))) = true
            | _ => True
            end)
  /\ (forall x y,
        parseNumericValue currentValue = Some x ->
        parseNumericValue previousValue = Some y ->
        num_eqb x num_zero = true \/ num_eqb y num_zero = true ->
        computePercentageDiff currentValue previousValue = js "N/A")
  /\ (forall x y,
        parseNumericValue currentValue = Some x ->
        parseNumericValue previousValue = Some y ->
        num_eqb x num_zero = false -> num_eqb y num_zero = false ->
        computePercentageDiff currentValue previousValue
        = Number_toString (Math_round (percentValue x y)) ++ js "%"
        /\ (isFiniteNum x = true -> isFiniteNum y = true ->
            isNaN (Math_round (percentValue x y)) = false))
  /\ computePercentageDiff (VStr (js "110")) (VStr (js "100")) = js "10%".
Proof.
  split; [|split; [|split; [|split]]].
  - unfold computePercentageDiff. intros [-> | ->]; [reflexivity|].
    now destruct (parseNumericValue currentValue).
  - exact parseNumericValue_None.
  - intros x y Hx Hy Hz. unfold computePercentageDiff. rewrite Hx, Hy.
    destruct Hz as [-> | ->]; [reflexivity|]. now rewrite orb_true_r.
  - intros x y Hx Hy Hzx Hzy. unfold computePercentageDiff.
    rewrite Hx, Hy, Hzx, Hzy. split; [reflexivity|].
    intros Hfx Hfy. apply percentValue_not_nan; [exact Hfx|].
    apply num_eqb_zero_false; auto.
    now destruct (parseNumericValue_Some _ _ Hy).
  - vm_compute. reflexivity.
Qed.

Lemma percentage_diff_witness :
  computePercentageDiff (VStr (js "1,234")) (VStr (js "1,000"))
  = Number_toString
      (Math_round (percentValue (Number_of_string (js "1234")) (Number_of_string (js "1000"))))
    ++ js "%"
  /\ computePercentageDiff (VStr (js "0")) (VStr (js "100")) = js "N/A"
  /\ computePercentageDiff VUndefined (VStr (js "100")) = js "N/A".
Proof.
  split; [|split].
  - destruct (percentage_diff (VStr (js "1,234")) (VStr (js "1,000")))
      as (_ & _ & _ & H & _).
    apply (H (Number_of_string (js "1234")) (Number_of_string (js "1000")));
      vm_compute; reflexivity.
  - destruct (percentage_diff (VStr (js "0")) (VStr (js "100"))) as (_ & _ & H & _).
    apply (H (Number_of_string (js "0")) (Number_of_string (js "100")));
      [vm_compute; reflexivity | vm_compute; reflexivity | left; vm_compute; reflexivity].
  - destruct (percentage_diff VUndefined (VStr (js "100"))) as (H & _).
    apply H. left. reflexivity.
Defined.

(** C1 as stated fails: a value that reads as an infinite Number, and finite
    values whose difference overflows, give a result that is Infinity or
    NaN. *)
Lemma percentage_diff_counterexample :
  computePercentageDiff (VStr (js "Infinity")) (VStr (js "100")) = js "Infinity%"
  /\ computePercentageDiff (VStr (js "100")) (VStr (js "1e999")) = js "NaN%"
  /\ computePercentageDiff (VStr (js "1e308")) (VStr (js "-1e308")) = js "-Infinity%".
Proof. split; [|split]; vm_compute; reflexivity. Qed.

(** Operands that are Numbers and not strings count as missing. *)
Example number_operands_are_missing :
  computePercentageDiff (VNum (num_of_Z 110)) (VNum (num_of_Z 100)) = js "N/A".
Proof. vm_compute. reflexivity. Qed.

(** In the volume link table the operands are the texts of the two columns
    written just before, so they are always strings. *)
Lemma link_cells_strings (line : jsstring) (indices : dict Z) :
  let cells := link_cells line indices [] columnConfig in
  cells !! 2%nat
  = Some (computePercentageDiff (option_rect (fun _ => value) VStr VUndefined (cells !! 0%nat))
                                (option_rect (fun _ => value) VStr VUndefined (cells !! 1%nat)))
  /\ cells !! 5%nat
     = Some (computePercentageDiff (option_rect (fun _ => value) VStr VUndefined (cells !! 3%nat))
                                   (option_rect (fun _ => value) VStr VUndefined (cells !! 4%nat))).
Proof.
  split; reflexivity.
Qed.

(** The link table of the sample volume report: the client whose figures
    are all zero is left out, and the text "Infinity" of a column reaches
    the table as "NaN%". *)
Example sample_link_table :
  match findColumnSeparators sample_volume_report
          (findHeaderRow sample_volume_report Volume) (Some Volume) with
  | Return separators =>
      generateVolumeLinkTable sample_host sample_volume_report separators
  | Throw _ => None
  end
  = Some {| rowsC := [ {| displayName := js "ACME CORP, Vietnam";
                          rowValues := [js "110"; js "100"; js "10%"; js "1,234";
                                        js "1,000"; js "23%"; js "5000"] |} ];
            rowsU := [ {| displayName := js "GAMMA, Unknown Country";
                          rowValues := [js "50"; js "Infinity"; js "NaN%"; js "7";
                                        js "0"; js "N/A"; js "9"] |} ] |}.
Proof. vm_compute. reflexivity. Qed.

(** ** Numbers read and written as the language does *)

Example Number_of_string_samples :
  Number_of_string (js "0.1") = S754_finite false 7205759403792794 (-56)
  /\ Number_of_string (js "1e23") = S754_finite false 5960464477539062 24
  /\ Number_of_string (js "5e-324") = S754_finite false 1 (-1074)
  /\ Number_of_string (js "9007199254740993") = S754_finite false 4503599627370496 1
  /\ Number_of_string (js "1.7976931348623159e308") = Infinity false
  /\ Number_of_string (js "0x1F") = num_of_Z 31
  /\ Number_of_string (js "12abc") = NaN
  /\ parseFloat_string (js "12abc") = num_of_Z 12.
Proof. repeat (split; [vm_compute; reflexivity|]). vm_compute. reflexivity. Qed.

Example Number_toString_samples :
  List.map (fun t => Number_toString (Number_of_string (js t)))
    ["0.1"; "1e23"; "5e-324"; "123456789012345680000"; "1e21"; "1152921504606846976";
     "0.000001"; "0.0000001"; "-1.5e-7"; "0.30000000000000004"]%string
  = List.map js
      ["0.1"; "1e+23"; "5e-324"; "123456789012345680000"; "1e+21"; "1152921504606847000";
       "0.000001"; "1e-7"; "-1.5e-7"; "0.30000000000000004"]%string.
Proof. vm_compute. reflexivity. Qed.

Example toFixed2_samples :
  List.map (fun t => toFixed2 (Number_of_string (js t)))
    ["1500"; "0.1"; "1.005"; "1.255"; "0.005"; "-0.001"; "8.345"; "1e21"]%string
  = List.map js
      ["1500.00"; "0.10"; "1.00"; "1.25"; "0.01"; "-0.00"; "8.35"; "1e+21"]%string.
Proof. vm_compute. reflexivity. Qed.

Example Math_round_samples :
  List.map (fun t => Number_toString (Math_round (Number_of_string (js t))))
    ["0.5"; "-0.5"; "2.5"; "-2.5"; "-2.51"; "0.49999999999999994"; "1e300"]%string
  = List.map js ["1"; "0"; "3"; "-2"; "-3"; "0"; "1e+300"]%string.
Proof. vm_compute. reflexivity. Qed.

(* ===================================================================== *)
(** * Properties: currency conversion *)
(* ===================================================================== *)

Lemma num_eqb_refl (x : number) : isNaN x = false -> num_eqb x x = true.
Proof.
  destruct x as [s|s| |s m e]; try discriminate; intros _;
    unfold num_eqb, SFeqb, SFcompare.
  - reflexivity.
  - now destruct s.
  - rewrite Z.compare_refl, Pos.compare_cont_refl. now destruct s.
Qed.

(** [parseFloat] gives a Number back as it is, [-0] as [+0]. *)
Lemma parseFloat_number (x : number) :
  isNaN x = false ->
  isNaN (parseFloat (VNum x)) = false
  /\ num_eqb (parseFloat (VNum x)) x = true
  /\ (x <> S754_zero true -> parseFloat (VNum x) = x).
Proof.
  intros Hx. destruct x as [[|]|s| |s m e]; try discriminate; simpl;
    repeat split; try reflexivity; try congruence;
    try (apply (num_eqb_refl (S754_finite s m e)); reflexivity).
  now destruct s.
Qed.

Lemma convertToUSD_reference (host : Host) (amount : value) (currency : jsstring)
    (st : State) :
  noAmount amount = false -> currency <> [] -> isNaN (parseFloat amount) = false ->
  toUpperCase host currency = js "USD" ->
  convertToUSD host amount (Some currency) st = Done (VNum (parseFloat amount)) st.
Proof.
  intros Ha Hc Hn Hu. unfold convertToUSD. rewrite Ha.
  destruct currency as [|c currency]; [contradiction|].
  rewrite Hn, Hu. reflexivity.
Qed.

Lemma convertToUSD_cached (host : Host) (amount : value) (currency : jsstring)
    (st : State) (r : number) :
  noAmount amount = false -> currency <> [] -> isNaN (parseFloat amount) = false ->
  toUpperCase host currency <> js "USD" ->
  exchangeRatesCache st !! toUpperCase host currency = Some r ->
  num_truthy r = true ->
  convertToUSD host amount (Some currency) st
  = Done (VNum (num_div (parseFloat amount) r)) st.
Proof.
  intros Ha Hc Hn Hu Hr Ht. unfold convertToUSD. rewrite Ha.
  destruct currency as [|c currency]; [contradiction|].
  rewrite Hn. apply jsstring_eqb_neq in Hu. rewrite Hu, Hr. simpl.
  rewrite Ht. simpl. unfold convert_with. rewrite ?Ht. reflexivity.
Qed.

(** C5. For every amount that reads as a Number (a Number that is not NaN,
    or a text [parseFloat] reads): with a currency whose upper-cased code is
    "USD" the conversion returns the amount as a Number, unchanged; with any
    other currency that has a cached rate [r] it returns the amount divided
    by [r]; the state is left as it was.  A Number amount is read back as
    itself ([-0] as [0], which is equal to it). *)
Theorem currency_conversion (host : Host) (amount : value) (currency : jsstring)
    (st : State) :
  noAmount amount = false -> isNaN (parseFloat amount) = false -> currency <> [] ->
  (toUpperCase host currency = js "USD" ->
   convertToUSD host amount (Some currency) st = Done (VNum (parseFloat amount)) st)
  /\ (forall r,
        toUpperCase host currency <> js "USD" ->
        exchangeRatesCache st !! toUpperCase host currency = Some r ->
        num_truthy r = true ->
        convertToUSD host amount (Some currency) st
        = Done (VNum (num_div (parseFloat amount) r)) st)
  /\ (forall x, amount = VNum x ->
        num_eqb (parseFloat amount) x = true
        /\ (x <> S754_zero true -> parseFloat amount = x)).
Proof.
  intros Ha Hn Hc. split; [|split].
  - intros Hu. apply convertToUSD_reference; auto.
  - intros r Hu Hr Ht. apply convertToUSD_cached; auto.
  - intros x ->. apply parseFloat_number.
    destruct x as [| | |]; try reflexivity. discriminate.
Qed.

Lemma currency_conversion_witness :
  convertToUSD sample_host (VNum (num_of_text "1500")) (Some (js "usd")) eur_cached
  = Done (VNum (num_of_text "1500")) eur_cached
  /\ convertToUSD sample_host (VNum (num_of_text "1500")) (Some (js "eur")) eur_cached
     = Done (VNum (num_div (num_of_text "1500") (num_of_text "0.92"))) eur_cached
  /\ convertToUSD sample_host (VStr (js "1500")) (Some (js "USD")) eur_cached
     = Done (VNum (num_of_text "1500")) eur_cached.
Proof.
  split; [|split].
  - destruct (currency_conversion sample_host (VNum (num_of_text "1500")) (js "usd")
                eur_cached) as (H & _); [reflexivity|vm_compute; reflexivity|discriminate|].
    rewrite H; [vm_compute; reflexivity|vm_compute; reflexivity].
  - destruct (currency_conversion sample_host (VNum (num_of_text "1500")) (js "eur")
                eur_cached) as (_ & H & _); [reflexivity|vm_compute; reflexivity|discriminate|].
    rewrite (H (num_of_text "0.92"));
      [vm_compute; reflexivity|vm_compute; discriminate
      |vm_compute; reflexivity|vm_compute; reflexivity].
  - destruct (currency_conversion sample_host (VStr (js "1500")) (js "USD")
                eur_cached) as (H & _); [reflexivity|vm_compute; reflexivity|discriminate|].
    rewrite H; [vm_compute; reflexivity|vm_compute; reflexivity].
Defined.

Example convert_1500_eur :
  convertToUSD sample_host (VNum (num_of_text "1500")) (Some (js "EUR")) eur_cached
  = Done (VNum (num_of_text "1630.4347826086955")) eur_cached.
Proof. vm_compute. reflexivity. Qed.

(** ** Rates that are declined *)

(** The conversion never throws. *)
Lemma convertToUSD_never_raises (host : Host) (amount : value)
    (currency : option jsstring) (st : State) (e : jsstring) :
  convertToUSD host amount currency st <> Raised e.
Proof.
  unfold convertToUSD, ret.
  destruct (noAmount amount); [discriminate|].
  destruct currency as [[|c cur]|]; try discriminate.
  destruct (isNaN (parseFloat amount)); [discriminate|].
  destruct (jsstring_eqb _ (js "USD")); [discriminate|].
  destruct (negb (rate_truthy _)); [|discriminate].
  unfold promptForExchangeRate.
  destruct (answers st) as [|[input|] rest]; try discriminate.
  destruct (prompt_retry rest _) as [[[r|] rest']|]; discriminate.
Qed.

Lemma promptForExchangeRate_cache (currencyCode : jsstring) (st st' : State)
    (r : option number) :
  promptForExchangeRate currencyCode st = Done r st' ->
  exchangeRatesCache st' = exchangeRatesCache st.
Proof.
  unfold promptForExchangeRate.
  destruct (answers st) as [|[input|] rest]; try discriminate.
  - destruct (prompt_retry rest _) as [[r' rest']|]; try discriminate.
    now intros [= _ <-].
  - now intros [= _ <-].
Qed.

Lemma convertToUSD_declined (host : Host) (amount : value) (currency : jsstring)
    (st st' : State) :
  noAmount amount = false -> currency <> [] -> isNaN (parseFloat amount) = false ->
  toUpperCase host currency <> js "USD" ->
  rate_truthy (exchangeRatesCache st !! toUpperCase host currency) = false ->
  promptForExchangeRate (toUpperCase host currency) st = Done None st' ->
  convertToUSD host amount (Some currency) st
  = Done (VStr (rateNeeded (parseFloat amount) (toUpperCase host currency))) st'.
Proof.
  intros Ha Hc Hn Hu Hr Hp. unfold convertToUSD. rewrite Ha.
  destruct currency as [|c currency]; [contradiction|].
  rewrite Hn. apply jsstring_eqb_neq in Hu. rewrite Hu, Hr. simpl.
  now rewrite Hp.
Qed.

Lemma buildRow_steps (host : Host) (repo : Repository) (msg : Msg) (st st' : State)
    (code : jsstring) (pc usd : value) (cm : jsstring) :
  exportFactorCodeCharacters msg = Return code ->
  countryName host code = Return pc ->
  convertToUSD host (num_to_value (amountOf msg)) (currencyOf msg) st = Done usd st' ->
  getCreditManager code usd (FactorName (ef msg)) = Return cm ->
  buildRow host repo msg st = Done (makeRow host repo msg code pc usd cm) st'.
Proof.
  intros Hc Hp Hu Hm. unfold buildRow, bind, lift, ret.
  now rewrite Hc, Hp, Hu, Hm.
Qed.

Lemma buildRow_Done (host : Host) (repo : Repository) (msg : Msg) (st st' : State)
    (row : DisplayRow) :
  buildRow host repo msg st = Done row st' ->
  exists code pc usd cm,
    exportFactorCodeCharacters msg = Return code
    /\ countryName host code = Return pc
    /\ convertToUSD host (num_to_value (amountOf msg)) (currencyOf msg) st = Done usd st'
    /\ getCreditManager code usd (FactorName (ef msg)) = Return cm
    /\ row = makeRow host repo msg code pc usd cm.
Proof.
  unfold buildRow, bind, lift, ret.
  destruct (exportFactorCodeCharacters msg) as [code|] eqn:E1; [|discriminate].
  destruct (countryName host code) as [pc|] eqn:E2; [|discriminate].
  destruct (convertToUSD host _ _ st) as [usd st1| |] eqn:E3; try discriminate.
  destruct (getCreditManager code usd _) as [cm|] eqn:E4; [|discriminate].
  intros [= <- <-]. exists code, pc, usd, cm. auto.
Qed.

(** What a declined rate leads to.  The conversion neither throws nor
    stops: the converted amount of the row is the text
    [<amount with two decimals> <CURRENCY> (Rate needed)] and not a Number,
    and nothing is cached.  The text then goes to [getCreditManager]: when
    that returns, the row is pushed and the loop goes on with the remaining
    messages; when it throws, which it does only for a message without
    factor name, the exception leaves the loop and no row of the run is
    returned. *)
Lemma rate_declined_outcome (host : Host) (repo : Repository) (msg : Msg)
    (rest : list Msg) (combinedData : list DisplayRow) (st st' : State)
    (x : number) (cur : jsstring) :
  amountOf msg = Some x -> isNaN x = false ->
  currencyOf msg = Some cur -> cur <> [] ->
  toUpperCase host cur <> js "USD" ->
  rate_truthy (exchangeRatesCache st !! toUpperCase host cur) = false ->
  promptForExchangeRate (toUpperCase host cur) st = Done None st' ->
  let annotated := VStr (rateNeeded (parseFloat (VNum x)) (toUpperCase host cur)) in
  convertToUSD host (VNum x) (Some cur) st = Done annotated st'
  /\ exchangeRatesCache st' = exchangeRatesCache st
  /\ (forall code pc,
        exportFactorCodeCharacters msg = Return code ->
        countryName host code = Return pc ->
        match getCreditManager code annotated (FactorName (ef msg)) with
        | Return cm =>
            let row := makeRow host repo msg code pc annotated cm in
            buildRow host repo msg st = Done row st'
            /\ amountReqUSD row = annotated
            /\ combine_rows host repo (msg :: rest) combinedData st
               = combine_rows host repo rest (combinedData ++ [row]) st'
        | Throw e =>
            FactorName (ef msg) = None
            /\ buildRow host repo msg st = Raised e
            /\ combine_rows host repo (msg :: rest) combinedData st = Raised e
        end).
Proof.
  intros Hx Hn Hc Hne Hu Hr Hp annotated.
  assert (Hconv : convertToUSD host (VNum x) (Some cur) st = Done annotated st').
  { apply convertToUSD_declined; auto.
    now destruct (parseFloat_number x Hn). }
  split; [exact Hconv|]. split; [eapply promptForExchangeRate_cache; eauto|].
  intros code pc Hcode Hpc.
  destruct (getCreditManager code annotated (FactorName (ef msg))) as [cm|e] eqn:Hcm.
  - intros row.
    assert (Hrow : buildRow host repo msg st = Done row st').
    { apply buildRow_steps; auto. now rewrite Hx, Hc. }
    split; [exact Hrow|]. split; [reflexivity|].
    simpl. unfold bind at 1. now rewrite Hrow.
  - assert (Hrow : buildRow host repo msg st = Raised e).
    { unfold buildRow, bind, lift. rewrite Hcode, Hpc, Hx, Hc. cbn [num_to_value].
      now rewrite Hconv, Hcm. }
    split; [|split; [exact Hrow|]].
    + destruct (FactorName (ef msg)) as [name|] eqn:Hname; [|reflexivity].
      exfalso. unfold getCreditManager, name_includes in Hcm.
      repeat match type of Hcm with
             | (if ?b then _ else _) = _ => destruct b
             | match (if ?b then _ else _) with _ => _ end = _ => destruct b
             end; discriminate.
    + simpl. unfold bind at 1. now rewrite Hrow.
Qed.

(** C9.  The script means a declined rate to be harmless, and the
    conversion is: it returns the "(Rate needed)" text.  But the text then
    decides the credit manager by the amount in its own currency.  For a
    cover request of 600000 EUR through a factor in Singapore that has no
    FactorName element, declining the rate ends the run with a TypeError and
    no row, also when the batch holds another message, while answering the
    prompt with the rate 2 gives every row, that of the request with 300000
    and "lux"; with a factor name the declined rate gives the row with the
    text. *)
Theorem declined_rate_ends_run :
  processFiles sample_host [Return (Transactional (singapore_msg None))] [None]
  = Raised TypeError
  /\ processFiles sample_host
       [Return (Transactional (usd_msg (Some (js "1")) (Some (js "2024-01-01T09:00:00"))));
        Return (Transactional (singapore_msg None))]
       [None]
     = Raised TypeError
  /\ (exists rows st,
        processFiles sample_host
          [Return (Transactional (usd_msg (Some (js "1")) (Some (js "2024-01-01T09:00:00"))));
           Return (Transactional (singapore_msg None))]
          [Some (js "2")]
        = Done rows st
        /\ length rows = 2%nat)
  /\ (exists row st,
        processFiles sample_host [Return (Transactional (singapore_msg None))]
          [Some (js "2")]
        = Done [row] st
        /\ amountReqUSD row = VNum (num_of_text "300000")
        /\ creditManager row = VStr (js "lux"))
  /\ (exists row st,
        processFiles sample_host
          [Return (Transactional (singapore_msg (Some (js "Mogli Labs"))))] [None]
        = Done [row] st
        /\ amountReqUSD row = VStr (js "600000.00 EUR (Rate needed)")
        /\ creditManager row = VStr (js "trey")).
Proof.
  split; [vm_compute; reflexivity|]. split; [vm_compute; reflexivity|].
  split; [|split].
  - eexists _, _. split; [vm_compute; reflexivity|]. reflexivity.
  - eexists _, _. split; [vm_compute; reflexivity|]. split; vm_compute; reflexivity.
  - eexists _, _. split; [vm_compute; reflexivity|]. split; vm_compute; reflexivity.
Qed.

(* ===================================================================== *)
(** * Properties: the rate cache *)
(* ===================================================================== *)

Lemma prompt_retry_positive (rest : list (option jsstring)) (rate r : number)
    (rest' : list (option jsstring)) :
  prompt_retry rest rate = Some (Some r, rest') -> positive_rate r.
Proof.
  revert rate. induction rest as [|[input|] rest IH]; intros rate; simpl.
  - destruct (isNaN rate || num_leb rate num_zero) eqn:E; [discriminate|].
    intros [= <- _]. now apply orb_false_elim in E.
  - destruct (isNaN rate || num_leb rate num_zero) eqn:E; [apply IH|].
    intros [= <- _]. now apply orb_false_elim in E.
  - destruct (isNaN rate || num_leb rate num_zero) eqn:E; [discriminate|].
    intros [= <- _]. now apply orb_false_elim in E.
Qed.

Lemma promptForExchangeRate_positive (currencyCode : jsstring) (st st' : State)
    (r : number) :
  promptForExchangeRate currencyCode st = Done (Some r) st' -> positive_rate r.
Proof.
  unfold promptForExchangeRate.
  destruct (answers st) as [|[input|] rest]; try discriminate.
  destruct (prompt_retry rest _) as [[[r'|] rest']|] eqn:E; try discriminate.
  intros [= <- _]. eapply prompt_retry_positive; eauto.
Qed.

(** What a conversion does to the cache: nothing, or it adds the rate the
    user has just given under the upper-cased code. *)
Lemma convertToUSD_cache (host : Host) (amount : value) (currency : option jsstring)
    (st st' : State) (v : value) :
  convertToUSD host amount currency st = Done v st' ->
  exchangeRatesCache st' = exchangeRatesCache st
  \/ exists cur r, currency = Some cur /\ positive_rate r
       /\ exchangeRatesCache st' = <[toUpperCase host cur := r]> (exchangeRatesCache st).
Proof.
  unfold convertToUSD, ret.
  destruct (noAmount amount); [intros [= _ <-]; auto|].
  destruct currency as [[|c cur]|]; try (intros [= _ <-]; auto; fail).
  destruct (isNaN (parseFloat amount)); [intros [= _ <-]; auto|].
  destruct (jsstring_eqb _ (js "USD")); [intros [= _ <-]; auto|].
  destruct (negb (rate_truthy _)); [|intros [= _ <-]; auto].
  destruct (promptForExchangeRate _ st) as [[r|] st1| |] eqn:Hp; try discriminate.
  - intros [= _ <-]. right. exists (c :: cur), r. simpl.
    split; [reflexivity|]. split; [eapply promptForExchangeRate_positive; eauto|].
    now rewrite (promptForExchangeRate_cache _ _ _ _ Hp).
  - intros [= _ <-]. left. eapply promptForExchangeRate_cache; eauto.
Qed.

Lemma cache_positive_insert (cache : gmap jsstring number) (k : jsstring) (r : number) :
  cache_positive cache -> positive_rate r -> cache_positive (<[k := r]> cache).
Proof.
  intros Hc Hr k' r'. rewrite lookup_insert. case_decide.
  - now intros [= <-].
  - apply Hc.
Qed.

Lemma convertToUSD_cache_positive (host : Host) (amount : value)
    (currency : option jsstring) (st st' : State) (v : value) :
  convertToUSD host amount currency st = Done v st' ->
  cache_positive (exchangeRatesCache st) -> cache_positive (exchangeRatesCache st').
Proof.
  intros H Hc. destruct (convertToUSD_cache _ _ _ _ _ _ H) as [-> | (cur & r & _ & Hr & ->)].
  - exact Hc.
  - now apply cache_positive_insert.
Qed.

Lemma combine_rows_cache_positive (host : Host) (repo : Repository) (msgs : list Msg)
    (acc rows : list DisplayRow) (st st' : State) :
  combine_rows host repo msgs acc st = Done rows st' ->
  cache_positive (exchangeRatesCache st) -> cache_positive (exchangeRatesCache st').
Proof.
  revert acc st. induction msgs as [|msg msgs IH]; intros acc st; simpl.
  - unfold ret. now intros [= _ <-].
  - unfold bind at 1. destruct (buildRow host repo msg st) as [row st1| |] eqn:Hb;
      try discriminate.
    intros H Hc. apply (IH _ _ H).
    destruct (buildRow_Done _ _ _ _ _ _ Hb) as (code & pc & usd & cm & _ & _ & Hu & _).
    eapply convertToUSD_cache_positive; eauto.
Qed.

Lemma positive_rate_divides (r : number) :
  positive_rate r ->
  num_truthy r = true
  /\ forall x, isFiniteNum x = true -> isNaN (num_div x r) = false.
Proof.
  intros [Hn Hl]. destruct r as [s|s| |s m e]; try discriminate.
  - split; [reflexivity|]. intros x Hx. now destruct x.
  - split; [reflexivity|]. intros x Hx. apply num_div_not_nan; [now destruct x|reflexivity].
Qed.

(** C10, as the script has it.  Every rate the prompt returns, and so every
    rate in the cache of a run, is a Number that is not NaN and not
    [<= 0]; a cancelled prompt caches nothing.  Hence a cached rate is never
    zero, the conversion uses it without asking again, and dividing a finite
    amount by it never gives NaN. *)
Theorem cached_rates_positive (host : Host) :
  (forall currencyCode st st' r,
      promptForExchangeRate currencyCode st = Done (Some r) st' -> positive_rate r)
  /\ (forall amount currency st st' v,
        convertToUSD host amount currency st = Done v st' ->
        (exchangeRatesCache st' = exchangeRatesCache st
         \/ exists cur r, currency = Some cur /\ positive_rate r
              /\ exchangeRatesCache st'
                 = <[toUpperCase host cur := r]> (exchangeRatesCache st))
        /\ (forall cur, currency = Some cur ->
              promptForExchangeRate (toUpperCase host cur) st = Done None st' ->
              exchangeRatesCache st' = exchangeRatesCache st))
  /\ (forall nodes userAnswers rows st,
        processFiles host nodes userAnswers = Done rows st ->
        cache_positive (exchangeRatesCache st))
  /\ (forall r, positive_rate r ->
        num_truthy r = true
        /\ forall x, isFiniteNum x = true -> isNaN (num_div x r) = false).
Proof.
  split; [|split; [|split]].
  - exact promptForExchangeRate_positive.
  - intros amount currency st st' v H. split.
    + eapply convertToUSD_cache; eauto.
    + intros cur _ Hp. eapply promptForExchangeRate_cache; eauto.
  - intros nodes userAnswers rows st. unfold processFiles, generateCombinedDisplayData.
    unfold bind at 1.
    destruct (combine_rows host _ _ [] _) as [combined st1| |] eqn:Hc; try discriminate.
    unfold ret. intros [= _ <-].
    apply (combine_rows_cache_positive _ _ _ _ _ _ _ Hc).
    intros k r. simpl. now rewrite lookup_empty.
  - exact positive_rate_divides.
Qed.

Lemma cached_rates_positive_witness : positive_rate (num_of_text "0.92").
Proof.
  destruct (cached_rates_positive sample_host) as (H & _).
  apply (H (js "EUR")
           {| exchangeRatesCache := ∅; answers := [Some (js "abc"); Some (js "0.92")] |}
           {| exchangeRatesCache := ∅; answers := [] |}
           (num_of_text "0.92")).
  vm_compute. reflexivity.
Defined.

(** C10 as stated fails: the prompt takes the answer "Infinity", so a cached
    rate need not be finite; and a quotient by a cached rate can be
    Infinity (here by overflow) or NaN (an infinite amount over an infinite
    rate). *)
Lemma cached_rate_counterexample :
  (exists v st',
      convertToUSD sample_host (VNum (num_of_text "1500")) (Some (js "EUR"))
        {| exchangeRatesCache := ∅; answers := [Some (js "Infinity")] |} = Done v st'
      /\ exchangeRatesCache st' !! js "EUR" = Some (Infinity false)
      /\ isFiniteNum (Infinity false) = false)
  /\ convertToUSD sample_host (VNum (num_of_text "1e308")) (Some (js "EUR"))
       {| exchangeRatesCache := {[ js "EUR" := num_of_text "0.001" ]}; answers := [] |}
     = Done (VNum (Infinity false))
         {| exchangeRatesCache := {[ js "EUR" := num_of_text "0.001" ]}; answers := [] |}
  /\ convertToUSD sample_host (VNum (Infinity false)) (Some (js "EUR"))
       {| exchangeRatesCache := {[ js "EUR" := Infinity false ]}; answers := [] |}
     = Done (VNum NaN)
         {| exchangeRatesCache := {[ js "EUR" := Infinity false ]}; answers := [] |}.
Proof.
  split; [|split].
  - eexists _, _. split; [vm_compute; reflexivity|]. split; vm_compute; reflexivity.
  - vm_compute. reflexivity.
  - vm_compute. reflexivity.
Qed.

(* ===================================================================== *)
(** * Properties: sorting *)
(* ===================================================================== *)

Section SortFacts.
Context {A : Type}.

Lemma sort_insert_perm (lt : A -> A -> bool) (x : A) (rl : list A) :
  Permutation (sort_insert lt x rl) (x :: rl).
Proof.
  induction rl as [|p rl IH]; simpl; [reflexivity|].
  destruct (lt x p); [|reflexivity].
  rewrite IH. apply perm_swap.
Qed.

Lemma sort_fold_perm (lt : A -> A -> bool) (l acc : list A) :
  Permutation (fold_left (fun acc x => sort_insert lt x acc) l acc) (l ++ acc).
Proof.
  revert acc. induction l as [|x l IH]; intros acc; simpl; [reflexivity|].
  rewrite IH, sort_insert_perm. symmetry. apply Permutation_middle.
Qed.

(** The sort only reorders. *)
Lemma Array_sort_perm (lt : A -> A -> bool) (l : list A) :
  Permutation l (Array_sort lt l).
Proof.
  unfold Array_sort. rewrite <- Permutation_rev, sort_fold_perm.
  now rewrite app_nil_r.
Qed.

Lemma sort_insert_ext (lt lt' : A -> A -> bool) (x : A) (rl : list A) :
  (forall p, In p rl -> lt x p = lt' x p) ->
  sort_insert lt x rl = sort_insert lt' x rl.
Proof.
  induction rl as [|p rl IH]; intros H; simpl; [reflexivity|].
  rewrite <- (H p) by (now left).
  rewrite IH by (intros q Hq; apply H; now right). reflexivity.
Qed.

Lemma sort_fold_ext (lt lt' : A -> A -> bool) (l acc : list A) :
  (forall a b, In a (l ++ acc) -> In b (l ++ acc) -> lt a b = lt' a b) ->
  fold_left (fun acc x => sort_insert lt x acc) l acc
  = fold_left (fun acc x => sort_insert lt' x acc) l acc.
Proof.
  revert acc. induction l as [|x l IH]; intros acc H; simpl; [reflexivity|].
  rewrite (sort_insert_ext lt lt' x acc).
  - apply IH. intros a b Ha Hb. apply H.
    + apply in_app_or in Ha as [Ha|Ha]; [right; apply in_or_app; now left|].
      apply (Permutation_in _ (sort_insert_perm lt' x acc)) in Ha.
      destruct Ha as [<-|Ha]; [now left|right; apply in_or_app; now right].
    + apply in_app_or in Hb as [Hb|Hb]; [right; apply in_or_app; now left|].
      apply (Permutation_in _ (sort_insert_perm lt' x acc)) in Hb.
      destruct Hb as [<-|Hb]; [now left|right; apply in_or_app; now right].
  - intros p Hp. apply H; [now left|right; apply in_or_app; now right].
Qed.

(** Two comparators that agree on the elements of a list sort it alike. *)
Lemma Array_sort_ext (lt lt' : A -> A -> bool) (l : list A) :
  (forall a b, In a l -> In b l -> lt a b = lt' a b) ->
  Array_sort lt l = Array_sort lt' l.
Proof.
  intros H. unfold Array_sort. f_equal. apply sort_fold_ext.
  now rewrite app_nil_r.
Qed.

(** ** Consistent comparators *)

Lemma consistent_spec (lt : A -> A -> bool) (l : list A) :
  consistent lt l = true
  <-> (forall a, In a l -> lt a a = false)
      /\ (forall a b c, In a l -> In b l -> In c l ->
            (lt a b = true -> lt b c = true -> lt a c = true)
            /\ (lt a b = false -> lt b a = false -> lt b c = false -> lt c b = false ->
                lt a c = false /\ lt c a = false)).
Proof.
  unfold consistent. rewrite andb_true_iff, !forallb_forall. split.
  - intros [Hirr Htr]. split.
    + intros a Ha. apply negb_true_iff. now apply Hirr.
    + intros a b c Ha Hb Hc. specialize (Htr a Ha).
      rewrite forallb_forall in Htr. specialize (Htr b Hb).
      rewrite forallb_forall in Htr. specialize (Htr c Hc).
      apply andb_true_iff in Htr. destruct Htr as [H1 H2]. split.
      * intros Hab Hbc. rewrite Hab, Hbc in H1. exact H1.
      * intros Hab Hba Hbc Hcb. rewrite Hab, Hba, Hbc, Hcb in H2. simpl in H2.
        now apply andb_true_iff in H2 as [?%negb_true_iff ?%negb_true_iff].
  - intros [Hirr Htr]. split.
    + intros a Ha. apply negb_true_iff. now apply Hirr.
    + intros a Ha. apply forallb_forall. intros b Hb.
      apply forallb_forall. intros c Hc.
      destruct (Htr a b c Ha Hb Hc) as [H1 H2]. apply andb_true_iff. split.
      * destruct (lt a b); [|reflexivity]. destruct (lt b c); [|reflexivity].
        simpl. now apply H1.
      * destruct (lt a b); [reflexivity|]. destruct (lt b a); [reflexivity|].
        destruct (lt b c); [reflexivity|]. destruct (lt c b); [reflexivity|].
        destruct H2 as [-> ->]; reflexivity.
Qed.

(** Two comparators that agree on the elements of a list are consistent
    over it alike. *)
Lemma consistent_ext (lt lt' : A -> A -> bool) (l : list A) :
  (forall a b, In a l -> In b l -> lt a b = lt' a b) ->
  consistent lt l = true -> consistent lt' l = true.
Proof.
  intros H. rewrite !consistent_spec. intros [Hirr Htr]. split.
  - intros a Ha. rewrite <- H by assumption. now apply Hirr.
  - intros a b c Ha Hb Hc. rewrite <- !H by assumption. now apply Htr.
Qed.

(** ** Sorting by a key *)

Context (key : A -> Z).

(** A difference of keys is a consistent comparator. *)
Lemma consistent_key (l : list A) : consistent (key_lt key) l = true.
Proof.
  apply consistent_spec. unfold key_lt. split.
  - intros a _. apply Z.ltb_ge. lia.
  - intros a b c _ _ _. split.
    + rewrite !Z.ltb_lt. lia.
    + rewrite !Z.ltb_ge. lia.
Qed.

Lemma sort_insert_descending (x : A) (rl : list A) :
  (descending key) rl -> (descending key) (sort_insert (key_lt key) x rl).
Proof.
  unfold descending. induction rl as [|p rl IH]; intros Hd; simpl.
  - repeat constructor.
  - apply StronglySorted_inv in Hd as [Hd Hp].
    unfold key_lt at 1. destruct (key x - key p <? 0) eqn:E.
    + apply Z.ltb_lt in E. constructor; [now apply IH|].
      apply List.Forall_forall. intros y Hy.
      apply (Permutation_in _ (sort_insert_perm (key_lt key) x rl)) in Hy.
      destruct Hy as [<-|Hy]; [lia|].
      rewrite List.Forall_forall in Hp. now apply Hp.
    + apply Z.ltb_ge in E. constructor; [now constructor|].
      constructor; [lia|].
      rewrite List.Forall_forall in *. intros y Hy. specialize (Hp y Hy). lia.
Qed.

Lemma sort_fold_descending (l acc : list A) :
  (descending key) acc -> (descending key) (fold_left (fun acc x => sort_insert (key_lt key) x acc) l acc).
Proof.
  revert acc. induction l as [|x l IH]; intros acc H; simpl; [exact H|].
  now apply IH, sort_insert_descending.
Qed.

Lemma descending_rev (rl : list A) : (descending key) rl -> (ascending key) (rev rl).
Proof.
  unfold descending, ascending. induction rl as [|p rl IH]; intros H; simpl.
  - constructor.
  - apply StronglySorted_inv in H as [H Hp].
    apply StronglySorted_app_2; [|now apply IH|repeat constructor].
    intros a b Ha Hb. apply list_elem_of_In in Ha, Hb.
    destruct Hb as [<-|[]]. apply in_rev in Ha.
    rewrite List.Forall_forall in Hp. now apply Hp.
Qed.

Lemma with_key_app (k : Z) (l1 l2 : list A) :
  (with_key key k) (l1 ++ l2) = (with_key key k) l1 ++ (with_key key k) l2.
Proof. apply List.filter_app. Qed.

Lemma sort_insert_stable (k : Z) (x : A) (rl : list A) :
  (with_key key k) (rev (sort_insert (key_lt key) x rl)) = (with_key key k) (rev rl) ++ (with_key key k) [x].
Proof.
  induction rl as [|p rl IH]; simpl rev; [reflexivity|].
  simpl sort_insert. unfold key_lt at 1. destruct (key x - key p <? 0) eqn:E.
  - simpl rev. rewrite !with_key_app, IH, <- !app_assoc. f_equal.
    apply Z.ltb_lt in E. unfold with_key. simpl.
    destruct (key x =? k) eqn:E1, (key p =? k) eqn:E2; try reflexivity.
    apply Z.eqb_eq in E1, E2. lia.
  - simpl rev. now rewrite !with_key_app.
Qed.

Lemma sort_fold_stable (k : Z) (l acc : list A) :
  (with_key key k) (rev (fold_left (fun acc x => sort_insert (key_lt key) x acc) l acc))
  = (with_key key k) (rev acc) ++ (with_key key k) l.
Proof.
  revert acc. induction l as [|x l IH]; intros acc; simpl fold_left.
  - unfold with_key at 3. simpl. now rewrite app_nil_r.
  - rewrite IH, sort_insert_stable, <- app_assoc, <- with_key_app. reflexivity.
Qed.

(** By a key the sort is (ascending key) and stable. *)
Lemma Array_sort_key (l : list A) :
  (ascending key) (Array_sort (key_lt key) l)
  /\ forall k, (with_key key k) (Array_sort (key_lt key) l) = (with_key key k) l.
Proof.
  split.
  - apply descending_rev, sort_fold_descending. constructor.
  - intros k. unfold Array_sort. now rewrite sort_fold_stable.
Qed.

End SortFacts.

(** ** The sort of the engine *)

Lemma reorder_seq {A} (l : list A) (j n : nat) :
  omap (fun i => l !! i) (seq j n) = take n (drop j l).
Proof.
  revert j. induction n as [|n IH]; intros j; [now rewrite take_0|].
  change (seq j (S n)) with (j :: seq (S j) n).
  assert (Hcons : forall (i : nat) (rest : list nat),
             omap (fun i => l !! i) (i :: rest)
             = match l !! i with
               | Some x => x :: omap (fun i => l !! i) rest
               | None => omap (fun i => l !! i) rest
               end) by reflexivity.
  rewrite Hcons, IH.
  destruct (l !! j) as [x|] eqn:E.
  - rewrite (drop_S _ _ _ E). reflexivity.
  - apply lookup_ge_None in E.
    rewrite !drop_ge by lia. now rewrite !take_nil.
Qed.

Lemma reorder_perm {A} (l : list A) (order : list nat) :
  order ≡ₚ seq 0 (length l) -> l ≡ₚ omap (fun i => l !! i) order.
Proof.
  intros ->. rewrite reorder_seq, drop_0, take_ge by lia. reflexivity.
Qed.

(** Whatever the comparator and the engine, the sort only reorders. *)
Lemma Array_prototype_sort_perm (host : Host) {A} (lt : A -> A -> bool) (l : list A) :
  Permutation l (Array_prototype_sort host lt l).
Proof.
  unfold Array_prototype_sort. destruct (consistent lt l); [apply Array_sort_perm|].
  cbv zeta. case_bool_decide as Horder; [|reflexivity].
  now apply reorder_perm.
Qed.

Lemma Array_prototype_sort_consistent (host : Host) {A} (lt : A -> A -> bool)
    (l : list A) :
  consistent lt l = true -> Array_prototype_sort host lt l = Array_sort lt l.
Proof. intros H. unfold Array_prototype_sort. now rewrite H. Qed.

(* ===================================================================== *)
(** * Properties: the order of the display rows *)
(* ===================================================================== *)

Lemma receivedBefore_key (host : Host) (a b : DisplayRow) :
  parsable host a -> parsable host b ->
  receivedBefore host a b = key_lt (receivedTime host) a b.
Proof.
  intros [ta Ha] [tb Hb]. unfold receivedBefore, key_lt, receivedTime.
  now rewrite Ha, Hb.
Qed.

Lemma receivedBefore_unparsable (host : Host) (x : DisplayRow) :
  Date_parse host (dateReceived x) = None ->
  (forall y, receivedBefore host x y = false)
  /\ (forall y, receivedBefore host y x = false).
Proof.
  intros H. unfold receivedBefore. rewrite H. split; intros y; [reflexivity|].
  now destruct (Date_parse host (dateReceived y)).
Qed.

Lemma receivedBefore_consistent (host : Host) (rows : list DisplayRow) :
  Forall (parsable host) rows -> consistent (receivedBefore host) rows = true.
Proof.
  intros Hall. rewrite List.Forall_forall in Hall.
  apply (consistent_ext (key_lt (receivedTime host))); [|apply consistent_key].
  intros a b Ha Hb. symmetry. apply receivedBefore_key; auto.
Qed.

(** An undated row between two rows of different dates: the results of the
    comparator are those of no consistent comparator. *)
Lemma receivedBefore_inconsistent (host : Host) (rows : list DisplayRow)
    (a x b : DisplayRow) (ta tb : Z) :
  In a rows -> In x rows -> In b rows ->
  Date_parse host (dateReceived x) = None ->
  Date_parse host (dateReceived a) = Some ta ->
  Date_parse host (dateReceived b) = Some tb ->
  ta < tb ->
  consistent (receivedBefore host) rows = false.
Proof.
  intros Ha Hx Hb Dx Da Db Hlt.
  destruct (consistent (receivedBefore host) rows) eqn:E; [|reflexivity].
  apply consistent_spec in E. destruct E as [_ Htr].
  destruct (Htr a x b Ha Hx Hb) as [_ Heq].
  destruct (receivedBefore_unparsable host x Dx) as [Hxy Hyx].
  destruct (Heq (Hyx a) (Hxy a) (Hxy b) (Hyx b)) as [Hab _].
  unfold receivedBefore in Hab. rewrite Da, Db in Hab.
  apply Z.ltb_ge in Hab. lia.
Qed.

(** C6, as the script has it.  The combine step returns the rows of the
    transactional messages sorted with the comparator
    [new Date(a.dateReceived) - new Date(b.dateReceived)].  The result is
    always a reordering of the rows.  When every received date parses it is
    ascending by date and stable (rows of one date keep their input order).
    A row whose date does not parse has no sentinel: the comparator is never
    below zero for a pair with it.  Two rows of which one does not parse are
    left as they stand.  When such a row stands among rows of two different
    dates the comparator is not consistent, and the order of the result is
    the one the engine's sort leaves, not one the script fixes. *)
Theorem combine_sort_order (host : Host) :
  let sorted := Array_prototype_sort host (receivedBefore host) in
  (forall repo st rows st',
      generateCombinedDisplayData host repo st = Done rows st' ->
      exists combined,
        combine_rows host repo (allMsg02s repo ++ allMsg05s repo ++ allMsg07s repo) [] st
        = Done combined st'
        /\ rows = sorted combined)
  /\ (forall rows, Permutation rows (sorted rows))
  /\ (forall rows,
        Forall (parsable host) rows ->
        ascending (receivedTime host) (sorted rows)
        /\ forall t, with_key (receivedTime host) t (sorted rows)
                     = with_key (receivedTime host) t rows)
  /\ (forall a b,
        Date_parse host (dateReceived a) = None
        \/ Date_parse host (dateReceived b) = None ->
        receivedBefore host a b = false
        /\ receivedBefore host b a = false
        /\ sorted [a; b] = [a; b])
  /\ (forall rows a x b ta tb,
        In a rows -> In x rows -> In b rows ->
        Date_parse host (dateReceived x) = None ->
        Date_parse host (dateReceived a) = Some ta ->
        Date_parse host (dateReceived b) = Some tb ->
        ta < tb ->
        consistent (receivedBefore host) rows = false
        /\ sorted rows
           = let order := sort_order host (comparisons (receivedBefore host) rows) in
             if bool_decide (order ≡ₚ seq 0 (length rows))
             then omap (fun i => rows !! i) order
             else rows).
Proof.
  intros sorted. unfold sorted. split; [|split; [|split; [|split]]].
  - intros repo st rows st'. unfold generateCombinedDisplayData, bind, ret.
    destruct (combine_rows host repo _ [] st) as [combined st1| |]; try discriminate.
    intros [= <- <-]. eauto.
  - intros rows. apply Array_prototype_sort_perm.
  - intros rows Hall.
    rewrite Array_prototype_sort_consistent by now apply receivedBefore_consistent.
    rewrite (Array_sort_ext (receivedBefore host) (key_lt (receivedTime host))).
    + apply Array_sort_key.
    + rewrite List.Forall_forall in Hall.
      intros a b Ha Hb. apply receivedBefore_key; auto.
  - intros a b Hab.
    assert (H1 : receivedBefore host a b = false).
    { destruct Hab as [H|H]; now apply (receivedBefore_unparsable host _ H). }
    assert (H2 : receivedBefore host b a = false).
    { destruct Hab as [H|H]; now apply (receivedBefore_unparsable host _ H). }
    assert (Hself : forall r, receivedBefore host r r = false).
    { intros r. unfold receivedBefore.
      destruct (Date_parse host (dateReceived r)); [|reflexivity].
      apply Z.ltb_ge. lia. }
    split; [exact H1|]. split; [exact H2|].
    rewrite Array_prototype_sort_consistent.
    + unfold Array_sort. simpl. now rewrite H2.
    + unfold consistent. simpl. now rewrite !Hself, H1, H2.
  - intros rows a x b ta tb Ha Hx Hb Dx Da Db Hlt.
    pose proof (receivedBefore_inconsistent host rows a x b ta tb Ha Hx Hb Dx Da Db Hlt)
      as Hin.
    split; [exact Hin|]. unfold Array_prototype_sort. now rewrite Hin.
Qed.

Example sort_dated_rows :
  Array_prototype_sort sample_host (receivedBefore sample_host)
    [row_jan3; row_jan1; row_jan1_later]
  = [row_jan1; row_jan1_later; row_jan3].
Proof. vm_compute. reflexivity. Qed.

(** With an undated row between rows of two dates the result is the
    engine's: two engines that differ there leave the rows differently. *)
Example sort_left_to_the_engine :
  Array_prototype_sort sample_host (receivedBefore sample_host)
    [row_jan3; row_undated; row_jan1]
  = [row_jan3; row_undated; row_jan1]
  /\ Array_prototype_sort reversing_host (receivedBefore reversing_host)
       [row_jan3; row_undated; row_jan1]
     = [row_jan1; row_undated; row_jan3].
Proof. split; vm_compute; reflexivity. Qed.

Lemma combine_sort_order_witness :
  ascending (receivedTime sample_host)
    (Array_prototype_sort sample_host (receivedBefore sample_host)
       [row_jan3; row_jan1; row_jan1_later])
  /\ Array_prototype_sort sample_host (receivedBefore sample_host) [row_jan3; row_undated]
     = [row_jan3; row_undated]
  /\ consistent (receivedBefore sample_host) [row_jan1; row_undated; row_jan3] = false.
Proof.
  destruct (combine_sort_order sample_host) as (_ & _ & Hsorted & Hpair & Hengine).
  split; [|split].
  - apply Hsorted. repeat constructor; vm_compute; eauto.
  - apply Hpair. right. vm_compute. reflexivity.
  - eapply proj1, (Hengine _ row_jan1 row_undated row_jan3).
    + now left.
    + right. now left.
    + right. right. now left.
    + vm_compute. reflexivity.
    + vm_compute. reflexivity.
    + vm_compute. reflexivity.
    + reflexivity.
Defined.

(** C6 as stated fails: of these two messages the second has no DateTime,
    so its received date is empty and does not parse; its row stays behind
    the row of 2 January instead of coming first, whatever the engine does
    with arrays it cannot sort. *)
Lemma unparsable_date_counterexample :
  let dated := row_of_date (Some (js "1")) (Some (js "2024-01-02T09:00:00")) in
  let undated := row_of_date (Some (js "2")) None in
  (exists st,
      processFiles sample_host
        [Return (Transactional (usd_msg (Some (js "1")) (Some (js "2024-01-02T09:00:00"))));
         Return (Transactional (usd_msg (Some (js "2")) None))] []
      = Done [dated; undated] st)
  /\ dateReceived dated = js "2024-01-02"
  /\ dateReceived undated = js ""
  /\ ~ unparsable_first sample_host [dated; undated]
  /\ (exists st,
        processFiles reversing_host
          [Return (Transactional (usd_msg (Some (js "1")) (Some (js "2024-01-02T09:00:00"))));
           Return (Transactional (usd_msg (Some (js "2")) None))] []
        = Done [dated; undated] st).
Proof.
  intros dated undated.
  split; [eexists; vm_compute; reflexivity|].
  split; [vm_compute; reflexivity|]. split; [vm_compute; reflexivity|].
  split; [|eexists; vm_compute; reflexivity].
  intros H.
  assert (Hlt : (1 < 0)%nat).
  { apply (H 1%nat 0%nat undated dated); [reflexivity|reflexivity| |].
    - vm_compute. reflexivity.
    - vm_compute. eauto. }
  lia.
Qed.

(* ===================================================================== *)
(** * Properties: the join with the seller agreements *)
(* ===================================================================== *)





Example cover_request_without_agreement :
  exists row,
    buildRow sample_host emptyRepository sample_msg05 eur_cached = Done row eur_cached
    /\ industryProduct row = VStr []
    /\ amountReqUSD row = VNum (num_of_text "1630.4347826086955")
    /\ messageType row = VStr (js "5").
Proof. eexists. split; [vm_compute; reflexivity|]. split; [|split]; reflexivity. Qed.

(* ===================================================================== *)
(** * Properties: the seller agreement store *)
(* ===================================================================== *)

Lemma registerAll_snoc (nodes : list (completion Instance)) (node : completion Instance) :
  registerAll (nodes ++ [node]) = register (registerAll nodes) node.
Proof. unfold registerAll. now rewrite fold_left_app. Qed.

Lemma agreements_snoc (nodes : list (completion Instance)) (node : completion Instance) :
  agreements (nodes ++ [node])
  = agreements nodes ++ match node with
                        | Return (Seller_agreement m) => [m]
                        | _ => []
                        end.
Proof. unfold agreements. rewrite flat_map_app. simpl. now rewrite app_nil_r. Qed.

(** Of the agreements registered under a key the store holds the last. *)
Lemma registerAll_lookup (nodes : list (completion Instance)) (k : jsstring) :
  allMsg01s (registerAll nodes) !! k = last (agreements_of_key k nodes).
Proof.
  induction nodes as [|node nodes IH] using rev_ind.
  - reflexivity.
  - rewrite registerAll_snoc. unfold agreements_of_key in *.
    rewrite agreements_snoc, List.filter_app.
    destruct node as [[m|msg]|e]; simpl.
    + rewrite lookup_insert. case_decide as Hk.
      * apply jsstring_eqb_eq in Hk. rewrite Hk. now rewrite last_snoc.
      * apply jsstring_eqb_neq in Hk. rewrite Hk. now rewrite app_nil_r.
    + rewrite app_nil_r. now destruct (type msg).
    + now rewrite app_nil_r.
Qed.

Lemma registerAll_transactions (nodes : list (completion Instance)) :
  allMsg02s (registerAll nodes) = transactions MSG02 nodes
  /\ allMsg05s (registerAll nodes) = transactions MSG05 nodes
  /\ allMsg07s (registerAll nodes) = transactions MSG07 nodes.
Proof.
  induction nodes as [|node nodes (IH2 & IH5 & IH7)] using rev_ind.
  - repeat split.
  - rewrite registerAll_snoc. unfold transactions in *. rewrite !flat_map_app. simpl.
    rewrite !app_nil_r.
    destruct node as [[m|msg]|e]; simpl; rewrite ?app_nil_r; auto.
    destruct (type msg); simpl; rewrite ?app_nil_r, ?IH2, ?IH5, ?IH7; auto.
Qed.

Lemma app_separator_inj (c : N) (s s' t t' : jsstring) :
  ~ In c s -> ~ In c s' -> s ++ c :: t = s' ++ c :: t' -> s = s' /\ t = t'.
Proof.
  revert s'. induction s as [|a s IH]; intros [|a' s'] Hs Hs' E; simpl in E.
  - injection E as ->. auto.
  - injection E as <- _. exfalso. apply Hs'. now left.
  - injection E as -> _. exfalso. apply Hs. now left.
  - injection E as <- E. destruct (IH s') as [-> ->]; auto.
    + intros H. apply Hs. now right.
    + intros H. apply Hs'. now right.
Qed.

(** Keys of sender codes without an underscore tell the pairs apart. *)
Lemma joinKey_inj (senderCode sellerNr senderCode' sellerNr' : jsstring) :
  ~ In underscore senderCode -> ~ In underscore senderCode' ->
  joinKey (Some senderCode) (Some sellerNr) = joinKey (Some senderCode') (Some sellerNr') ->
  senderCode = senderCode' /\ sellerNr = sellerNr'.
Proof. intros H H'. apply app_separator_inj; assumption. Qed.

(** C8, as the script has it.  The store keeps one seller agreement per key
    text, the sender code and the seller number joined by an underscore (an
    absent code is the text "null"), the last one registered under it, and
    registering under a key that is taken is no error: right after a decoded
    MSG01 is registered, looking the store up with the sender code and seller
    number of that document returns that record; a second document of the
    same key replaces it and the store does not grow; after a whole run the
    record of a key is the last agreement decoded with that key.  Two
    documents whose sender codes hold no underscore and whose pairs of sender
    code and seller number differ have different keys, and the store keeps
    them apart.  Transactional messages pile up in arrival order. *)
Theorem seller_store (repo : Repository) (m : MSG01) :
  lookupSeller (register repo (Return (Seller_agreement m)))
    (SenderCode (msgInfo01 m)) (SellerNr (seller01 m)) = Some m
  /\ (forall m2,
        key01 m2 = key01 m ->
        let repo1 := register repo (Return (Seller_agreement m)) in
        let repo2 := register repo1 (Return (Seller_agreement m2)) in
        lookupSeller repo2 (SenderCode (msgInfo01 m)) (SellerNr (seller01 m)) = Some m2
        /\ size (allMsg01s repo2) = size (allMsg01s repo1))
  /\ (forall k, k <> key01 m ->
        allMsg01s (register repo (Return (Seller_agreement m))) !! k = allMsg01s repo !! k)
  /\ (forall nodes k,
        allMsg01s (registerAll nodes) !! k = last (agreements_of_key k nodes))
  /\ (forall nodes, NoDup (List.map fst (map_to_list (allMsg01s (registerAll nodes)))))
  /\ (forall nodes,
        allMsg02s (registerAll nodes) = transactions MSG02 nodes
        /\ allMsg05s (registerAll nodes) = transactions MSG05 nodes
        /\ allMsg07s (registerAll nodes) = transactions MSG07 nodes)
  /\ (forall senderCode sellerNr : jsstring,
        joinKey (Some senderCode) (Some sellerNr)
        = senderCode ++ [underscore] ++ sellerNr
        /\ joinKey None (Some sellerNr) = js "null" ++ [underscore] ++ sellerNr
        /\ joinKey (Some senderCode) None = senderCode ++ [underscore] ++ js "null")
  /\ (forall senderCode sellerNr senderCode' sellerNr' : jsstring,
        ~ In underscore senderCode -> ~ In underscore senderCode' ->
        joinKey (Some senderCode) (Some sellerNr)
        = joinKey (Some senderCode') (Some sellerNr') ->
        senderCode = senderCode' /\ sellerNr = sellerNr')
  /\ (forall m2 senderCode sellerNr senderCode2 sellerNr2,
        SenderCode (msgInfo01 m) = Some senderCode ->
        SellerNr (seller01 m) = Some sellerNr ->
        SenderCode (msgInfo01 m2) = Some senderCode2 ->
        SellerNr (seller01 m2) = Some sellerNr2 ->
        ~ In underscore senderCode -> ~ In underscore senderCode2 ->
        (senderCode, sellerNr) <> (senderCode2, sellerNr2) ->
        let repo2 := register (register repo (Return (Seller_agreement m)))
                       (Return (Seller_agreement m2)) in
        lookupSeller repo2 (Some senderCode) (Some sellerNr) = Some m
        /\ lookupSeller repo2 (Some senderCode2) (Some sellerNr2) = Some m2).
Proof.
  split; [|split; [|split; [|split; [|split; [|split; [|split; [|split]]]]]]].
  - unfold lookupSeller. simpl. fold (key01 m). apply lookup_insert_eq.
  - intros m2 Hk repo1 repo2. unfold lookupSeller, repo2, repo1. simpl.
    fold (key01 m). rewrite Hk. split; [apply lookup_insert_eq|].
    rewrite insert_insert_eq.
    rewrite !map_size_insert. reflexivity.
  - intros k Hk. simpl. now apply lookup_insert_ne.
  - exact registerAll_lookup.
  - intros nodes. apply NoDup_fst_map_to_list.
  - exact registerAll_transactions.
  - intros senderCode sellerNr. split; [|split]; reflexivity.
  - exact joinKey_inj.
  - intros m2 s n s2 n2 Hs Hn Hs2 Hn2 Hu Hu2 Hne repo2.
    unfold lookupSeller, repo2. cbn [register allMsg01s].
    unfold key01. rewrite Hs, Hn, Hs2, Hn2.
    assert (Hkeys : joinKey (Some s2) (Some n2) <> joinKey (Some s) (Some n)).
    { intros E. destruct (joinKey_inj _ _ _ _ Hu2 Hu E) as [-> ->]. now apply Hne. }
    split.
    + rewrite lookup_insert_ne by exact Hkeys. apply lookup_insert_eq.
    + apply lookup_insert_eq.
Qed.

(** Two agreements of one pair: the later replaces the earlier.  Two
    agreements of one sender and two sellers: both are kept. *)
Lemma seller_store_witness :
  (let repo1 := register emptyRepository (Return (Seller_agreement (sample_msg01 "Textiles"))) in
   let repo2 := register repo1 (Return (Seller_agreement (sample_msg01 "Denim"))) in
   lookupSeller repo2 (Some (js "F1")) (Some (js "S9")) = Some (sample_msg01 "Denim")
   /\ size (allMsg01s repo2) = size (allMsg01s repo1))
  /\ (let repo2 :=
        register (register emptyRepository
                    (Return (Seller_agreement (agreement_of "F1" "S9" "Textiles"))))
          (Return (Seller_agreement (agreement_of "F1" "S10" "Denim"))) in
      lookupSeller repo2 (Some (js "F1")) (Some (js "S9"))
      = Some (agreement_of "F1" "S9" "Textiles")
      /\ lookupSeller repo2 (Some (js "F1")) (Some (js "S10"))
         = Some (agreement_of "F1" "S10" "Denim")).
Proof.
  split.
  - destruct (seller_store emptyRepository (sample_msg01 "Textiles")) as (_ & H & _).
    apply (H (sample_msg01 "Denim")). reflexivity.
  - destruct (seller_store emptyRepository (agreement_of "F1" "S9" "Textiles"))
      as (_ & _ & _ & _ & _ & _ & _ & _ & H).
    apply (H (agreement_of "F1" "S10" "Denim") (js "F1") (js "S9") (js "F1") (js "S10"));
      try reflexivity.
    + vm_compute. intros E. decompose [or] E; try discriminate; assumption.
    + vm_compute. intros E. decompose [or] E; try discriminate; assumption.
    + discriminate.
Defined.

(** C8 as stated fails: the pairs (A_B, C) and (A, B_C) are two composite
    keys, yet their key texts are the same; after both agreements are
    decoded the store holds one record, and the lookup with the first
    document's own sender code and seller number returns the second
    document. *)
Lemma key_collision_counterexample :
  let first := agreement_of "A_B" "C" "Textiles" in
  let second := agreement_of "A" "B_C" "Denim" in
  let repo := registerAll [Return (Seller_agreement first);
                           Return (Seller_agreement second)] in
  (SenderCode (msgInfo01 first), SellerNr (seller01 first))
  <> (SenderCode (msgInfo01 second), SellerNr (seller01 second))
  /\ lookupSeller repo (SenderCode (msgInfo01 first)) (SellerNr (seller01 first))
     = Some second
  /\ second <> first
  /\ size (allMsg01s repo) = 1%nat.
Proof.
  intros first second repo.
  split; [discriminate|]. split; [reflexivity|]. split; [discriminate|].
  reflexivity.
Qed.

(** The key is the text of the two codes joined by an underscore, so two
    pairs can share it, and an absent code is the text "null". *)
Example joinKey_shared :
  joinKey (Some (js "A_B")) (Some (js "C")) = joinKey (Some (js "A")) (Some (js "B_C"))
  /\ joinKey None (Some (js "S9")) = joinKey (Some (js "null")) (Some (js "S9")).
Proof. split; reflexivity. Qed.

(** The scenario of the specification: one agreement of sender F1 and seller
    S9 and one cover request of the same pair give one row, with the product
    of the agreement and the message type 5. *)
Example join_scenario :
  exists row st,
    processFiles sample_host
      [Return (Seller_agreement (sample_msg01 "Textiles"));
       Return (Transactional sample_msg05)] [Some (js "0.92")]
    = Done [row] st
    /\ industryProduct row = VStr (js "Textiles")
    /\ messageType row = VStr (js "5").
Proof.
  eexists _, _. split; [vm_compute; reflexivity|]. split; reflexivity.
Qed.

(* ===================================================================== *)
(** * Further properties: locating the header and the columns *)
(* ===================================================================== *)

Lemma findHeaderRow_loop_absent (lines : list jsstring) (target : jsstring) (i : Z) :
  0 <= i ->
  (findHeaderRow_loop lines target i = -1
   <-> forall line, In line lines -> squash line <> target).
Proof.
  revert i. induction lines as [|l lines IH]; intros i Hi; simpl.
  - split; [intros _ line []|reflexivity].
  - destruct (jsstring_eqb (squash l) target) eqn:E.
    + apply jsstring_eqb_eq in E. split; [lia|].
      intros H. exfalso. apply (H l); auto.
    + apply jsstring_eqb_neq in E. rewrite IH by lia. split.
      * intros H line [<-|Hin]; auto.
      * intros H line Hin. apply H. now right.
Qed.

Lemma findHeaderRow_pattern (content : jsstring) (ft : fileType) :
  findHeaderRow content ft = findHeaderRow_loop (split_lines content) (headerPattern ft) 0.
Proof. unfold findHeaderRow, headerPattern. now destruct ft. Qed.

Lemma findHeaderRow_line (content : jsstring) (ft : fileType) :
  findHeaderRow content ft <> -1 ->
  exists (h : nat) (line : jsstring),
    findHeaderRow content ft = Z.of_nat h + 1
    /\ split_lines content !! h = Some line
    /\ squash line = headerPattern ft
    /\ forall (j : nat) (line' : jsstring),
         (j < h)%nat -> split_lines content !! j = Some line' ->
         squash line' <> headerPattern ft.
Proof.
  rewrite findHeaderRow_pattern. intros Hne.
  destruct (findHeaderRow_loop_found _ (headerPattern ft) 0 _ ltac:(lia) eq_refl Hne)
    as (h & Hh & line & Hl & Hs & Hmin).
  exists h, line. split; [lia|]. auto.
Qed.

(** X1. [findHeaderRow] returns [-1] exactly when no line of the text, with
    its white space removed, is the header signature of the report kind;
    otherwise it returns the 1-based number of the first such line. *)
Theorem header_row_first_match (content : jsstring) (ft : fileType) :
  let lines := split_lines content in
  (findHeaderRow content ft = -1
   <-> forall line, In line lines -> squash line <> headerPattern ft)
  /\ (findHeaderRow content ft <> -1 ->
      exists (h : nat) (line : jsstring),
        findHeaderRow content ft = Z.of_nat h + 1
        /\ lines !! h = Some line
        /\ squash line = headerPattern ft
        /\ forall (j : nat) (line' : jsstring),
             (j < h)%nat -> lines !! j = Some line' -> squash line' <> headerPattern ft).
Proof.
  intros lines. split.
  - rewrite findHeaderRow_pattern. apply findHeaderRow_loop_absent. lia.
  - apply findHeaderRow_line.
Qed.

Lemma header_row_first_match_witness :
  findHeaderRow sample_report Commission <> -1
  /\ exists (h : nat) (line : jsstring),
       findHeaderRow sample_report Commission = Z.of_nat h + 1
       /\ split_lines sample_report !! h = Some line
       /\ squash line = headerPattern Commission.
Proof.
  assert (H : findHeaderRow sample_report Commission <> -1) by (vm_compute; discriminate).
  split; [exact H|].
  destruct (header_row_first_match sample_report Commission) as (_ & Hfound).
  destruct (Hfound H) as (h & line & H1 & H2 & H3 & _).
  exists h, line. auto.
Defined.

Lemma findColumnSeparators_short (content : jsstring) (ft : fileType) (h : nat) :
  split_lines content !! (h + 4)%nat = None ->
  findColumnSeparators content (Z.of_nat h + 1) (Some ft) = Return None.
Proof.
  intros Hd. unfold findColumnSeparators. apply lookup_ge_None in Hd.
  destruct (Z.of_nat h + 1 + 4 - 1 <? Z.of_nat (length (split_lines content))) eqn:E.
  - apply Z.ltb_lt in E. lia.
  - now rewrite andb_false_r.
Qed.

Lemma findColumnSeparators_located (content : jsstring) (ft : fileType) :
  exists separators,
    findColumnSeparators content (findHeaderRow content ft) (Some ft) = Return separators.
Proof.
  destruct (Z.eq_dec (findHeaderRow content ft) (-1)) as [E|E].
  - rewrite E. unfold findColumnSeparators. simpl. eauto.
  - destruct (findHeaderRow_line content ft E) as (h & line & -> & Hl & _).
    destruct (split_lines content !! (h + 4)%nat) as [dataLine|] eqn:Hd.
    + rewrite (findColumnSeparators_at content ft h line dataLine Hl Hd).
      destruct (find_at isCodeAt dataLine 0); eauto.
    + rewrite findColumnSeparators_short by exact Hd. eauto.
Qed.

(** X2. For a header row that [findHeaderRow] returns, [findColumnSeparators]
    never throws, and for the row [-1] (no header) it returns null.  So when
    the two uploads classify as Volume and Commission the handler always
    reaches the display step, never the read-error alert: it shows the three
    tables built from the separators found, which are the error paragraphs
    when a header or a code is not found. *)
Theorem upload_always_displays (host : Host)
    (volumeName volumeFileContent commissionName commissionFileContent : jsstring) :
  (forall content ft,
      exists separators,
        findColumnSeparators content (findHeaderRow content ft) (Some ft)
        = Return separators)
  /\ (forall content ft, findColumnSeparators content (-1) ft = Return None)
  /\ (validateDataUpload host volumeFileContent = Some Volume ->
      validateDataUpload host commissionFileContent = Some Commission ->
      exists volumeSeparators commissionSeparators,
        findColumnSeparators volumeFileContent
          (findHeaderRow volumeFileContent Volume) (Some Volume) = Return volumeSeparators
        /\ findColumnSeparators commissionFileContent
             (findHeaderRow commissionFileContent Commission) (Some Commission)
           = Return commissionSeparators
        /\ processReports host volumeName volumeFileContent commissionName commissionFileContent
           = Displayed
               (generateTableHTML (js "Volume Report") volumeFileContent volumeSeparators)
               (generateTableHTML (js "Commission Report") commissionFileContent
                  commissionSeparators)
               (generateVolumeLinkTable host volumeFileContent volumeSeparators)
        /\ (findHeaderRow volumeFileContent Volume = -1 ->
            volumeSeparators = None)).
Proof.
  split; [exact findColumnSeparators_located|]. split.
  - intros content [ft|]; reflexivity.
  - intros Hv Hc.
    destruct (findColumnSeparators_located volumeFileContent Volume) as [sv Hsv].
    destruct (findColumnSeparators_located commissionFileContent Commission) as [sc Hsc].
    exists sv, sc. split; [exact Hsv|]. split; [exact Hsc|]. split.
    + unfold processReports. rewrite Hv, Hc, Hsc, Hsv. reflexivity.
    + intros E. rewrite E in Hsv. unfold findColumnSeparators in Hsv. simpl in Hsv.
      congruence.
Qed.

Lemma upload_always_displays_witness :
  exists volumeSeparators commissionSeparators,
    processReports sample_host (js "v.txt") sample_volume_report (js "c.txt") sample_report
    = Displayed
        (generateTableHTML (js "Volume Report") sample_volume_report volumeSeparators)
        (generateTableHTML (js "Commission Report") sample_report commissionSeparators)
        (generateVolumeLinkTable sample_host sample_volume_report volumeSeparators).
Proof.
  destruct (upload_always_displays sample_host (js "v.txt") sample_volume_report
              (js "c.txt") sample_report) as (_ & _ & H).
  destruct H as (sv & sc & _ & _ & Hp & _); [vm_compute; reflexivity|vm_compute; reflexivity|].
  exists sv, sc. exact Hp.
Defined.

(** ** The recorded column offsets *)

Lemma dict_set_In {V} (d : dict V) (k k' : jsstring) (v v' : V) :
  In (k', v') (dict_set d k v) -> (k' = k /\ v' = v) \/ In (k', v') d.
Proof.
  induction d as [|[k0 v0] d IH]; simpl.
  - intros [[= <- <-]|[]]. auto.
  - destruct (jsstring_eqb k0 k) eqn:E.
    + apply jsstring_eqb_eq in E. subst k0.
      intros [[= <- <-]|H]; auto.
    + intros [H|H]; auto. destruct (IH H); auto.
Qed.

Lemma dict_set_keys {V} (d : dict V) (k k' : jsstring) (v : V) :
  In k' (List.map fst (dict_set d k v)) -> k' = k \/ In k' (List.map fst d).
Proof.
  rewrite !in_map_iff. intros ([k0 v0] & <- & Hin).
  destruct (dict_set_In _ _ _ _ _ Hin) as [[-> _]|H]; [now left|].
  right. exists (k0, v0). auto.
Qed.

Lemma dict_set_NoDup {V} (d : dict V) (k : jsstring) (v : V) :
  List.NoDup (List.map fst d) -> List.NoDup (List.map fst (dict_set d k v)).
Proof.
  induction d as [|[k0 v0] d IH]; simpl.
  - intros _. constructor; [intros []|constructor].
  - intros H. inversion H as [|? ? Hk0 Hd]; subst.
    destruct (jsstring_eqb k0 k) eqn:E; simpl.
    + constructor; assumption.
    + apply jsstring_eqb_neq in E. constructor; [|auto].
      intros Hin. destruct (dict_set_keys _ _ _ _ Hin); congruence.
Qed.

Lemma record_terms_spec (text : jsstring) (terms : list jsstring) (d : dict Z)
    (R : jsstring -> Z -> Prop) :
  (forall name idx, In name terms -> title_at text name idx -> R name idx) ->
  (forall name idx, In (name, idx) d -> R name idx) ->
  List.NoDup (List.map fst d) ->
  (forall name idx, In (name, idx) (record_terms text terms d) -> R name idx)
  /\ List.NoDup (List.map fst (record_terms text terms d)).
Proof.
  unfold record_terms. revert d.
  induction terms as [|term terms IH]; intros d Hnew Hold Hnd; simpl; [auto|].
  apply IH.
  - intros name idx Hin. apply Hnew. now right.
  - destruct (indexOf text term =? -1) eqn:E; [exact Hold|].
    apply Z.eqb_neq in E. intros name idx Hin.
    destruct (dict_set_In _ _ _ _ _ Hin) as [[-> ->]|H]; [|now apply Hold].
    apply Hnew; [now left|].
    destruct (indexOf_found text term _ eq_refl E) as (k & Hk & _ & Hp & _).
    split; [lia|]. rewrite Hk. now rewrite Nat2Z.id.
  - destruct (indexOf text term =? -1); [exact Hnd|]. now apply dict_set_NoDup.
Qed.

(** X3. In the column map of a located report every data column has a
    distinct title, the title is one the locator looks for, its offset is not
    negative, and the title stands at that offset in the header line or, for
    the three secondary titles only, possibly in the line after it. *)
Theorem column_offsets_point_at_titles (content : jsstring) (ft : fileType)
    (separators : Separators) :
  findHeaderRow content ft <> -1 ->
  findColumnSeparators content (findHeaderRow content ft) (Some ft)
  = Return (Some separators) ->
  exists (h : nat) (headerLine : jsstring),
    findHeaderRow content ft = Z.of_nat h + 1
    /\ split_lines content !! h = Some headerLine
    /\ List.NoDup (List.map fst (dataColumnIndices separators))
    /\ forall name idx,
         In (name, idx) (dataColumnIndices separators) ->
         (In name (dataColumnTerms ft) /\ title_at headerLine name idx)
         \/ (In name secondaryTerms
             /\ (title_at headerLine name idx
                 \/ exists nextLine, split_lines content !! (h + 1)%nat = Some nextLine
                                     /\ title_at nextLine name idx)).
Proof.
  intros Hne Hsep.
  destruct (findHeaderRow_line content ft Hne) as (h & headerLine & Hh & Hl & _).
  exists h, headerLine. split; [exact Hh|]. split; [exact Hl|].
  rewrite Hh in Hsep.
  destruct (split_lines content !! (h + 4)%nat) as [dataLine|] eqn:Hd;
    [|rewrite findColumnSeparators_short in Hsep by exact Hd; discriminate].
  rewrite (findColumnSeparators_at content ft h headerLine dataLine Hl Hd) in Hsep.
  destruct (find_at isCodeAt dataLine 0) as [k|]; [|discriminate].
  injection Hsep as <-. cbn [dataColumnIndices].
  set (R := fun name idx =>
    (In name (dataColumnTerms ft) /\ title_at headerLine name idx)
    \/ (In name secondaryTerms
        /\ (title_at headerLine name idx
            \/ exists nextLine, split_lines content !! (h + 1)%nat = Some nextLine
                                /\ title_at nextLine name idx))).
  destruct (record_terms_spec headerLine (dataColumnTerms ft) [] R) as [H1 N1].
  { intros name idx Hin Ht. left. auto. }
  { intros name idx []. }
  { constructor. }
  unfold record_secondary. cbn [fold_left].
  rewrite line_at_nat, Hl.
  assert (Hstep1 :
    (forall name idx,
        In (name, idx)
           (if jsstring_eqb headerLine [] then record_terms headerLine (dataColumnTerms ft) []
            else record_terms headerLine secondaryTerms
                   (record_terms headerLine (dataColumnTerms ft) [])) -> R name idx)
    /\ List.NoDup (List.map fst
           (if jsstring_eqb headerLine [] then record_terms headerLine (dataColumnTerms ft) []
            else record_terms headerLine secondaryTerms
                   (record_terms headerLine (dataColumnTerms ft) [])))).
  { destruct (jsstring_eqb headerLine []); [auto|].
    apply record_terms_spec; auto.
    intros name idx Hin Ht. right. auto. }
  destruct Hstep1 as [H2 N2].
  replace (Z.of_nat h + 1) with (Z.of_nat (h + 1)) by lia.
  rewrite line_at_nat.
  destruct (split_lines content !! (h + 1)%nat) as [nextLine|] eqn:Hn; [|split; assumption].
  destruct (jsstring_eqb nextLine []); [split; assumption|].
  destruct (record_terms_spec nextLine secondaryTerms
              (if jsstring_eqb headerLine [] then record_terms headerLine (dataColumnTerms ft) []
               else record_terms headerLine secondaryTerms
                      (record_terms headerLine (dataColumnTerms ft) [])) R)
    as [H3 N3]; auto.
  intros name idx Hin Ht. right. split; [exact Hin|]. right. eauto.
Qed.

Lemma column_offsets_point_at_titles_witness :
  exists (h : nat) (headerLine : jsstring),
    findHeaderRow sample_report Commission = Z.of_nat h + 1
    /\ split_lines sample_report !! h = Some headerLine
    /\ title_at headerLine (js "CURR MO") 15.
Proof.
  assert (Hne : findHeaderRow sample_report Commission <> -1) by (vm_compute; discriminate).
  destruct (column_offsets_point_at_titles sample_report Commission _ Hne
              sample_report_separators) as (h & headerLine & Hh & Hl & _ & Hall).
  exists h, headerLine. split; [exact Hh|]. split; [exact Hl|].
  destruct (Hall (js "CURR MO") 15) as [[_ Ht]|[Hin _]].
  - cbn [dataColumnIndices]. now left.
  - exact Ht.
  - exfalso. vm_compute in Hin.
    repeat (destruct Hin as [Hin|Hin]; [discriminate|]). exact Hin.
Defined.

(** X4. The data columns of a rendered table are the titles of the column
    map ordered by their offsets, left to right: a reordering of the entries
    of the map that is ascending in the offset and keeps the order of entries
    of one offset. *)
Theorem columns_ordered_by_offset (d : dict Z) :
  exists entries,
    sortedDataColumns d = List.map fst entries
    /\ Permutation d entries
    /\ ascending snd entries
    /\ forall offset, with_key snd offset entries = with_key snd offset d.
Proof.
  exists (Array_sort (key_lt snd) d). split; [reflexivity|].
  split; [apply Array_sort_perm|]. apply Array_sort_key.
Qed.

(* ===================================================================== *)
(** * Further properties: the rows of the rendered tables *)
(* ===================================================================== *)

Lemma trimStart_split (s : jsstring) :
  exists p, s = p ++ trimStart s.
Proof.
  induction s as [|c s [p IH]]; simpl.
  - now exists [].
  - destruct (isWhiteSpace c); [|now exists []].
    exists (c :: p). simpl. now rewrite <- IH.
Qed.

Lemma trimStart_head (s : jsstring) :
  match trimStart s with c :: _ => isWhiteSpace c = false | [] => True end.
Proof.
  induction s as [|c s IH]; simpl; [exact I|].
  destruct (isWhiteSpace c) eqn:E; [exact IH|exact E].
Qed.

Lemma trimEnd_split (s : jsstring) :
  exists q, s = trimEnd s ++ q.
Proof.
  unfold trimEnd. destruct (trimStart_split (rev s)) as [p Hp].
  exists (rev p). rewrite <- rev_app_distr, <- Hp. now rewrite rev_involutive.
Qed.

Lemma trim_split (s : jsstring) :
  exists p q, s = p ++ trim s ++ q.
Proof.
  unfold trim. destruct (trimStart_split s) as [p Hp].
  destruct (trimEnd_split (trimStart s)) as [q Hq].
  exists p, q. now rewrite <- Hq.
Qed.

Lemma trim_length (s : jsstring) : (length (trim s) <= length s)%nat.
Proof.
  destruct (trim_split s) as (p & q & H).
  rewrite H at 2. rewrite !length_app. lia.
Qed.

Lemma trim_no_edge_space (s : jsstring) : no_edge_space (trim s).
Proof.
  unfold no_edge_space, trim. split.
  - destruct (trimEnd_split (trimStart s)) as [q Hq].
    pose proof (trimStart_head s) as Hh. rewrite Hq in Hh.
    destruct (trimEnd (trimStart s)); [exact I|exact Hh].
  - unfold trimEnd. rewrite rev_involutive. apply trimStart_head.
Qed.

Lemma substring_length (s : jsstring) (a b : Z) :
  (length (substring s a b) <= Z.to_nat (Z.abs (b - a)))%nat.
Proof.
  unfold substring. rewrite length_take. lia.
Qed.

Lemma data_cell_width (line : jsstring) (d : dict Z) (name : jsstring) :
  (length (data_cell line d name) <= 15)%nat /\ no_edge_space (data_cell line d name).
Proof.
  unfold data_cell. destruct (dict_get d name) as [i|].
  - split; [|apply trim_no_edge_space].
    etransitivity; [apply trim_length|].
    etransitivity; [apply substring_length|]. lia.
  - split; [simpl; lia|]. now split.
Qed.

(** X5. Every body row of a rendered table is well formed: its group is one
    character that is not white space, its code is not empty and no longer
    than its bracket is wide, no field starts or ends with white space, it
    has one cell for each data column, and no cell is longer than 15
    characters.  The table has at most one row for each line of the text. *)
Theorem table_rows_well_formed (title content : jsstring) (seps : Separators)
    (columns : list jsstring) (rows : list Row) :
  generateTableHTML title content (Some seps) = Table title columns rows ->
  (length rows <= length (split_lines content))%nat
  /\ forall r, In r rows ->
       (exists c, rowGroup r = [c] /\ isWhiteSpace c = false)
       /\ rowCode r <> []
       /\ (length (rowCode r)
           <= Z.to_nat (Z.abs (end_ (codeBracket seps) - start (codeBracket seps))))%nat
       /\ no_edge_space (rowCode r)
       /\ no_edge_space (rowName r)
       /\ length (rowCells r) = length columns
       /\ forall cell, In cell (rowCells r) ->
            (length cell <= 15)%nat /\ no_edge_space cell.
Proof.
  unfold generateTableHTML. rewrite table_lines_filter. intros [= <- <-]. simpl. split.
  - rewrite length_map. apply List.filter_length_le.
  - intros r Hr. apply in_map_iff in Hr. destruct Hr as (line & <- & Hin).
    apply List.filter_In in Hin. destruct Hin as [_ Hrow].
    apply isDataRow_iff in Hrow. destruct Hrow as [Hg Hc].
    unfold rowOf; simpl. split; [|split; [|split; [|split; [|split; [|split]]]]].
    + pose proof (trim_no_edge_space (bracket_slice line (groupBracket seps))) as [Hh _].
      destruct (trim (bracket_slice line (groupBracket seps))) as [|c [|? ?]];
        try discriminate. eauto.
    + exact Hc.
    + etransitivity; [apply trim_length|]. apply substring_length.
    + apply trim_no_edge_space.
    + apply trim_no_edge_space.
    + apply length_map.
    + intros cell Hcell. apply in_map_iff in Hcell. destruct Hcell as (name & <- & _).
      apply data_cell_width.
Qed.

Lemma table_rows_well_formed_witness :
  exists columns rows,
    generateTableHTML (js "Commission Report") sample_report (Some sample_separators)
    = Table (js "Commission Report") columns rows
    /\ (length rows <= length (split_lines sample_report))%nat
    /\ forall r, In r rows -> length (rowCells r) = length columns.
Proof.
  eexists _, _. split; [vm_compute; reflexivity|].
  destruct (table_rows_well_formed (js "Commission Report") sample_report sample_separators
              _ _ eq_refl) as [Hlen Hrows].
  split; [exact Hlen|]. intros r Hr. apply (Hrows r Hr).
Defined.

(** ** The rows of the link table *)

Lemma Number_toString_nonempty (x : number) : Number_toString x ++ js "%" <> [].
Proof.
  intros H. apply (f_equal (@length N)) in H. rewrite length_app in H.
  simpl in H. lia.
Qed.

Lemma computePercentageDiff_nonempty (c p : value) : computePercentageDiff c p <> [].
Proof.
  unfold computePercentageDiff.
  destruct (parseNumericValue c); [|discriminate].
  destruct (parseNumericValue p); [|discriminate].
  destruct (_ || _); [discriminate|]. apply Number_toString_nonempty.
Qed.

Lemma link_cell_nonempty (line : jsstring) (indices : dict Z) (rowData : dict jsstring)
    (column : jsstring * jsstring * list jsstring) :
  link_cell line indices rowData column <> [].
Proof.
  destruct column as [[label key] fallbacks]. unfold link_cell.
  destruct (jsstring_eqb label _); [apply computePercentageDiff_nonempty|].
  destruct (jsstring_eqb label _); [apply computePercentageDiff_nonempty|].
  destruct (jsstring_eqb _ []) eqn:E; [discriminate|].
  now apply jsstring_eqb_neq in E.
Qed.

Lemma link_cells_nonempty (line : jsstring) (indices : dict Z)
    (columns : list (jsstring * jsstring * list jsstring)) (rowData : dict jsstring) :
  length (link_cells line indices rowData columns) = length columns
  /\ forall v, In v (link_cells line indices rowData columns) -> v <> [].
Proof.
  revert rowData. induction columns as [|column columns IH]; intros rowData; simpl.
  - split; [reflexivity|intros v []].
  - destruct (IH (dict_set rowData (fst (fst column))
                    (link_cell line indices rowData column))) as [Hl Hv].
    split; [now rewrite Hl|].
    intros v [<-|Hin]; [apply link_cell_nonempty|now apply Hv].
Qed.

Section LinkRows.
Context (host : Host) (seps : Separators).

Lemma link_line_built (lines : list jsstring) (g : GroupedRows) (line : jsstring) :
  (forall r, In r (rowsC g) -> built_from host seps (js "C") lines r) ->
  (forall r, In r (rowsU g) -> built_from host seps (js "U") lines r) ->
  (forall r, In r (rowsC (link_line host seps g line)) ->
             built_from host seps (js "C") (lines ++ [line]) r)
  /\ (forall r, In r (rowsU (link_line host seps g line)) ->
                built_from host seps (js "U") (lines ++ [line]) r)
  /\ (length (rowsC (link_line host seps g line))
      + length (rowsU (link_line host seps g line))
      <= S (length (rowsC g) + length (rowsU g)))%nat.
Proof.
  intros HC HU.
  assert (HC' : forall r, In r (rowsC g) -> built_from host seps (js "C") (lines ++ [line]) r).
  { intros r Hr. destruct (HC r Hr) as (l & Hl & H). exists l. split; [|exact H].
    apply in_or_app. now left. }
  assert (HU' : forall r, In r (rowsU g) -> built_from host seps (js "U") (lines ++ [line]) r).
  { intros r Hr. destruct (HU r Hr) as (l & Hl & H). exists l. split; [|exact H].
    apply in_or_app. now left. }
  unfold link_line.
  destruct (negb (Z.of_nat (length (trim (bracket_slice line (groupBracket seps)))) =? 1))
    eqn:E1; cbn [orb]; [split; [exact HC'|split; [exact HU'|lia]]|].
  destruct (jsstring_eqb (toUpperCase host (trim (bracket_slice line (codeBracket seps)))) [])
    eqn:E2; cbn [orb]; [split; [exact HC'|split; [exact HU'|lia]]|].
  apply jsstring_eqb_neq in E2.
  destruct (jsstring_eqb (trim (bracket_slice line (groupBracket seps))) (js "C")) eqn:EC.
  - cbn [orb negb].
    destruct (existsb _ _) eqn:Ex; cbn [negb]; [|split; [exact HC'|split; [exact HU'|lia]]].
    apply jsstring_eqb_eq in EC. cbn [rowsC rowsU]. split; [|split; [exact HU'|]].
    + intros r Hr. apply in_app_or in Hr. destruct Hr as [Hr|[<-|[]]]; [now apply HC'|].
      exists line. cbn [rowValues]. split; [apply in_or_app; right; now left|]. auto.
    + rewrite length_app. simpl. lia.
  - cbn [orb].
    destruct (jsstring_eqb (trim (bracket_slice line (groupBracket seps))) (js "U")) eqn:EU;
      cbn [negb]; [|split; [exact HC'|split; [exact HU'|lia]]].
    destruct (existsb _ _) eqn:Ex; cbn [negb]; [|split; [exact HC'|split; [exact HU'|lia]]].
    apply jsstring_eqb_eq in EU. cbn [rowsC rowsU]. split; [exact HC'|split].
    + intros r Hr. apply in_app_or in Hr. destruct Hr as [Hr|[<-|[]]]; [now apply HU'|].
      exists line. cbn [rowValues]. split; [apply in_or_app; right; now left|]. auto.
    + rewrite length_app. simpl. lia.
Qed.

Lemma link_lines_built (lines done : list jsstring) (g : GroupedRows) :
  (forall r, In r (rowsC g) -> built_from host seps (js "C") done r) ->
  (forall r, In r (rowsU g) -> built_from host seps (js "U") done r) ->
  let g' := fold_left (link_line host seps) lines g in
  (forall r, In r (rowsC g') -> built_from host seps (js "C") (done ++ lines) r)
  /\ (forall r, In r (rowsU g') -> built_from host seps (js "U") (done ++ lines) r)
  /\ (length (rowsC g') + length (rowsU g')
      <= length lines + (length (rowsC g) + length (rowsU g)))%nat.
Proof.
  revert done g. induction lines as [|line lines IH]; intros done g HC HU; simpl.
  - rewrite app_nil_r. split; [exact HC|split; [exact HU|lia]].
  - destruct (link_line_built done g line HC HU) as (HC' & HU' & Hn).
    destruct (IH (done ++ [line]) _ HC' HU') as (H1 & H2 & H3).
    rewrite <- app_assoc in H1, H2. simpl in H1, H2.
    split; [exact H1|split; [exact H2|lia]].
Qed.

(** X6. Every row of the volume link table comes from a line of the text
    whose group is "C" (first table) or "U" (second table) and whose code,
    in upper case, is not empty.  The row has seven values, none of them
    empty, at least one of them not a zero, and its third and sixth values
    are the percentage differences of the two values before them.  The two
    tables together have at most one row for each line. *)
Theorem link_rows_well_formed (content : jsstring) (g : GroupedRows) :
  generateVolumeLinkTable host content (Some seps) = Some g ->
  (length (rowsC g) + length (rowsU g) <= length (split_lines content))%nat
  /\ forall group r,
       (group = js "C" /\ In r (rowsC g)) \/ (group = js "U" /\ In r (rowsU g)) ->
       (exists line,
           In line (split_lines content)
           /\ trim (bracket_slice line (groupBracket seps)) = group
           /\ toUpperCase host (trim (bracket_slice line (codeBracket seps))) <> []
           /\ rowValues r = link_cells line (dataColumnIndices seps) [] columnConfig)
       /\ length (rowValues r) = 7%nat
       /\ (forall v, In v (rowValues r) -> v <> [])
       /\ (exists v, In v (rowValues r) /\ isZeroValue v = false)
       /\ (forall current previous,
              rowValues r !! 0%nat = Some current ->
              rowValues r !! 1%nat = Some previous ->
              rowValues r !! 2%nat
              = Some (computePercentageDiff (VStr current) (VStr previous)))
       /\ (forall current previous,
              rowValues r !! 3%nat = Some current ->
              rowValues r !! 4%nat = Some previous ->
              rowValues r !! 5%nat
              = Some (computePercentageDiff (VStr current) (VStr previous))).
Proof.
  unfold generateVolumeLinkTable. intros [= <-].
  destruct (link_lines_built (split_lines content) [] {| rowsC := []; rowsU := [] |})
    as (HC & HU & Hn); [intros r []|intros r []|].
  simpl in HC, HU, Hn. split; [lia|].
  intros group r Hr.
  assert (Hb : built_from host seps group (split_lines content) r).
  { destruct Hr as [[-> Hr]|[-> Hr]]; auto. }
  destruct Hb as (line & Hin & Hg & Hc & Hv & Hnz).
  split; [exists line; auto|].
  destruct (link_cells_nonempty line (dataColumnIndices seps) columnConfig []) as [Hl Hne].
  rewrite Hv. split; [exact Hl|]. split; [exact Hne|]. split.
  - rewrite Hv in Hnz. apply existsb_exists in Hnz. destruct Hnz as (v & Hvin & Hz).
    exists v. split; [exact Hvin|]. now apply negb_true_iff.
  - destruct (link_cells_strings line (dataColumnIndices seps)) as [H2 H5].
    cbv zeta in H2, H5. split.
    + intros current previous H0 H1. rewrite H2, H0, H1. reflexivity.
    + intros current previous H3 H4. rewrite H5, H3, H4. reflexivity.
Qed.
End LinkRows.

Lemma link_rows_well_formed_witness :
  exists g,
    generateVolumeLinkTable sample_host sample_volume_report (Some sample_volume_separators)
    = Some g
    /\ (length (rowsC g) + length (rowsU g) <= length (split_lines sample_volume_report))%nat
    /\ forall r, In r (rowsU g) -> length (rowValues r) = 7%nat.
Proof.
  destruct (generateVolumeLinkTable sample_host sample_volume_report
              (Some sample_volume_separators)) as [g|] eqn:E;
    [|vm_compute in E; discriminate].
  exists g. split; [reflexivity|].
  destruct (link_rows_well_formed sample_host sample_volume_separators
              sample_volume_report g E) as [Hn Hrows].
  split; [exact Hn|]. intros r Hr.
  destruct (Hrows (js "U") r) as (_ & Hl & _); [right; split; [reflexivity|exact Hr]|].
  exact Hl.
Defined.

(** ** Equal figures *)

Lemma num_sub_diag (s : bool) (m : positive) (e : Z) :
  num_sub (S754_finite s m e) (S754_finite s m e) = S754_zero false.
Proof.
  unfold num_sub, SFsub. cbv zeta. rewrite Z.sub_diag. reflexivity.
Qed.

(** X7. Two column texts that parse to the same finite Number other than
    zero differ by "0%", whatever their spelling (thousands separators or
    surrounding blanks) and whatever their sign. *)
Theorem percentage_diff_of_equal_figures (currentValue previousValue : value) (n : number) :
  parseNumericValue currentValue = Some n ->
  parseNumericValue previousValue = Some n ->
  isFiniteNum n = true ->
  num_eqb n num_zero = false ->
  computePercentageDiff currentValue previousValue = js "0%".
Proof.
  intros Hc Hp Hfin Hnz. unfold computePercentageDiff. rewrite Hc, Hp, Hnz. cbn [orb].
  destruct n as [z| | |s m e]; try discriminate.
  unfold percentValue. rewrite num_sub_diag.
  destruct s; reflexivity.
Qed.

Lemma percentage_diff_of_equal_figures_witness :
  computePercentageDiff (VStr (js " 1,000 ")) (VStr (js "1000")) = js "0%".
Proof.
  apply (percentage_diff_of_equal_figures _ _ (num_of_Z 1000)); vm_compute; reflexivity.
Defined.

(* ===================================================================== *)
(** * Further properties: asking for a rate *)
(* ===================================================================== *)

Lemma invalid_answer_false (input : jsstring) :
  invalid_answer (Some input) = false <-> positive_rate (parseFloat_string input).
Proof.
  unfold invalid_answer, positive_rate. rewrite orb_false_iff. tauto.
Qed.

Lemma prompt_retry_valid (rest : list (option jsstring)) (r : number) :
  positive_rate r -> prompt_retry rest r = Some (Some r, rest).
Proof.
  intros [Hn Hl]. destruct rest; simpl; rewrite Hn, Hl; reflexivity.
Qed.

Lemma prompt_retry_answers (bad : list (option jsstring)) (rate : number) :
  forallb invalid_answer bad = true ->
  isNaN rate || num_leb rate num_zero = true ->
  prompt_retry bad rate = None
  /\ (forall rest, prompt_retry (bad ++ None :: rest) rate = Some (None, rest))
  /\ (forall input rest,
        invalid_answer (Some input) = false ->
        prompt_retry (bad ++ Some input :: rest) rate
        = Some (Some (parseFloat_string input), rest)).
Proof.
  revert rate. induction bad as [|a bad IH]; intros rate Hbad Hrate.
  - simpl. rewrite Hrate. split; [reflexivity|]. split; [reflexivity|].
    intros input rest Hv. apply prompt_retry_valid. now apply invalid_answer_false.
  - simpl in Hbad. apply andb_true_iff in Hbad. destruct Hbad as [Ha Hbad].
    destruct a as [input|]; [|discriminate].
    simpl. rewrite Hrate. apply IH; assumption.
Qed.

Lemma promptForExchangeRate_loop (currencyCode : jsstring) (st : State) :
  promptForExchangeRate currencyCode st
  = match prompt_retry (answers st) NaN with
    | None => Waiting
    | Some (rate, rest) =>
        Done rate {| exchangeRatesCache := exchangeRatesCache st; answers := rest |}
    end.
Proof.
  unfold promptForExchangeRate. destruct (answers st) as [|[input|] rest]; reflexivity.
Qed.

Lemma promptForExchangeRate_valid (currencyCode : jsstring) (cache : gmap jsstring number)
    (bad rest : list (option jsstring)) (input : jsstring) :
  forallb invalid_answer bad = true ->
  invalid_answer (Some input) = false ->
  promptForExchangeRate currencyCode
    {| exchangeRatesCache := cache; answers := bad ++ Some input :: rest |}
  = Done (Some (parseFloat_string input)) {| exchangeRatesCache := cache; answers := rest |}.
Proof.
  intros Hbad Hv. rewrite promptForExchangeRate_loop. cbn [answers exchangeRatesCache].
  destruct (prompt_retry_answers bad NaN Hbad eq_refl) as (_ & _ & H).
  now rewrite H.
Qed.

Lemma promptForExchangeRate_cancelled (currencyCode : jsstring)
    (cache : gmap jsstring number) (bad rest : list (option jsstring)) :
  forallb invalid_answer bad = true ->
  promptForExchangeRate currencyCode
    {| exchangeRatesCache := cache; answers := bad ++ None :: rest |}
  = Done None {| exchangeRatesCache := cache; answers := rest |}.
Proof.
  intros Hbad. rewrite promptForExchangeRate_loop. cbn [answers exchangeRatesCache].
  destruct (prompt_retry_answers bad NaN Hbad eq_refl) as (_ & H & _).
  now rewrite H.
Qed.

Lemma promptForExchangeRate_open (currencyCode : jsstring) (cache : gmap jsstring number)
    (bad : list (option jsstring)) :
  forallb invalid_answer bad = true ->
  promptForExchangeRate currencyCode {| exchangeRatesCache := cache; answers := bad |}
  = Waiting.
Proof.
  intros Hbad. rewrite promptForExchangeRate_loop. cbn [answers exchangeRatesCache].
  destruct (prompt_retry_answers bad NaN Hbad eq_refl) as (H & _).
  now rewrite H.
Qed.

(** X8. [promptForExchangeRate] asks again for as long as the answer is a
    text that [parseFloat] reads as NaN or as a number [<= 0].  After any
    run of such answers, a text that reads as a positive number is returned
    as that number, a cancelled dialog returns null, and if the answers end
    the dialog stays open.  In each case exactly the answers up to that point
    are used up and the cache is left alone. *)
Theorem prompt_asks_until_valid (currencyCode : jsstring) (cache : gmap jsstring number)
    (bad rest : list (option jsstring)) :
  forallb invalid_answer bad = true ->
  (forall input,
      invalid_answer (Some input) = false ->
      promptForExchangeRate currencyCode
        {| exchangeRatesCache := cache; answers := bad ++ Some input :: rest |}
      = Done (Some (parseFloat_string input))
          {| exchangeRatesCache := cache; answers := rest |}
      /\ positive_rate (parseFloat_string input))
  /\ promptForExchangeRate currencyCode
       {| exchangeRatesCache := cache; answers := bad ++ None :: rest |}
     = Done None {| exchangeRatesCache := cache; answers := rest |}
  /\ promptForExchangeRate currencyCode {| exchangeRatesCache := cache; answers := bad |}
     = Waiting.
Proof.
  intros Hbad. split; [|split].
  - intros input Hv. split; [now apply promptForExchangeRate_valid|].
    now apply invalid_answer_false.
  - now apply promptForExchangeRate_cancelled.
  - now apply promptForExchangeRate_open.
Qed.

Lemma prompt_asks_until_valid_witness :
  promptForExchangeRate (js "EUR") insisting_user
  = Done (Some (num_of_text "0.92")) {| exchangeRatesCache := ∅; answers := [Some (js "7")] |}.
Proof.
  destruct (prompt_asks_until_valid (js "EUR") ∅ [Some (js "abc"); Some (js "-1")]
              [Some (js "7")]) as (H & _); [vm_compute; reflexivity|].
  destruct (H (js "0.92")) as [Hd _]; [vm_compute; reflexivity|].
  exact Hd.
Defined.

Lemma convertToUSD_foreign (host : Host) (amount : value) (currency : jsstring)
    (st : State) :
  noAmount amount = false -> currency <> [] -> isNaN (parseFloat amount) = false ->
  toUpperCase host currency <> js "USD" ->
  convertToUSD host amount (Some currency) st
  = let upperCaseCurrency := toUpperCase host currency in
    let numericAmount := parseFloat amount in
    let rate := exchangeRatesCache st !! upperCaseCurrency in
    if negb (rate_truthy rate) then
      match promptForExchangeRate upperCaseCurrency st with
      | Done (Some r) st' =>
          Done (convert_with numericAmount upperCaseCurrency (Some r))
               {| exchangeRatesCache := <[upperCaseCurrency := r]> (exchangeRatesCache st');
                  answers := answers st' |}
      | Done None st' => Done (VStr (rateNeeded numericAmount upperCaseCurrency)) st'
      | Raised e => Raised e
      | Waiting => Waiting
      end
    else Done (convert_with numericAmount upperCaseCurrency rate) st.
Proof.
  intros Hamount Hcurrency Hnumeric Hforeign.
  unfold convertToUSD. rewrite Hamount, Hnumeric.
  destruct currency as [|c cs]; [congruence|].
  apply jsstring_eqb_neq in Hforeign. rewrite Hforeign. reflexivity.
Qed.

Section FirstUse.
Context (host : Host) (amount : value) (currency : jsstring).
Hypothesis Hamount : noAmount amount = false.
Hypothesis Hcurrency : currency <> [].
Hypothesis Hnumeric : isNaN (parseFloat amount) = false.
Hypothesis Hforeign : toUpperCase host currency <> js "USD".

(** X9. The first conversion in a currency other than USD that has no
    usable rate in the cache asks the user: after any run of answers that
    are no positive number, a valid answer is stored in the cache under the
    upper-cased code and the amount divided by it is returned; a cancelled
    dialog returns the "(Rate needed)" text and stores nothing; and if the
    answers end, the conversion waits in the open dialog. *)
Theorem conversion_asks_until_valid (cache : gmap jsstring number)
    (bad rest : list (option jsstring)) :
  rate_truthy (cache !! toUpperCase host currency) = false ->
  forallb invalid_answer bad = true ->
  (forall input,
      invalid_answer (Some input) = false ->
      convertToUSD host amount (Some currency)
        {| exchangeRatesCache := cache; answers := bad ++ Some input :: rest |}
      = Done (VNum (num_div (parseFloat amount) (parseFloat_string input)))
          {| exchangeRatesCache :=
               <[toUpperCase host currency := parseFloat_string input]> cache;
             answers := rest |})
  /\ convertToUSD host amount (Some currency)
       {| exchangeRatesCache := cache; answers := bad ++ None :: rest |}
     = Done (VStr (rateNeeded (parseFloat amount) (toUpperCase host currency)))
         {| exchangeRatesCache := cache; answers := rest |}
  /\ convertToUSD host amount (Some currency)
       {| exchangeRatesCache := cache; answers := bad |}
     = Waiting.
Proof.
  intros Hrate Hbad. split; [|split].
  - intros input Hv. rewrite convertToUSD_foreign by assumption. cbv zeta.
    cbn [exchangeRatesCache]. rewrite Hrate. cbn [negb].
    rewrite promptForExchangeRate_valid by assumption.
    cbn [exchangeRatesCache answers]. unfold convert_with.
    apply invalid_answer_false in Hv.
    destruct (positive_rate_divides _ Hv) as [-> _]. reflexivity.
  - rewrite convertToUSD_foreign by assumption. cbv zeta.
    cbn [exchangeRatesCache]. rewrite Hrate. cbn [negb].
    now rewrite promptForExchangeRate_cancelled by assumption.
  - rewrite convertToUSD_foreign by assumption. cbv zeta.
    cbn [exchangeRatesCache]. rewrite Hrate. cbn [negb].
    now rewrite promptForExchangeRate_open by assumption.
Qed.

(** X10. A rate that was given is asked for only once, a rate that was
    declined is asked for again.  When a conversion in a currency other than
    USD returns a Number, the cache then holds a rate for the upper-cased
    code, the Number is the amount divided by that rate, and every later
    conversion in a currency with the same upper-cased code divides by the
    same rate, asks nothing and leaves the state as it is.  When the
    conversion returns a text, the text is the "(Rate needed)" text of a
    declined rate, the cache is as it was and holds no usable rate for the
    code, and the next conversion in that currency opens the dialog again:
    it takes the next answer, caches a valid one and divides by it, or
    returns the text once more when the dialog is cancelled again. *)
Theorem rate_reuse (st st' : State) :
  (forall x,
      convertToUSD host amount (Some currency) st = Done (VNum x) st' ->
      exists r,
        exchangeRatesCache st' !! toUpperCase host currency = Some r
        /\ num_truthy r = true
        /\ x = num_div (parseFloat amount) r
        /\ forall amount' currency',
             noAmount amount' = false -> isNaN (parseFloat amount') = false ->
             currency' <> [] ->
             toUpperCase host currency' = toUpperCase host currency ->
             convertToUSD host amount' (Some currency') st'
             = Done (VNum (num_div (parseFloat amount') r)) st')
  /\ (forall text,
        convertToUSD host amount (Some currency) st = Done (VStr text) st' ->
        text = rateNeeded (parseFloat amount) (toUpperCase host currency)
        /\ exchangeRatesCache st' = exchangeRatesCache st
        /\ rate_truthy (exchangeRatesCache st' !! toUpperCase host currency) = false
        /\ forall amount' currency' rest,
             noAmount amount' = false -> isNaN (parseFloat amount') = false ->
             currency' <> [] ->
             toUpperCase host currency' = toUpperCase host currency ->
             (forall input,
                 answers st' = Some input :: rest ->
                 invalid_answer (Some input) = false ->
                 convertToUSD host amount' (Some currency') st'
                 = Done (VNum (num_div (parseFloat amount') (parseFloat_string input)))
                     {| exchangeRatesCache :=
                          <[toUpperCase host currency := parseFloat_string input]>
                            (exchangeRatesCache st');
                        answers := rest |})
             /\ (answers st' = None :: rest ->
                 convertToUSD host amount' (Some currency') st'
                 = Done (VStr (rateNeeded (parseFloat amount') (toUpperCase host currency)))
                     {| exchangeRatesCache := exchangeRatesCache st'; answers := rest |})).
Proof.
  split.
  - intros x. rewrite convertToUSD_foreign by assumption. cbv zeta. intros H.
    assert (Hlater : forall r,
      exchangeRatesCache st' !! toUpperCase host currency = Some r ->
      num_truthy r = true ->
      forall amount' currency',
        noAmount amount' = false -> isNaN (parseFloat amount') = false ->
        currency' <> [] ->
        toUpperCase host currency' = toUpperCase host currency ->
        convertToUSD host amount' (Some currency') st'
        = Done (VNum (num_div (parseFloat amount') r)) st').
    { intros r Hr Ht amount' currency' Ha Hn Hc Hu.
      apply convertToUSD_cached; auto; rewrite Hu; auto. }
    destruct (exchangeRatesCache st !! toUpperCase host currency) as [r0|] eqn:Hcache;
      cbn [rate_truthy] in H.
    + destruct (num_truthy r0) eqn:Ht; cbn [negb] in H.
      * unfold convert_with in H. rewrite Ht in H. injection H as <- <-.
        exists r0. auto.
      * destruct (promptForExchangeRate _ st) as [[r|] st1| |] eqn:Hp; try discriminate.
        pose proof (promptForExchangeRate_positive _ _ _ _ Hp) as Hpos.
        destruct (positive_rate_divides _ Hpos) as [Hr _].
        unfold convert_with in H. rewrite Hr in H. injection H as <- <-.
        exists r. cbn [exchangeRatesCache]. rewrite lookup_insert_eq.
        split; [reflexivity|]. split; [exact Hr|]. split; [reflexivity|].
        apply Hlater; [|exact Hr]. cbn [exchangeRatesCache]. apply lookup_insert_eq.
    + cbn [negb] in H.
      destruct (promptForExchangeRate _ st) as [[r|] st1| |] eqn:Hp; try discriminate.
      pose proof (promptForExchangeRate_positive _ _ _ _ Hp) as Hpos.
      destruct (positive_rate_divides _ Hpos) as [Hr _].
      unfold convert_with in H. rewrite Hr in H. injection H as <- <-.
      exists r. cbn [exchangeRatesCache]. rewrite lookup_insert_eq.
      split; [reflexivity|]. split; [exact Hr|]. split; [reflexivity|].
      apply Hlater; [|exact Hr]. cbn [exchangeRatesCache]. apply lookup_insert_eq.
  - intros text. rewrite convertToUSD_foreign by assumption. cbv zeta. intros H.
    destruct (rate_truthy (exchangeRatesCache st !! toUpperCase host currency)) eqn:Ht;
      cbn [negb] in H.
    { destruct (exchangeRatesCache st !! toUpperCase host currency) as [r0|];
        [|discriminate].
      cbn [rate_truthy] in Ht. unfold convert_with in H. rewrite Ht in H. discriminate. }
    destruct (promptForExchangeRate _ st) as [[r|] st1| |] eqn:Hp; try discriminate.
    { pose proof (promptForExchangeRate_positive _ _ _ _ Hp) as Hpos.
      destruct (positive_rate_divides _ Hpos) as [Hr _].
      unfold convert_with in H. rewrite Hr in H. discriminate. }
    injection H as <- <-.
    pose proof (promptForExchangeRate_cache _ _ _ _ Hp) as Hcache.
    split; [reflexivity|]. split; [exact Hcache|].
    assert (Ht' : rate_truthy (exchangeRatesCache st1 !! toUpperCase host currency) = false)
      by now rewrite Hcache.
    split; [exact Ht'|].
    intros amount' currency' rest Ha Hn Hc Hu.
    assert (Hf : toUpperCase host currency' <> js "USD") by now rewrite Hu.
    pose proof (convertToUSD_foreign host amount' currency' st1 Ha Hc Hn Hf) as Hconv.
    cbv zeta in Hconv. rewrite Hu, Ht' in Hconv. cbn [negb] in Hconv. split.
    + intros input Hans Hv. etransitivity; [exact Hconv|].
      unfold promptForExchangeRate. rewrite Hans.
      apply invalid_answer_false in Hv. rewrite (prompt_retry_valid _ _ Hv).
      cbn [exchangeRatesCache answers]. unfold convert_with.
      destruct (positive_rate_divides _ Hv) as [-> _]. reflexivity.
    + intros Hans. etransitivity; [exact Hconv|].
      unfold promptForExchangeRate. rewrite Hans. reflexivity.
Qed.
End FirstUse.

Lemma conversion_asks_until_valid_witness :
  convertToUSD sample_host (VNum (num_of_text "1500")) (Some (js "eur")) insisting_user
  = Done (VNum (num_of_text "1630.4347826086955"))
      {| exchangeRatesCache := {[ js "EUR" := num_of_text "0.92" ]};
         answers := [Some (js "7")] |}.
Proof.
  destruct (conversion_asks_until_valid sample_host (VNum (num_of_text "1500")) (js "eur")
              eq_refl ltac:(discriminate) eq_refl ltac:(vm_compute; discriminate)
              ∅ [Some (js "abc"); Some (js "-1")] [Some (js "7")]) as (H & _);
    [reflexivity|vm_compute; reflexivity|].
  etransitivity; [exact (H (js "0.92") ltac:(vm_compute; reflexivity))|].
  vm_compute. reflexivity.
Defined.

Lemma rate_reuse_witness :
  (exists r,
      exchangeRatesCache eur_cached !! js "EUR" = Some r
      /\ convertToUSD sample_host (VStr (js "230")) (Some (js "Eur")) eur_cached
         = Done (VNum (num_div (parseFloat (VStr (js "230"))) r)) eur_cached)
  /\ convertToUSD sample_host (VStr (js "230")) (Some (js "Eur")) after_declining
     = Done (VNum (num_div (parseFloat (VStr (js "230"))) (parseFloat_string (js "0.92"))))
         {| exchangeRatesCache :=
              <[js "EUR" := parseFloat_string (js "0.92")]> (∅ : gmap jsstring number);
            answers := [] |}.
Proof.
  split.
  - destruct (rate_reuse sample_host (VNum (num_of_text "1500")) (js "eur")
                eq_refl ltac:(discriminate) eq_refl ltac:(vm_compute; discriminate)
                eur_cached eur_cached) as [Hgiven _].
    destruct (Hgiven (num_of_text "1630.4347826086955"))
      as (r & Hr & _ & _ & Hlater); [vm_compute; reflexivity|].
    exists r. split; [exact Hr|].
    apply Hlater; [reflexivity|vm_compute; reflexivity|discriminate|vm_compute; reflexivity].
  - destruct (rate_reuse sample_host (VNum (num_of_text "1500")) (js "eur")
                eq_refl ltac:(discriminate) eq_refl ltac:(vm_compute; discriminate)
                declining_user after_declining) as [_ Hdeclined].
    destruct (Hdeclined (js "1500.00 EUR (Rate needed)"))
      as (_ & _ & _ & Hlater); [vm_compute; reflexivity|].
    destruct (Hlater (VStr (js "230")) (js "Eur") [])
      as [Hasked _];
      [reflexivity|vm_compute; reflexivity|discriminate|vm_compute; reflexivity|].
    apply (Hasked (js "0.92")); [reflexivity|vm_compute; reflexivity].
Defined.

(* ===================================================================== *)
(** * Further properties: what a conversion returns *)
(* ===================================================================== *)

Lemma ends_with_rev (suffix s : jsstring) :
  ends_with suffix s -> isPrefixOf (rev suffix) (rev s) = true.
Proof.
  intros [p ->]. rewrite rev_app_distr. apply isPrefixOf_app. eauto.
Qed.

Lemma rateNeeded_not_noRate (numericAmount : number) (upperCaseCurrency : jsstring) :
  ~ ends_with (js "(No Rate)") (rateNeeded numericAmount upperCaseCurrency).
Proof.
  intros H. apply ends_with_rev in H. unfold rateNeeded in H.
  revert H. generalize (toFixed2 numericAmount). intros text.
  rewrite !rev_app_distr, <- !app_assoc. discriminate.
Qed.

(** X11. What [convertToUSD] returns is one of five things: the text " "
    for a missing amount; "N/A" for a missing currency; "Invalid Amount" for
    an amount that reads as NaN; a Number, which is the amount itself or the
    amount divided by a rate that is neither zero nor NaN; or the
    "(Rate needed)" text of a declined rate.  The state changes in the last
    two cases only.  The "(No Rate)" text of the script's last guard is never
    returned: every rate that reaches that guard is a truthy Number. *)
Theorem conversion_result_forms (host : Host) (amount : value)
    (currency : option jsstring) (st st' : State) (v : value) :
  convertToUSD host amount currency st = Done v st' ->
  ((v = VStr (js " ") /\ noAmount amount = true /\ st' = st)
   \/ (v = VStr (js "N/A") /\ noAmount amount = false
       /\ (currency = None \/ currency = Some []) /\ st' = st)
   \/ (v = VStr (js "Invalid Amount") /\ noAmount amount = false
       /\ isNaN (parseFloat amount) = true /\ st' = st)
   \/ (exists x, v = VNum x /\ isNaN (parseFloat amount) = false
         /\ (x = parseFloat amount
             \/ exists r, num_truthy r = true /\ x = num_div (parseFloat amount) r))
   \/ (exists cur, currency = Some cur
         /\ v = VStr (rateNeeded (parseFloat amount) (toUpperCase host cur))
         /\ exchangeRatesCache st' = exchangeRatesCache st))
  /\ forall text, v = VStr text -> ~ ends_with (js "(No Rate)") text.
Proof.
  intros H.
  assert (Hforms :
    (v = VStr (js " ") /\ noAmount amount = true /\ st' = st)
    \/ (v = VStr (js "N/A") /\ noAmount amount = false
        /\ (currency = None \/ currency = Some []) /\ st' = st)
    \/ (v = VStr (js "Invalid Amount") /\ noAmount amount = false
        /\ isNaN (parseFloat amount) = true /\ st' = st)
    \/ (exists x, v = VNum x /\ isNaN (parseFloat amount) = false
          /\ (x = parseFloat amount
              \/ exists r, num_truthy r = true /\ x = num_div (parseFloat amount) r))
    \/ (exists cur, currency = Some cur
          /\ v = VStr (rateNeeded (parseFloat amount) (toUpperCase host cur))
          /\ exchangeRatesCache st' = exchangeRatesCache st)).
  { unfold convertToUSD in H.
    destruct (noAmount amount) eqn:Ha.
    { injection H as <- <-. left. auto. }
    destruct currency as [[|c cs]|].
    { injection H as <- <-. right. left. auto. }
    2:{ injection H as <- <-. right. left. auto. }
    destruct (isNaN (parseFloat amount)) eqn:Hn.
    { injection H as <- <-. right. right. left. auto. }
    destruct (jsstring_eqb _ (js "USD")).
    { injection H as <- <-. right. right. right. left.
      eexists. split; [reflexivity|]. split; [reflexivity|]. now left. }
    destruct (rate_truthy _) eqn:Ht; cbn [negb] in H.
    - destruct (exchangeRatesCache st !! _) as [r|]; [|discriminate].
      cbn [rate_truthy] in Ht. unfold convert_with in H. rewrite Ht in H.
      injection H as <- <-. right. right. right. left.
        eexists. split; [reflexivity|]. split; [reflexivity|]. right. eauto.
    - destruct (promptForExchangeRate _ st) as [[r|] st1| |] eqn:Hp; try discriminate.
      + pose proof (promptForExchangeRate_positive _ _ _ _ Hp) as Hpos.
        destruct (positive_rate_divides _ Hpos) as [Hr _].
        unfold convert_with in H. rewrite Hr in H. injection H as <- <-.
        right. right. right. left.
        eexists. split; [reflexivity|]. split; [reflexivity|]. right. eauto.
      + injection H as <- <-. right. right. right. right.
        exists (c :: cs). split; [reflexivity|]. split; [reflexivity|].
        eapply promptForExchangeRate_cache. exact Hp. }
  split; [exact Hforms|]. intros text ->.
  destruct Hforms as [(H1 & _)|[(H1 & _)|[(H1 & _)|[(x & H1 & _)|(cur & _ & H1 & _)]]]];
    try discriminate; injection H1 as ->.
  - intros E. apply ends_with_rev in E. discriminate.
  - intros E. apply ends_with_rev in E. discriminate.
  - intros E. apply ends_with_rev in E. discriminate.
  - apply rateNeeded_not_noRate.
Qed.

Lemma conversion_result_forms_witness :
  ~ ends_with (js "(No Rate)") (js "1500.00 EUR (Rate needed)").
Proof.
  destruct (conversion_result_forms sample_host (VNum (num_of_text "1500"))
              (Some (js "EUR")) declining_user after_declining
              (VStr (js "1500.00 EUR (Rate needed)"))) as [_ H];
    [vm_compute; reflexivity|].
  apply H. reflexivity.
Defined.

(* ===================================================================== *)
(** * Further properties: the credit manager and the account executive *)
(* ===================================================================== *)

(** X12. [getCreditManager] answers "N/A" for a credit line that reads as
    NaN and "lux" for one up to 500000, whatever the country and the factor
    name; above that it answers "trey" for the nine listed countries.  Its
    answer is always one of "N/A", "lux", "trey" and "bost".  It throws only
    a TypeError, and only when the factor name is null, the country is SG,
    JP or US and the credit line is above 500000; with a factor name it
    always answers. *)
Theorem credit_manager_rules (countryCode : jsstring) (creditLine : value)
    (factorName : option jsstring) :
  (isNaN (parseFloat creditLine) = true ->
   getCreditManager countryCode creditLine factorName = Return (js "N/A"))
  /\ (isNaN (parseFloat creditLine) = false ->
      num_leb (parseFloat creditLine) num_500000 = true ->
      getCreditManager countryCode creditLine factorName = Return (js "lux"))
  /\ (isNaN (parseFloat creditLine) = false ->
      num_leb (parseFloat creditLine) num_500000 = false ->
      In countryCode [js "AM"; js "EG"; js "GR"; js "IN"; js "MT"; js "RO"; js "TW";
                      js "TR"; js "VN"] ->
      getCreditManager countryCode creditLine factorName = Return (js "trey"))
  /\ (forall manager,
        getCreditManager countryCode creditLine factorName = Return manager ->
        In manager [js "N/A"; js "lux"; js "trey"; js "bost"])
  /\ (forall e,
        getCreditManager countryCode creditLine factorName = Throw e ->
        e = TypeError /\ factorName = None
        /\ In countryCode [js "SG"; js "JP"; js "US"]
        /\ isNaN (parseFloat creditLine) = false
        /\ num_leb (parseFloat creditLine) num_500000 = false)
  /\ (forall name, factorName = Some name ->
        exists manager, getCreditManager countryCode creditLine factorName = Return manager).
Proof.
  unfold getCreditManager. cbv zeta.
  destruct (isNaN (parseFloat creditLine)) eqn:Hn.
  { split; [reflexivity|]. split; [discriminate|]. split; [discriminate|].
    split; [intros m [= <-]; simpl; auto|]. split; [discriminate|]. eauto. }
  destruct (num_leb (parseFloat creditLine) num_500000) eqn:Hl.
  { split; [discriminate|]. split; [reflexivity|]. split; [discriminate|].
    split; [intros m [= <-]; simpl; auto|]. split; [discriminate|]. eauto. }
  split; [discriminate|]. split; [discriminate|].
  destruct (array_includes [js "AM"; js "EG"; js "GR"; js "IN"; js "MT"; js "RO"; js "TW";
                            js "TR"; js "VN"] countryCode) eqn:Ht.
  { split; [reflexivity|]. split; [intros m [= <-]; simpl; auto|].
    split; [discriminate|]. eauto. }
  split.
  { intros _ _ Hin. exfalso. unfold array_includes in Ht.
    assert (Hex : existsb (jsstring_eqb countryCode)
                    [js "AM"; js "EG"; js "GR"; js "IN"; js "MT"; js "RO"; js "TW";
                     js "TR"; js "VN"] = true).
    { apply existsb_exists. exists countryCode. split; [exact Hin|].
      now apply jsstring_eqb_eq. }
    congruence. }
  destruct (array_includes [js "SG"; js "JP"; js "US"] countryCode) eqn:Hs.
  2:{ split; [intros m [= <-]; simpl; auto|]. split; [discriminate|]. eauto. }
  assert (Hin : In countryCode [js "SG"; js "JP"; js "US"]).
  { unfold array_includes in Hs. apply existsb_exists in Hs.
    destruct Hs as (c & Hc & He). apply jsstring_eqb_eq in He. now subst c. }
  destruct factorName as [name|]; unfold name_includes.
  - split.
    { intros m.
      destruct (jsstring_eqb countryCode (js "SG"));
        [destruct (includes name _); intros [= <-]; simpl; auto|].
      destruct (jsstring_eqb countryCode (js "JP")).
      - destruct (includes name (js "Mitsubishi")); [intros [= <-]; simpl; auto|].
        destruct (includes name _); intros [= <-]; simpl; auto.
      - destruct (includes name _); intros [= <-]; simpl; auto. }
    split.
    { intros e.
      destruct (jsstring_eqb countryCode (js "SG")); [discriminate|].
      destruct (jsstring_eqb countryCode (js "JP")); [|discriminate].
      destruct (includes name (js "Mitsubishi")); discriminate. }
    intros name' _.
    destruct (jsstring_eqb countryCode (js "SG")); [eauto|].
    destruct (jsstring_eqb countryCode (js "JP")); [|eauto].
    destruct (includes name (js "Mitsubishi")); eauto.
  - split.
    { intros m.
      destruct (jsstring_eqb countryCode (js "SG")); [discriminate|].
      destruct (jsstring_eqb countryCode (js "JP")); discriminate. }
    split; [|discriminate].
    intros e.
    destruct (jsstring_eqb countryCode (js "SG")); [intros [= <-]; auto|].
    destruct (jsstring_eqb countryCode (js "JP")); intros [= <-]; auto.
Qed.

Lemma credit_manager_rules_witness :
  getCreditManager (js "SG") (VStr (js "Invalid Amount")) None = Return (js "N/A")
  /\ getCreditManager (js "SG") (VNum (num_of_text "500000")) None = Return (js "lux")
  /\ getCreditManager (js "VN") (VNum (num_of_text "500000.01")) None = Return (js "trey").
Proof.
  split; [|split].
  - apply (credit_manager_rules (js "SG") (VStr (js "Invalid Amount")) None).
    vm_compute. reflexivity.
  - apply (credit_manager_rules (js "SG") (VNum (num_of_text "500000")) None);
      vm_compute; reflexivity.
  - apply (credit_manager_rules (js "VN") (VNum (num_of_text "500000.01")) None);
      [vm_compute; reflexivity|vm_compute; reflexivity|].
    simpl. auto 10.
Defined.

(** X13. [getAccountExecutive] always answers one of four names or the text
    " "; a null factor name is read as the text "null", so it never throws;
    for Singapore the answer is decided by "MOGLI LABS" alone, and a factor
    name that mentions "SKYTEX" or "GLOBAL DENIM" gives "Mary Farley" in
    every country but Mexico, India, the United States and Singapore. *)
Theorem account_executive_rules (host : Host) (countryCode : jsstring)
    (factorName : option jsstring) :
  let factorNameUpper := toUpperCase host (ToString (to_value factorName)) in
  In (getAccountExecutive host countryCode factorName)
     [js "Mary Farley"; js "Tyler Sigler"; js "Tammie Cosey"; js "James Vuu"; js " "]
  /\ getAccountExecutive host countryCode None
     = getAccountExecutive host countryCode (Some (js "null"))
  /\ (toUpperCase host countryCode = js "SG" ->
      getAccountExecutive host countryCode factorName
      = if includes factorNameUpper (js "MOGLI LABS") then js "Tammie Cosey"
        else js "James Vuu")
  /\ (~ In (toUpperCase host countryCode) [js "MX"; js "IN"; js "US"; js "SG"] ->
      includes factorNameUpper (js "SKYTEX") || includes factorNameUpper (js "GLOBAL DENIM")
      = true ->
      getAccountExecutive host countryCode factorName = js "Mary Farley").
Proof.
  intros factorNameUpper. split; [|split; [reflexivity|split]].
  - unfold getAccountExecutive. cbv zeta.
    repeat match goal with
           | |- In (if ?b then _ else _) _ => destruct b
           end; simpl; auto 10.
  - intros Hsg. unfold getAccountExecutive. cbv zeta. rewrite Hsg.
    fold factorNameUpper. reflexivity.
  - intros Hc Hn. unfold getAccountExecutive. cbv zeta. fold factorNameUpper.
    assert (Hmx : jsstring_eqb (toUpperCase host countryCode) (js "MX") = false).
    { apply jsstring_eqb_neq. intros E. apply Hc. rewrite E. simpl. auto. }
    assert (Hin : jsstring_eqb (toUpperCase host countryCode) (js "IN") = false).
    { apply jsstring_eqb_neq. intros E. apply Hc. rewrite E. simpl. auto. }
    assert (Hus : jsstring_eqb (toUpperCase host countryCode) (js "US") = false).
    { apply jsstring_eqb_neq. intros E. apply Hc. rewrite E. simpl. auto. }
    assert (Hsg : jsstring_eqb (toUpperCase host countryCode) (js "SG") = false).
    { apply jsstring_eqb_neq. intros E. apply Hc. rewrite E. simpl. auto 6. }
    rewrite Hmx, Hin, Hus, Hsg. cbn [andb]. rewrite Hn. reflexivity.
Qed.

Lemma account_executive_rules_witness :
  getAccountExecutive sample_host (js "sg") None = js "James Vuu"
  /\ getAccountExecutive sample_host (js "DE") (Some (js "Skytex Mexico")) = js "Mary Farley".
Proof.
  split.
  - destruct (account_executive_rules sample_host (js "sg") None) as (_ & _ & H & _).
    rewrite H by (vm_compute; reflexivity). vm_compute. reflexivity.
  - destruct (account_executive_rules sample_host (js "DE") (Some (js "Skytex Mexico")))
      as (_ & _ & _ & H).
    apply H; [|vm_compute; reflexivity].
    vm_compute. intros E. decompose [or] E; try discriminate; assumption.
Defined.

(* ===================================================================== *)
(** * Further properties: the rows of a run *)
(* ===================================================================== *)

Lemma combine_rows_Forall2 (host : Host) (repo : Repository) (msgs : list Msg)
    (acc rows : list DisplayRow) (st st' : State) :
  combine_rows host repo msgs acc st = Done rows st' ->
  exists new, rows = acc ++ new /\ Forall2 (row_of_message host repo) msgs new.
Proof.
  revert acc st. induction msgs as [|msg msgs IH]; intros acc st; simpl.
  - unfold ret. intros [= <- _]. exists []. split; [now rewrite app_nil_r|constructor].
  - unfold bind at 1. destruct (buildRow host repo msg st) as [row st1| |] eqn:Hb;
      try discriminate.
    intros H. destruct (IH _ _ H) as (new & -> & Hnew).
    exists (row :: new). split; [now rewrite <- app_assoc|].
    constructor; [|exact Hnew].
    destruct (buildRow_Done _ _ _ _ _ _ Hb) as (code & pc & usd & cm & H1 & H2 & _ & H4 & H5).
    exists code, pc, usd, cm. auto.
Qed.

Lemma transactions_count (nodes : list (completion Instance)) :
  length (transactions MSG02 nodes ++ transactions MSG05 nodes ++ transactions MSG07 nodes)
  = transactional_count nodes.
Proof.
  unfold transactional_count. rewrite !length_app.
  induction nodes as [|node nodes IH]; [reflexivity|].
  unfold transactions in *. cbn [flat_map List.filter]. rewrite !length_app.
  destruct node as [[m|msg]|e]; cbn [length]; try lia.
  destruct (type msg); cbn [length]; lia.
Qed.

Lemma transactions_In (t : msgType) (nodes : list (completion Instance)) (msg : Msg) :
  In msg (transactions t nodes) -> In (Return (Transactional msg)) nodes /\ type msg = t.
Proof.
  unfold transactions. rewrite in_flat_map. intros (node & Hin & Hmsg).
  destruct node as [[m|msg']|e]; try contradiction.
  destruct t, (type msg') eqn:E; try contradiction;
    destruct Hmsg as [<-|[]]; auto.
Qed.

Lemma processFiles_combined (host : Host) (nodes : list (completion Instance))
    (userAnswers : list (option jsstring)) (rows : list DisplayRow) (st : State) :
  processFiles host nodes userAnswers = Done rows st ->
  exists combined,
    rows = Array_prototype_sort host (receivedBefore host) combined
    /\ Forall2 (row_of_message host (registerAll nodes))
         (transactions MSG02 nodes ++ transactions MSG05 nodes ++ transactions MSG07 nodes)
         combined.
Proof.
  unfold processFiles, generateCombinedDisplayData, bind, ret.
  destruct (combine_rows _ _ _ _ _) as [combined st1| |] eqn:Hc; try discriminate.
  intros [= <- <-]. exists combined. split; [reflexivity|].
  destruct (combine_rows_Forall2 _ _ _ _ _ _ _ Hc) as (new & -> & Hnew).
  destruct (registerAll_transactions nodes) as (E2 & E5 & E7).
  now rewrite E2, E5, E7 in Hnew.
Qed.

(** X14. A run that ends gives one display row per decoded transactional
    message: before the sort the rows stand in the order all MSG02, then all
    MSG05, then all MSG07, each kind in the order of decoding, every row built
    from its message against the repository of the whole run; the rows shown
    are the sort of these.  Seller agreements and nodes whose decoding failed
    add no row. *)
Theorem run_rows_per_message (host : Host) (nodes : list (completion Instance))
    (userAnswers : list (option jsstring)) (rows : list DisplayRow) (st : State) :
  processFiles host nodes userAnswers = Done rows st ->
  length rows = transactional_count nodes
  /\ exists combined,
       rows = Array_prototype_sort host (receivedBefore host) combined
       /\ Permutation combined rows
       /\ Forall2 (row_of_message host (registerAll nodes))
            (transactions MSG02 nodes ++ transactions MSG05 nodes ++ transactions MSG07 nodes)
            combined.
Proof.
  intros H. destruct (processFiles_combined _ _ _ _ _ H) as (combined & -> & Hrows).
  split.
  - rewrite <- (Permutation_length (Array_prototype_sort_perm host (receivedBefore host) combined)).
    rewrite <- (Forall2_length _ _ _ Hrows). apply transactions_count.
  - exists combined. split; [reflexivity|]. split; [apply Array_prototype_sort_perm|exact Hrows].
Qed.

Lemma run_rows_per_message_witness :
  exists rows st,
    processFiles sample_host request_then_agreement [] = Done rows st
    /\ length rows = 1%nat.
Proof.
  destruct (processFiles sample_host request_then_agreement []) as [rows st| |] eqn:E;
    [|vm_compute in E; discriminate|vm_compute in E; discriminate].
  exists rows, st. split; [reflexivity|].
  destruct (run_rows_per_message _ _ _ _ _ E) as [Hlen _]. exact Hlen.
Defined.

(** X15. The join does not depend on the order of decoding: every row of a
    run comes from a transactional message of the run, and its
    [industryProduct] is the product of the last seller agreement decoded
    under the key of that message anywhere in the run, before or after the
    message itself; it is the empty text when there is no such agreement,
    and null when the agreement has no product. *)
Theorem join_regardless_of_order (host : Host) (nodes : list (completion Instance))
    (userAnswers : list (option jsstring)) (rows : list DisplayRow) (st : State) :
  processFiles host nodes userAnswers = Done rows st ->
  forall row, In row rows ->
    exists msg,
      In (Return (Transactional msg)) nodes
      /\ row_of_message host (registerAll nodes) msg row
      /\ industryProduct row
         = match last (agreements_of_key (keyOf msg) nodes) with
           | Some m => to_value (BusinessProduct (sellerDetails m))
           | None => VStr []
           end.
Proof.
  intros H row Hrow.
  destruct (processFiles_combined _ _ _ _ _ H) as (combined & -> & Hrows).
  apply list_elem_of_In in Hrow.
  rewrite <- (Array_prototype_sort_perm host (receivedBefore host) combined) in Hrow.
  apply list_elem_of_lookup in Hrow. destruct Hrow as [i Hi].
  destruct (Forall2_lookup_r _ _ _ _ _ Hrows Hi) as (msg & Hmsg & Hrel).
  exists msg. split; [|split; [exact Hrel|]].
  - apply list_elem_of_lookup_2, list_elem_of_In in Hmsg.
    apply in_app_or in Hmsg. destruct Hmsg as [Hm|Hm];
      [|apply in_app_or in Hm; destruct Hm as [Hm|Hm]];
      apply transactions_In in Hm; tauto.
  - destruct Hrel as (code & pc & usd & cm & _ & _ & _ & ->).
    cbn [industryProduct makeRow]. now rewrite registerAll_lookup.
Qed.

Lemma join_regardless_of_order_witness :
  exists rows st,
    processFiles sample_host request_then_agreement [] = Done rows st
    /\ forall row, In row rows -> industryProduct row = VStr (js "Textiles").
Proof.
  destruct (processFiles sample_host request_then_agreement []) as [rows st| |] eqn:E;
    [|vm_compute in E; discriminate|vm_compute in E; discriminate].
  exists rows, st. split; [reflexivity|]. intros row Hrow.
  destruct (join_regardless_of_order _ _ _ _ _ E row Hrow) as (msg & Hin & _ & Hp).
  rewrite Hp. clear Hp.
  destruct Hin as [[= <-]|[[=]|[[=]|[]]]].
  vm_compute. reflexivity.
Defined.

(** ** Rows without a usable amount *)

Lemma getCreditManager_NaN (countryCode : jsstring) (creditLine : value)
    (factorName : option jsstring) :
  isNaN (parseFloat creditLine) = true ->
  getCreditManager countryCode creditLine factorName = Return (js "N/A").
Proof. intros H. unfold getCreditManager. now rewrite H. Qed.

Lemma num_leb_not_nan (x y : number) : num_leb x y = true -> isNaN x = false.
Proof. destruct x; [reflexivity|reflexivity|discriminate|reflexivity]. Qed.

Lemma parseFloat_leb (x y : number) :
  num_leb (parseFloat (VNum x)) y = num_leb x y.
Proof. destruct x as [[|]| | |]; try reflexivity; destruct y; reflexivity. Qed.

(** X16. In a row that is built, the credit manager follows the converted
    amount: when the message has no amount, no currency, or an amount that is
    NaN, the converted amount is the text " ", "N/A" or "Invalid Amount",
    the credit manager is "N/A" and no rate is asked for; and whenever the
    converted amount is a Number up to 500000 the credit manager is "lux". *)
Theorem row_manager_follows_amount (host : Host) (repo : Repository) (msg : Msg)
    (st st' : State) (row : DisplayRow) :
  buildRow host repo msg st = Done row st' ->
  (amountOf msg = None ->
   amountReqUSD row = VStr (js " ") /\ creditManager row = VStr (js "N/A") /\ st' = st)
  /\ (amountOf msg <> None -> currencyOf msg = None \/ currencyOf msg = Some [] ->
      amountReqUSD row = VStr (js "N/A") /\ creditManager row = VStr (js "N/A") /\ st' = st)
  /\ (forall cur, amountOf msg = Some NaN -> currencyOf msg = Some cur -> cur <> [] ->
      amountReqUSD row = VStr (js "Invalid Amount")
      /\ creditManager row = VStr (js "N/A") /\ st' = st)
  /\ (forall x, amountReqUSD row = VNum x -> num_leb x num_500000 = true ->
      creditManager row = VStr (js "lux")).
Proof.
  intros H.
  destruct (buildRow_Done _ _ _ _ _ _ H) as (code & pc & usd & cm & _ & _ & Hu & Hcm & ->).
  cbn [amountReqUSD creditManager makeRow].
  split; [|split; [|split]].
  - intros Ha. rewrite Ha in Hu. injection Hu as <- <-.
    rewrite getCreditManager_NaN in Hcm by reflexivity. now injection Hcm as <-.
  - intros Ha Hc. destruct (amountOf msg) as [x|]; [|congruence].
    assert (Hu' : Done (VStr (js "N/A")) st = Done usd st').
    { rewrite <- Hu. destruct Hc as [-> | ->]; reflexivity. }
    injection Hu' as <- <-.
    rewrite getCreditManager_NaN in Hcm by reflexivity. now injection Hcm as <-.
  - intros cur Ha Hc Hne. rewrite Ha, Hc in Hu.
    destruct cur as [|c cs]; [congruence|]. injection Hu as <- <-.
    rewrite getCreditManager_NaN in Hcm by reflexivity. now injection Hcm as <-.
  - intros x [= ->] Hx. unfold getCreditManager in Hcm.
    rewrite parseFloat_leb, Hx in Hcm.
    destruct (isNaN (parseFloat (VNum x))) eqn:Hn.
    + apply num_leb_not_nan in Hx. destruct x as [[|]| | |]; discriminate.
    + now injection Hcm as <-.
Qed.

Lemma row_manager_follows_amount_witness :
  creditManager
    (makeRow sample_host emptyRepository sample_msg05 (js "DE") (VStr (js "Germany"))
       (VNum (num_of_text "1630.4347826086955")) (js "lux"))
  = VStr (js "lux").
Proof.
  destruct (row_manager_follows_amount sample_host emptyRepository sample_msg05
              eur_cached eur_cached
              (makeRow sample_host emptyRepository sample_msg05 (js "DE")
                 (VStr (js "Germany")) (VNum (num_of_text "1630.4347826086955")) (js "lux")))
    as (_ & _ & _ & H); [vm_compute; reflexivity|].
  apply (H (num_of_text "1630.4347826086955")); vm_compute; reflexivity.
Defined.

(* ===================================================================== *)
(** * Further properties: decoded numbers *)
(* ===================================================================== *)

(** X17. [getElementNumber] gives null exactly for an absent element and
    for an element with empty text.  Text that is only white space is not
    empty: it reads as the Number 0.  Text that reads as NaN is kept as NaN,
    and an amount decoded from it converts to "Invalid Amount", while an
    absent or empty amount converts to " ". *)
Theorem element_number_edges (host : Host) :
  (forall text, getElementNumber text = None <-> text = None \/ text = Some [])
  /\ (forall t, t <> [] -> trim t = [] ->
        getElementNumber (Some t) = Some (S754_zero false))
  /\ (forall t currency st,
        t <> [] -> currency <> [] -> isNaN (Number_of_string t) = true ->
        convertToUSD host (num_to_value (getElementNumber (Some t))) (Some currency) st
        = Done (VStr (js "Invalid Amount")) st)
  /\ (forall text currency st,
        text = None \/ text = Some [] ->
        convertToUSD host (num_to_value (getElementNumber text)) currency st
        = Done (VStr (js " ")) st).
Proof.
  split; [|split; [|split]].
  - intros [[|c t]|]; simpl; split; auto; try discriminate.
    intros [H|H]; discriminate.
  - intros [|c t] Hne Ht; [congruence|]. cbn [getElementNumber].
    unfold Number_of_string. now rewrite Ht.
  - intros [|c t] [|d cur] st Hne Hc Hn; try congruence.
    cbn [getElementNumber num_to_value]. unfold convertToUSD. cbn [noAmount].
    destruct (Number_of_string (c :: t)); try discriminate. reflexivity.
  - intros text currency st [-> | ->]; reflexivity.
Qed.

Lemma element_number_edges_witness :
  getElementNumber (Some (js "  ")) = Some (S754_zero false)
  /\ convertToUSD sample_host (num_to_value (getElementNumber (Some (js "12,5"))))
       (Some (js "EUR")) eur_cached
     = Done (VStr (js "Invalid Amount")) eur_cached.
Proof.
  destruct (element_number_edges sample_host) as (_ & H0 & Hnan & _). split.
  - apply H0; [discriminate|vm_compute; reflexivity].
  - apply Hnan; [discriminate|discriminate|vm_compute; reflexivity].
Defined.

(* ===================================================================== *)
(** * Further properties: the copied text *)
(* ===================================================================== *)

Lemma split_unit_nonempty (sep : N) (s : jsstring) : split_unit sep s <> [].
Proof.
  destruct s as [|c s]; simpl; [discriminate|].
  destruct (c =? sep)%N; [discriminate|].
  destruct (split_unit sep s); discriminate.
Qed.

Lemma split_unit_app (sep : N) (s t : jsstring) :
  ~ In sep s -> split_unit sep (s ++ sep :: t) = s :: split_unit sep t.
Proof.
  induction s as [|c s IH]; intros Hs; simpl.
  - now rewrite N.eqb_refl.
  - destruct (c =? sep)%N eqn:E.
    + apply N.eqb_eq in E. exfalso. apply Hs. now left.
    + rewrite IH; [reflexivity|]. intros H. apply Hs. now right.
Qed.

Lemma split_unit_whole (sep : N) (s : jsstring) :
  ~ In sep s -> split_unit sep s = [s].
Proof.
  induction s as [|c s IH]; intros Hs; simpl; [reflexivity|].
  destruct (c =? sep)%N eqn:E.
  - apply N.eqb_eq in E. exfalso. apply Hs. now left.
  - rewrite IH; [reflexivity|]. intros H. apply Hs. now right.
Qed.

Lemma split_unit_join (sep : N) (cells : list jsstring) :
  cells <> [] -> List.Forall (fun cell => ~ In sep cell) cells ->
  split_unit sep (join [sep] cells) = cells.
Proof.
  induction cells as [|cell cells IH]; intros Hne Hfree; [congruence|].
  inversion Hfree as [|? ? Hcell Hcells]; subst.
  destruct cells as [|cell' cells].
  - simpl. now apply split_unit_whole.
  - change (join [sep] (cell :: cell' :: cells))
      with (cell ++ sep :: join [sep] (cell' :: cells)).
    rewrite split_unit_app by exact Hcell. f_equal. apply IH; [discriminate|exact Hcells].
Qed.

Lemma blank_out_In (c d : N) (text : jsstring) :
  In d (blank_out c text) -> d = 32%N \/ (d <> c /\ In d text).
Proof.
  unfold blank_out. rewrite in_map_iff. intros (u & Hu & Hin).
  destruct (u =? c)%N eqn:E; [now left|].
  apply N.eqb_neq in E. subst u. right. auto.
Qed.

Lemma blank_out_id (c : N) (text : jsstring) :
  ~ In c text -> blank_out c text = text.
Proof.
  unfold blank_out. induction text as [|u text IH]; intros H; simpl; [reflexivity|].
  destruct (u =? c)%N eqn:E.
  - apply N.eqb_eq in E. exfalso. apply H. now left.
  - rewrite IH; [reflexivity|]. intros Hin. apply H. now right.
Qed.

Lemma join_In (sep : jsstring) (cells : list jsstring) (d : N) :
  In d (join sep cells) -> In d sep \/ exists cell, In cell cells /\ In d cell.
Proof.
  induction cells as [|cell cells IH]; [intros []|].
  destruct cells as [|cell' cells].
  - simpl. intros H. right. exists cell. auto.
  - change (join sep (cell :: cell' :: cells))
      with (cell ++ sep ++ join sep (cell' :: cells)).
    intros H. apply in_app_or in H. destruct H as [H|H].
    + right. exists cell. split; [now left|exact H].
    + apply in_app_or in H. destruct H as [H|H]; [now left|].
      destruct (IH H) as [Hs|(c & Hc & Hd)]; [now left|].
      right. exists c. split; [now right|exact Hd].
Qed.

Lemma tsv_fold (line : list jsstring -> jsstring) (rows : list (list jsstring))
    (tsv : jsstring) :
  fold_left (fun tsv row => tsv ++ line row ++ [10%N]) rows tsv
  = tsv ++ concat (List.map (fun row => line row ++ [10%N]) rows).
Proof.
  revert tsv. induction rows as [|row rows IH]; intros tsv; simpl.
  - now rewrite app_nil_r.
  - rewrite IH. now rewrite <- !app_assoc.
Qed.

Lemma split_unit_lines (lines : list jsstring) :
  List.Forall (fun line => ~ In 10%N line) lines ->
  split_unit 10 (concat (List.map (fun line => line ++ [10%N]) lines)) = lines ++ [[]].
Proof.
  induction lines as [|line lines IH]; intros H; [reflexivity|].
  inversion H as [|? ? Hl Hls]; subst. simpl.
  rewrite <- app_assoc. simpl. rewrite split_unit_app by exact Hl.
  now rewrite IH.
Qed.

(** X18. The text [copyTableAsTSV] writes can be read back: it is one line
    per written row, each ended by a line feed, and splitting a line at its
    tabs gives the cells of the row with their tabs and line feeds turned
    into blanks, provided every row has a cell.  Without the header the
    first row is left out.  With no table nothing is written.
    [copyTableToClipboard] writes the same text as the export with header
    whenever no cell holds a line feed. *)
Theorem tsv_round_trip (includeHeader : bool) (rows : list (list jsstring)) :
  List.Forall (fun row => row <> []) rows ->
  let written := drop (if includeHeader then 0 else 1)%nat rows in
  (exists tsv lines,
      copyTableAsTSV includeHeader (Some rows) = Some tsv
      /\ split_unit 10 tsv = lines ++ [[]]
      /\ List.map (split_unit 9) lines
         = List.map (List.map (fun text => blank_out 10 (blank_out 9 text))) written)
  /\ copyTableAsTSV includeHeader None = None
  /\ (List.Forall (List.Forall (fun text => ~ In 10%N text)) rows ->
      copyTableToClipboard (Some rows) = copyTableAsTSV true (Some rows)).
Proof.
  intros Hrows written. split; [|split; [reflexivity|]].
  - set (clean := fun text : jsstring => blank_out 10 (blank_out 9 text)).
    assert (Hclean9 : forall text, ~ In 9%N (clean text)).
    { intros text H. apply blank_out_In in H. destruct H as [H|[_ H]]; [discriminate|].
      apply blank_out_In in H. destruct H as [H|[H _]]; [discriminate|congruence]. }
    assert (Hclean10 : forall text, ~ In 10%N (clean text)).
    { intros text H. apply blank_out_In in H. destruct H as [H|[H _]];
        [discriminate|congruence]. }
    exists (concat (List.map (fun row => join tab (List.map clean row) ++ [10%N]) written)),
           (List.map (fun row => join tab (List.map clean row)) written).
    split; [|split].
    + unfold copyTableAsTSV. f_equal.
      rewrite (tsv_fold (fun row => join tab (List.map clean row))).
      unfold written. destruct includeHeader; reflexivity.
    + rewrite <- split_unit_lines.
      * now rewrite List.map_map.
      * apply List.Forall_forall. intros line Hline. apply in_map_iff in Hline.
        destruct Hline as (row & <- & _). intros H. apply join_In in H.
        destruct H as [[H|[]]|(cell & Hcell & H)]; [discriminate|].
        apply in_map_iff in Hcell. destruct Hcell as (text & <- & _).
        now apply Hclean10 in H.
    + rewrite List.map_map. apply List.map_ext_in. intros row Hrow.
      apply split_unit_join.
      * assert (Hne : row <> []).
        { apply (proj1 (List.Forall_forall _ rows) Hrows).
          unfold written in Hrow.
          rewrite <- (take_drop (if includeHeader then 0 else 1)%nat rows).
          apply in_or_app. now right. }
        destruct row; [congruence|discriminate].
      * apply List.Forall_forall. intros cell Hcell. apply in_map_iff in Hcell.
        destruct Hcell as (text & <- & _). apply Hclean9.
  - intros Hfree. unfold copyTableToClipboard, copyTableAsTSV. f_equal.
    rewrite (tsv_fold (fun row => join tab (List.map (blank_out 9) row))).
    rewrite (tsv_fold (fun row =>
               join tab (List.map (fun text => blank_out 10 (blank_out 9 text)) row))).
    rewrite drop_0. cbn [app]. f_equal. apply List.map_ext_in. intros row Hrow.
    f_equal. f_equal. apply List.map_ext_in. intros text Htext.
    symmetry. apply blank_out_id. intros H.
    apply blank_out_In in H. destruct H as [H|[_ H]]; [discriminate|].
    pose proof (proj1 (List.Forall_forall _ rows) Hfree row Hrow) as Hcells.
    exact (proj1 (List.Forall_forall _ row) Hcells text Htext H).
Qed.

Lemma tsv_round_trip_witness :
  exists tsv lines,
    copyTableAsTSV false (Some sample_table) = Some tsv
    /\ split_unit 10 tsv = lines ++ [[]]
    /\ List.map (split_unit 9) lines = [[js "42"; js "Buyer Inc NY"]].
Proof.
  destruct (tsv_round_trip false sample_table) as [(tsv & lines & H1 & H2 & H3) _].
  { repeat constructor; discriminate. }
  exists tsv, lines. split; [exact H1|]. split; [exact H2|]. exact H3.
Defined.

(* ===================================================================== *)
(** * Further properties: the two tables show the same cells *)
(* ===================================================================== *)

Lemma extractDataColumn_found (line : jsstring) (indices : dict Z) (keys : list jsstring)
    (columnStart : Z) :
  fold_left (fun found key =>
               match found with
               | Some _ => found
               | None => if negb (jsstring_eqb key []) then dict_get indices key else None
               end) keys (Some columnStart) = Some columnStart.
Proof. induction keys as [|key keys IH]; simpl; auto. Qed.

(** X19. The link table reads a volume column from the same slice of the
    line as the report table: for a title that is in the column map, or that
    has no fallback titles, [extractDataColumn] returns the cell text
    [generateTableHTML] shows for that title; so the five volume columns of a
    link row hold the table's cell text, with "0" in place of an empty
    cell.  Such a value is at most 15 characters long and has no white space
    at either end. *)
Theorem link_value_is_table_cell (line : jsstring) (indices : dict Z) :
  (forall key fallbacks,
      key <> [] -> is_Some (dict_get indices key) \/ fallbacks = [] ->
      extractDataColumn line indices key fallbacks = data_cell line indices key)
  /\ (forall rowData label key fallbacks,
        In (label, key, fallbacks) columnConfig ->
        label <> js "MTD % DIFF" -> label <> js "YTD % DIFF" ->
        link_cell line indices rowData (label, key, fallbacks)
        = if jsstring_eqb (data_cell line indices key) [] then js "0"
          else data_cell line indices key)
  /\ (forall key fallbacks,
        key <> [] ->
        (length (extractDataColumn line indices key fallbacks) <= 15)%nat
        /\ no_edge_space (extractDataColumn line indices key fallbacks)).
Proof.
  assert (Hsame : forall key fallbacks,
             key <> [] -> is_Some (dict_get indices key) \/ fallbacks = [] ->
             extractDataColumn line indices key fallbacks = data_cell line indices key).
  { intros key fallbacks Hkey Hcase. unfold extractDataColumn, data_cell.
    apply jsstring_eqb_neq in Hkey. rewrite Hkey.
    cbn [fold_left]. rewrite Hkey. cbn [negb].
    destruct (dict_get indices key) as [i|].
    - now rewrite extractDataColumn_found.
    - destruct Hcase as [[x Hx]| ->]; [discriminate|reflexivity]. }
  split; [exact Hsame|]. split.
  - intros rowData label key fallbacks Hin Hm Hy. unfold link_cell.
    apply jsstring_eqb_neq in Hm. apply jsstring_eqb_neq in Hy. rewrite Hm, Hy.
    assert (He : extractDataColumn line indices key fallbacks = data_cell line indices key).
    { simpl in Hin.
      repeat (destruct Hin as [Hin|Hin];
              [injection Hin as <- <- <-;
               try (apply Hsame; [discriminate|now right]);
               try (exfalso; apply jsstring_eqb_neq in Hm; now apply Hm);
               try (exfalso; apply jsstring_eqb_neq in Hy; now apply Hy)|]).
      destruct Hin. }
    now rewrite He.
  - intros key fallbacks _. unfold extractDataColumn.
    destruct (jsstring_eqb key []); [split; [simpl; lia|now split]|].
    destruct (fold_left _ _ None) as [i|].
    + split; [|apply trim_no_edge_space].
      etransitivity; [apply trim_length|].
      etransitivity; [apply substring_length|]. lia.
    + split; [simpl; lia|]. now split.
Qed.

Lemma link_value_is_table_cell_witness :
  extractDataColumn (js " C 0123 ACME CORP       110") [(js "CURR MO", 24)] (js "CURR MO") []
  = js "110".
Proof.
  destruct (link_value_is_table_cell (js " C 0123 ACME CORP       110") [(js "CURR MO", 24)])
    as (H & _).
  rewrite H; [vm_compute; reflexivity|discriminate|now right].
Defined.

(* ===================================================================== *)
(** * Further properties: the credit manager of a row without a rate *)
(* ===================================================================== *)

Lemma scan_digits_space (s : jsstring) (acc : N) (cnt : Z) (t : jsstring) :
  scan_digits (s ++ 32%N :: t) acc cnt
  = let '(a, n, r) := scan_digits s acc cnt in (a, n, r ++ 32%N :: t).
Proof.
  revert acc cnt. induction s as [|c s IH]; intros acc cnt; [reflexivity|].
  simpl. destruct (isDigit c); [apply IH|reflexivity].
Qed.

Lemma scan_sign_cases (s : jsstring) :
  scan_sign s
  = match s with
    | c :: s' =>
        if (c =? 43)%N then (false, s') else if (c =? 45)%N then (true, s') else (false, s)
    | [] => (false, [])
    end.
Proof.
  destruct s as [|c s]; [reflexivity|].
  destruct c as [|p]; [reflexivity|].
  do 6 (destruct p as [p|p|]; try reflexivity).
Qed.

Lemma scan_sign_space (s t : jsstring) :
  scan_sign (s ++ 32%N :: t) = (fst (scan_sign s), snd (scan_sign s) ++ 32%N :: t).
Proof.
  rewrite !scan_sign_cases. destruct s as [|c s]; [reflexivity|]. simpl.
  destruct (c =? 43)%N; [reflexivity|]. destruct (c =? 45)%N; reflexivity.
Qed.

Lemma scan_exponent_space (s t : jsstring) :
  scan_exponent (s ++ 32%N :: t)
  = (fst (scan_exponent s), snd (scan_exponent s) ++ 32%N :: t).
Proof.
  destruct s as [|c r]; [reflexivity|]. simpl.
  destruct ((c =? 101) || (c =? 69))%N; [|reflexivity].
  rewrite scan_sign_space. destruct (scan_sign r) as [eneg r1]. cbn [fst snd].
  rewrite scan_digits_space. destruct (scan_digits r1 0 0) as [[ev ecnt] r2].
  destruct (ecnt =? 0); reflexivity.
Qed.

Lemma isPrefixOf_space (p s t : jsstring) :
  ~ In 32%N p -> isPrefixOf p (s ++ 32%N :: t) = isPrefixOf p s.
Proof.
  revert s. induction p as [|a p IH]; intros s Hp; [reflexivity|].
  destruct s as [|b s]; simpl.
  - destruct (a =? 32)%N eqn:E; [|reflexivity].
    apply N.eqb_eq in E. exfalso. apply Hp. now left.
  - rewrite IH; [reflexivity|]. intros H. apply Hp. now right.
Qed.

Lemma fraction_cases {A} (s2 : jsstring) (f : jsstring -> A) (d : A) :
  match s2 with
  | 46%N :: r => f r
  | _ => d
  end
  = match s2 with
    | c :: r => if (c =? 46)%N then f r else d
    | [] => d
    end.
Proof.
  destruct s2 as [|c r]; [reflexivity|].
  destruct c as [|p]; [reflexivity|].
  do 6 (destruct p as [p|p|]; try reflexivity).
Qed.

Lemma strDecimalLiteral_space (s t : jsstring) :
  option_map fst (strDecimalLiteral (s ++ 32%N :: t)) = option_map fst (strDecimalLiteral s).
Proof.
  unfold strDecimalLiteral. rewrite scan_sign_space.
  destruct (scan_sign s) as [neg s1]. cbn [fst snd].
  rewrite isPrefixOf_space
    by (vm_compute; intros H; repeat (destruct H as [H|H]; [discriminate|]); exact H).
  destruct (isPrefixOf (js "Infinity") s1); [reflexivity|].
  rewrite scan_digits_space. destruct (scan_digits s1 0 0) as [[iv icnt] s2].
  rewrite !fraction_cases.
  destruct s2 as [|c r].
  - cbn [app N.eqb Pos.eqb]. rewrite andb_true_r.
    destruct (icnt =? 0); reflexivity.
  - cbn [app]. destruct (c =? 46)%N.
    + rewrite scan_digits_space. destruct (scan_digits r iv 0) as [[fv fc] r'].
      destruct ((icnt =? 0) && (fc =? 0)) eqn:E.
      * apply andb_true_iff in E. destruct E as [E _]. rewrite E. reflexivity.
      * rewrite ?E. rewrite (scan_exponent_space r' t).
        destruct (scan_exponent r') as [ev s4]. reflexivity.
    + rewrite andb_true_r. destruct (icnt =? 0); [reflexivity|].
      change (c :: r ++ 32%N :: t) with ((c :: r) ++ 32%N :: t).
      rewrite (scan_exponent_space (c :: r) t).
      destruct (scan_exponent (c :: r)) as [ev s4]. reflexivity.
Qed.

(** [parseFloat] stops at a blank: what follows it does not count. *)
Lemma parseFloat_string_space (c : N) (s t : jsstring) :
  isWhiteSpace c = false ->
  parseFloat_string ((c :: s) ++ 32%N :: t) = parseFloat_string (c :: s).
Proof.
  intros Hc. unfold parseFloat_string.
  assert (H1 : trimStart ((c :: s) ++ 32%N :: t) = (c :: s) ++ 32%N :: t)
    by (simpl; now rewrite Hc).
  assert (H2 : trimStart (c :: s) = c :: s) by (simpl; now rewrite Hc).
  rewrite H1, H2.
  pose proof (strDecimalLiteral_space (c :: s) t) as H.
  destruct (strDecimalLiteral ((c :: s) ++ 32%N :: t)) as [[v r]|],
           (strDecimalLiteral (c :: s)) as [[v' r']|]; simpl in H; congruence.
Qed.

Lemma isDigit_not_space (c : N) : isDigit c = true -> isWhiteSpace c = false.
Proof.
  unfold isDigit, isWhiteSpace. rewrite andb_true_iff, !N.leb_le.
  intros [H1 H2].
  repeat match goal with
         | |- _ || _ = false => apply orb_false_iff; split
         | |- _ && _ = false => apply andb_false_iff
         | |- (_ =? _)%N = false => apply N.eqb_neq; lia
         end.
  - right. apply N.leb_gt. lia.
  - left. apply N.leb_gt. lia.
Qed.

Lemma string_of_uint_digits (d : Decimal.uint) :
  List.Forall (fun c => isDigit c = true)
    (List.map N_of_ascii (list_ascii_of_string (DecimalString.NilEmpty.string_of_uint d))).
Proof.
  induction d; simpl; constructor; auto.
Qed.

Lemma fixed_digits_head (d : jsstring) (ip : nat) :
  List.Forall (fun c => isDigit c = true) d ->
  exists c rest, take ip d ++ js "." ++ drop ip d = c :: rest /\ isWhiteSpace c = false.
Proof.
  intros Hd. destruct (take ip d) as [|c rest] eqn:E.
  - exists 46%N, (drop ip d). split; reflexivity.
  - exists c, (rest ++ js "." ++ drop ip d). split; [reflexivity|].
    apply isDigit_not_space.
    assert (Hin : In c (take ip d)) by (rewrite E; now left).
    apply (proj1 (List.Forall_forall _ d) Hd).
    rewrite <- (take_drop ip d). apply in_or_app. now left.
Qed.

Lemma toFixed2_head (x : number) :
  below_1e21 x = true ->
  exists c rest, toFixed2 x = c :: rest /\ isWhiteSpace c = false.
Proof.
  destruct x as [z| | |s m e]; try discriminate.
  - intros _. exists 48%N, (js ".00"). split; reflexivity.
  - unfold below_1e21, toFixed2. destruct (exact_fraction m e) as [num den].
    intros H. apply negb_true_iff in H. rewrite H. cbv zeta.
    set (d := zeros _ ++ digits_of_N _).
    assert (Hd : List.Forall (fun c => isDigit c = true) d).
    { unfold d. apply List.Forall_app. split.
      - unfold zeros. apply List.Forall_forall. intros c Hc.
        apply repeat_spec in Hc. now subst c.
      - apply string_of_uint_digits. }
    destruct s.
    + exists 45%N. eexists. split; reflexivity.
    + apply (fixed_digits_head d _ Hd).
Qed.

(** X20. When the rate of a row was declined, the credit manager is decided
    from the amount in its own currency: [getCreditManager] is given the
    "(Rate needed)" text, and [parseFloat] reads from it the amount as
    printed with two decimals and nothing more.  This holds for a zero and
    for every finite amount below [1e21] in magnitude, which [toFixed(2)]
    writes in fixed notation. *)
Theorem declined_row_manager (host : Host) (numericAmount : number)
    (upperCaseCurrency : jsstring) :
  below_1e21 numericAmount = true ->
  parseFloat (VStr (rateNeeded numericAmount upperCaseCurrency))
  = parseFloat (VStr (toFixed2 numericAmount))
  /\ (forall countryCode factorName,
        getCreditManager countryCode (VStr (rateNeeded numericAmount upperCaseCurrency))
          factorName
        = getCreditManager countryCode (VStr (toFixed2 numericAmount)) factorName)
  /\ (forall repo msg st st' row code,
        buildRow host repo msg st = Done row st' ->
        amountReqUSD row = VStr (rateNeeded numericAmount upperCaseCurrency) ->
        exportFactorCodeCharacters msg = Return code ->
        getCreditManager code (VStr (toFixed2 numericAmount)) (FactorName (ef msg))
        = Return (ToString (creditManager row))).
Proof.
  intros Hx.
  assert (Hparse : parseFloat (VStr (rateNeeded numericAmount upperCaseCurrency))
                   = parseFloat (VStr (toFixed2 numericAmount))).
  { destruct (toFixed2_head _ Hx) as (c & rest & Hc & Hws).
    unfold rateNeeded. cbn [parseFloat]. rewrite Hc.
    change (js " " ++ upperCaseCurrency ++ js " (Rate needed)")
      with (32%N :: upperCaseCurrency ++ js " (Rate needed)").
    now apply parseFloat_string_space. }
  assert (Hmanager : forall countryCode factorName,
             getCreditManager countryCode
               (VStr (rateNeeded numericAmount upperCaseCurrency)) factorName
             = getCreditManager countryCode (VStr (toFixed2 numericAmount)) factorName).
  { intros countryCode factorName. unfold getCreditManager. now rewrite Hparse. }
  split; [exact Hparse|]. split; [exact Hmanager|].
  intros repo msg st st' row code Hb Hu Hcode.
  destruct (buildRow_Done _ _ _ _ _ _ Hb) as (code' & pc & usd & cm & H1 & _ & _ & Hcm & ->).
  cbn [amountReqUSD makeRow] in Hu. subst usd.
  cbn [creditManager makeRow ToString].
  rewrite H1 in Hcode. injection Hcode as <-.
  now rewrite <- Hmanager.
Qed.

Lemma declined_row_manager_witness :
  getCreditManager (js "VN") (VStr (js "600000.00 EUR (Rate needed)")) None
  = Return (js "trey").
Proof.
  destruct (declined_row_manager sample_host (num_of_text "600000") (js "EUR"))
    as (_ & H & _); [vm_compute; reflexivity|].
  etransitivity; [exact (H (js "VN") None)|]. vm_compute. reflexivity.
Defined.

(* ===================================================================== *)
(** * Further properties: the time of day *)
(* ===================================================================== *)

(** X21. Only the first ten characters of a message's DateTime reach its
    row, so the time of day plays no part in the order: two rows built from
    messages whose DateTime agree in their first ten characters compare as
    equal both ways, and the sort leaves them as they stand, whatever the
    engine. *)
Theorem time_of_day_ignored (host : Host) (repo1 repo2 : Repository) (msg1 msg2 : Msg)
    (row1 row2 : DisplayRow) (dateTime1 dateTime2 : jsstring) :
  row_of_message host repo1 msg1 row1 ->
  row_of_message host repo2 msg2 row2 ->
  DateTime (msgInfo msg1) = Some dateTime1 ->
  DateTime (msgInfo msg2) = Some dateTime2 ->
  take 10 dateTime1 = take 10 dateTime2 ->
  dateReceived row1 = take 10 dateTime1
  /\ dateReceived row2 = dateReceived row1
  /\ receivedBefore host row1 row2 = false
  /\ receivedBefore host row2 row1 = false
  /\ Array_sort (receivedBefore host) [row1; row2] = [row1; row2]
  /\ Array_prototype_sort host (receivedBefore host) [row1; row2] = [row1; row2].
Proof.
  intros (c1 & p1 & u1 & m1 & _ & _ & _ & ->) (c2 & p2 & u2 & m2 & _ & _ & _ & ->) H1 H2 Heq.
  assert (D1 : dateReceived (makeRow host repo1 msg1 c1 p1 u1 m1) = take 10 dateTime1).
  { cbn [dateReceived makeRow]. rewrite H1. now destruct dateTime1. }
  assert (D2 : dateReceived (makeRow host repo2 msg2 c2 p2 u2 m2) = take 10 dateTime1).
  { cbn [dateReceived makeRow]. rewrite H2, Heq. now destruct dateTime2. }
  assert (B : forall a b : DisplayRow,
             dateReceived a = dateReceived b -> receivedBefore host a b = false).
  { intros a b E. unfold receivedBefore. rewrite E.
    destruct (Date_parse host (dateReceived b)) as [t|]; [|reflexivity].
    apply Z.ltb_ge. lia. }
  split; [exact D1|]. split; [congruence|].
  assert (B12 := B _ _ (eq_trans D1 (eq_sym D2))).
  assert (B21 := B _ _ (eq_trans D2 (eq_sym D1))).
  split; [exact B12|]. split; [exact B21|].
  assert (Hsorted : Array_sort (receivedBefore host)
                      [makeRow host repo1 msg1 c1 p1 u1 m1; makeRow host repo2 msg2 c2 p2 u2 m2]
                    = [makeRow host repo1 msg1 c1 p1 u1 m1; makeRow host repo2 msg2 c2 p2 u2 m2]).
  { unfold Array_sort. cbn [fold_left sort_insert rev app]. rewrite B21. reflexivity. }
  split; [exact Hsorted|].
  rewrite Array_prototype_sort_consistent; [exact Hsorted|].
  unfold consistent. cbn [forallb]. now rewrite !(B _ _ eq_refl), B12, B21.
Qed.

Lemma time_of_day_ignored_witness :
  Array_prototype_sort sample_host (receivedBefore sample_host) [row_jan1_later; row_jan1]
  = [row_jan1_later; row_jan1].
Proof.
  apply (time_of_day_ignored sample_host emptyRepository emptyRepository
           (usd_msg (Some (js "3")) (Some (js "2024-01-01T17:00:00")))
           (usd_msg (Some (js "2")) (Some (js "2024-01-01T09:00:00")))
           row_jan1_later row_jan1 (js "2024-01-01T17:00:00") (js "2024-01-01T09:00:00")).
  - exists (js "DE"), (VStr (js "Germany")), (VNum (num_of_text "1500")), (js "lux").
    split; [reflexivity|]. split; [vm_compute; reflexivity|].
    split; [vm_compute; reflexivity|reflexivity].
  - exists (js "DE"), (VStr (js "Germany")), (VNum (num_of_text "1500")), (js "lux").
    split; [reflexivity|]. split; [vm_compute; reflexivity|].
    split; [vm_compute; reflexivity|reflexivity].
  - reflexivity.
  - reflexivity.
  - reflexivity.
Defined.
